(** * Incremental archive updater ([update_jqdb.py]): model and properties

    The definitions follow the Python module:
    - [Py]: the [str] operations the module calls (split, endswith, replace,
      isdigit, int, comparison, [os.path.join], [os.path.basename]) on
      strings of code points below 256, paths being those of POSIX;
    - [Datetime]: calendar dates, [strptime], [strftime] as on Linux, adding
      one day;
    - [get_current_fy];
    - [Pd]: the table operations used (select, drop_duplicates, concat);
    - [FileRepository]: the scan, [get_latest_file], [add_file], [remove_file];
    - the world (files on disk, the repository index, a script of I/O
      faults, the trace of I/O performed) and a state-and-exception monad;
    - [atomic_save] and [update_file_for_code], the latter in the phases
      [locate] (lines 231-272), [update_from] (274-434), [fetch_and_merge]
      (288-426), [rollover] (337-395) and [normal_update] (397-424);
    - [Calendar] (ordinals and weekdays) and [get_latest_business_day];
    - [update_topix_data] with the paths of [config], and [os.makedirs];
    - the loop of [main] over the listed instruments ([main_loop]), whose
      cells for the code and the sector code may be without value.

    Logging and the pause between requests change no state of the model;
    exceptions are the subclasses of [Exception].  The theorems come after
    all definitions. *)

From Stdlib Require Import ZArith Lia String Ascii List Bool Sorted Permutation.
From stdpp Require Import base decidable option list gmap strings pretty.

Open Scope string_scope.
Open Scope list_scope.
Open Scope Z_scope.

(** ** Python [str] *)

(** A Python [str] is modelled by a [string] whose characters are the code
    points U+0000 to U+00FF. *)
Module Py.

Definition ord (c : ascii) : Z := Z.of_N (N_of_ascii c).

(** [len(s)] *)
Definition len (s : string) : Z := Z.of_nat (String.length s).

(** [s.startswith(p)] *)
Fixpoint startswith (p s : string) : bool :=
  match p, s with
  | EmptyString, _ => true
  | String a p', String b s' => if Ascii.eqb a b then startswith p' s' else false
  | String _ _, EmptyString => false
  end.

(** [s.endswith(p)]: [p] is found at offset [len s - len p]. *)
Fixpoint endswith (p s : string) : bool :=
  if (String.length s =? String.length p)%nat then String.eqb s p
  else match s with
       | EmptyString => false
       | String _ s' => endswith p s'
       end.

(** [s.split(sep)] for a separator of one character: never empty. *)
Fixpoint split (sep : ascii) (s : string) : list string :=
  match s with
  | EmptyString => [EmptyString]
  | String c s' =>
      if Ascii.eqb c sep then EmptyString :: split sep s'
      else match split sep s' with
           | h :: t => String c h :: t
           | [] => [String c EmptyString]
           end
  end.

(** [parts[-1]] of a list that [split] returned. *)
Definition last_part (parts : list string) : string := List.last parts EmptyString.

(** [s.replace(old, new)], [old] not empty: occurrences are replaced from
    the left and do not overlap; [skip] counts the characters of a match
    still to be dropped. *)
Fixpoint replace_go (old new : string) (skip : nat) (s : string) : string :=
  match s with
  | EmptyString => EmptyString
  | String c r =>
      match skip with
      | S k => replace_go old new k r
      | O => if startswith old s
             then new +:+ replace_go old new (String.length old - 1) r
             else String c (replace_go old new 0 r)
      end
  end.

Definition replace (old new s : string) : string := replace_go old new 0 s.

(** Decimal digits '0'..'9' (Unicode category Nd below U+0100). *)
Definition is_decimal (c : ascii) : bool := (48 <=? ord c) && (ord c <=? 57).

(** [c.isdigit()]: the decimal digits and, below U+0100, the superscripts
    U+00B2, U+00B3 and U+00B9, whose Numeric_Type is Digit. *)
Definition char_isdigit (c : ascii) : bool :=
  is_decimal c || (ord c =? 178) || (ord c =? 179) || (ord c =? 185).

(** [s.isdigit()]: every character is a digit and there is at least one. *)
Definition isdigit (s : string) : bool :=
  match s with
  | EmptyString => false
  | _ => forallb char_isdigit (list_ascii_of_string s)
  end.

Definition digit_val (c : ascii) : option Z :=
  if is_decimal c then Some (ord c - 48) else None.

(** Value of a run of decimal digits, most significant first. *)
Fixpoint digits_val (acc : Z) (s : string) : option Z :=
  match s with
  | EmptyString => Some acc
  | String c r =>
      match digit_val c with
      | Some d => digits_val (10 * acc + d) r
      | None => None
      end
  end.

(** The characters below U+0100 that [int] strips from both ends: the ASCII
    whitespace (tab to carriage return, space) and, of the other Unicode
    whitespace, U+0085 and U+00A0, which [int] turns into spaces first.  The
    separators U+001C to U+001F are whitespace for [str.strip] but not for
    [int], which raises [ValueError] on them. *)
Definition is_space (c : ascii) : bool :=
  ((9 <=? ord c) && (ord c <=? 13)) || (ord c =? 32)
  || (ord c =? 133) || (ord c =? 160).

Fixpoint lstrip (s : string) : string :=
  match s with
  | EmptyString => EmptyString
  | String c r => if is_space c then lstrip r else s
  end.

Definition strip (s : string) : string :=
  String.rev (lstrip (String.rev (lstrip s))).

(** The digits of an [int] literal: decimal digits, single underscores
    allowed between two digits. *)
Fixpoint int_digits (acc : Z) (after_digit : bool) (s : string) : option Z :=
  match s with
  | EmptyString => if after_digit then Some acc else None
  | String c r =>
      if Ascii.eqb c "_"
      then (if after_digit then int_digits acc false r else None)
      else match digit_val c with
           | Some d => int_digits (10 * acc + d) true r
           | None => None
           end
  end.

(** [int(s)] in base ten: surrounding whitespace, an optional sign, digits;
    [None] stands for [ValueError]. *)
Definition int (s : string) : option Z :=
  match strip s with
  | String "-" r => Z.opp <$> int_digits 0 false r
  | String "+" r => int_digits 0 false r
  | t => int_digits 0 false t
  end.

(** [posixpath.join(a, b)] *)
Definition join (a b : string) : string :=
  if startswith "/" b then b
  else if String.eqb a EmptyString || endswith "/" a then a +:+ b
  else a +:+ "/" +:+ b.

(** [posixpath.basename(p)]: what follows the last slash. *)
Definition basename (p : string) : string := last_part (split "/" p).

(** Python string order: lexicographic on code points. *)
Definition lt (a b : string) : bool := String.ltb a b.
Definition le (a b : string) : bool := String.leb a b.
Definition ge (a b : string) : bool := String.leb b a.
Definition gt (a b : string) : bool := String.ltb b a.

(** The digit character of [k], for [0 <= k <= 9]. *)
Definition digit_char (k : Z) : ascii := ascii_of_N (Z.to_N (48 + k)).

(** [w] decimal digits of [n], zero padded: the rendering of [%04d],
    [%02d] for [0 <= n < 10^w]. *)
Fixpoint zpad (w : nat) (n : Z) : string :=
  match w with
  | O => EmptyString
  | S w' => String (digit_char ((n / 10 ^ Z.of_nat w') mod 10)) (zpad w' n)
  end.

End Py.

(** ** Exceptions and results *)

(** The classes of [Exception] that the module can meet.  [OSError] is what
    the [os] calls raise, [TypeError] what [os.path.join] raises on a value
    that is no string; [RuntimeError] stands for any other class. *)
Inductive exn :=
| ValueError | IndexError | KeyError | OverflowError | OSError | RuntimeError | TypeError.

Inductive result (A : Type) :=
| Ok (a : A)
| Raise (e : exn).
Arguments Ok {A} a.
Arguments Raise {A} e.

Definition rbind {A B} (r : result A) (f : A → result B) : result B :=
  match r with
  | Ok a => f a
  | Raise e => Raise e
  end.

(** ** [datetime] *)

Module Datetime.

Record date := mkdate { year : Z; month : Z; day : Z }.

Definition is_leap (y : Z) : bool :=
  (y mod 4 =? 0) && (negb (y mod 100 =? 0) || (y mod 400 =? 0)).

Definition days_in_month (y m : Z) : Z :=
  if m =? 2 then (if is_leap y then 29 else 28)
  else if (m =? 4) || (m =? 6) || (m =? 9) || (m =? 11) then 30
  else 31.

(** The checks of the [datetime(year, month, day)] constructor. *)
Definition valid (d : date) : bool :=
  (1 <=? year d) && (year d <=? 9999) &&
  (1 <=? month d) && (month d <=? 12) &&
  (1 <=? day d) && (day d <=? days_in_month (year d) (month d)).

Definition datetime (y m d : Z) : result date :=
  if valid (mkdate y m d) then Ok (mkdate y m d) else Raise ValueError.

(** Chronological order. *)
Definition date_lt (a b : date) : Prop :=
  year a < year b ∨ (year a = year b ∧
    (month a < month b ∨ (month a = month b ∧ day a < day b))).
Definition date_le (a b : date) : Prop := date_lt a b ∨ a = b.

(** [d + timedelta(days=1)]: the next calendar day; [OverflowError] past
    9999-12-31. *)
Definition add_one_day (d : date) : result date :=
  if day d <? days_in_month (year d) (month d)
  then Ok (mkdate (year d) (month d) (day d + 1))
  else if month d <? 12 then Ok (mkdate (year d) (month d + 1) 1)
  else if year d <? 9999 then Ok (mkdate (year d + 1) 1 1)
  else Raise OverflowError.

(** The alternatives of the regular expressions that [strptime] builds
    for [%m] and [%d], in the order in which they are tried.  Each returns
    the value and the rest of the input. *)
Definition two_digits (s : string) : option (Z * Z * string) :=
  match s with
  | String a (String b r) =>
      match Py.digit_val a, Py.digit_val b with
      | Some x, Some y => Some (x, y, r)
      | _, _ => None
      end
  | _ => None
  end.

Definition one_digit_1_9 (s : string) : option (Z * string) :=
  match s with
  | String a r =>
      match Py.digit_val a with
      | Some x => if 1 <=? x then Some (x, r) else None
      | None => None
      end
  | _ => None
  end.

(** [%m]: [1[0-2]|0[1-9]|[1-9]] *)
Definition month_alts (s : string) : list (Z * string) :=
  match two_digits s with
  | Some (x, y, r) =>
      (if ((x =? 1) && (y <=? 2)) || ((x =? 0) && (1 <=? y)) then [(10 * x + y, r)] else [])
  | None => []
  end ++
  match one_digit_1_9 s with
  | Some (x, r) => [(x, r)]
  | None => []
  end.

(** [%d]: [3[01]|[12]\d|0[1-9]|[1-9]| [1-9]] *)
Definition day_alts (s : string) : list (Z * string) :=
  match two_digits s with
  | Some (x, y, r) =>
      (if ((x =? 3) && (y <=? 1)) || (x =? 1) || (x =? 2) || ((x =? 0) && (1 <=? y))
       then [(10 * x + y, r)] else [])
  | None => []
  end ++
  match one_digit_1_9 s with
  | Some (x, r) => [(x, r)]
  | None => []
  end ++
  match s with
  | String " " r =>
      match one_digit_1_9 r with
      | Some (x, r') => [(x, r')]
      | None => []
      end
  | _ => []
  end.

(** [%Y]: [\d\d\d\d] *)
Definition year_field (s : string) : option (Z * string) :=
  match s with
  | String a (String b (String c (String d r))) =>
      match Py.digits_val 0 (String a (String b (String c (String d EmptyString)))) with
      | Some y => Some (y, r)
      | None => None
      end
  | _ => None
  end.

(** A literal separator of the format, when there is one. *)
Definition literal (sep : option ascii) (s : string) : option string :=
  match sep with
  | None => Some s
  | Some c =>
      match s with
      | String a r => if Ascii.eqb a c then Some r else None
      | EmptyString => None
      end
  end.

(** First successful way, in backtracking order, to match the month, the
    separator and the day. *)
Definition first_match (sep : option ascii) (s : string) : option (Z * Z * string) :=
  List.head
    (List.flat_map
       (λ '(m, r), match literal sep r with
                   | Some r' => List.map (λ '(d, r''), (m, d, r'')) (day_alts r')
                   | None => []
                   end)
       (month_alts s)).

(** [datetime.strptime(s, fmt)] for [fmt] = [%Y%m%d] ([sep = None]) and
    [%Y-%m-%d] ([sep = Some "-"]): the regular expression must match a
    prefix, nothing may remain after it, and the fields must form a date. *)
Definition strptime (sep : option ascii) (s : string) : result date :=
  match year_field s with
  | Some (y, r) =>
      match literal sep r with
      | Some r' =>
          match first_match sep r' with
          | Some (m, d, EmptyString) => datetime y m d
          | _ => Raise ValueError
          end
      | None => Raise ValueError
      end
  | None => Raise ValueError
  end.

(** The separator of the format as a string. *)
Definition sep_string (sep : option ascii) : string :=
  match sep with Some c => String c EmptyString | None => EmptyString end.

(** [d.strftime(fmt)] for the same two formats.  CPython hands the format
    to the C library; the model is that of Linux (glibc), as is the model of
    paths: [%Y] is the year in decimal without padding ("300" for the year
    300, four digits from the year 1000 on), [%m] and [%d] are on two
    digits. *)
Definition strftime (sep : option ascii) (d : date) : string :=
  pretty (year d) +:+ sep_string sep +:+ Py.zpad 2 (month d)
  +:+ sep_string sep +:+ Py.zpad 2 (day d).

(** The date on eight digits, the year on four, with [sep] between the
    fields: the forms [YYYYMMDD] and [YYYY-MM-DD]. *)
Definition yyyymmdd (sep : option ascii) (d : date) : string :=
  Py.zpad 4 (year d) +:+ sep_string sep +:+ Py.zpad 2 (month d)
  +:+ sep_string sep +:+ Py.zpad 2 (day d).

(** Chronological comparison. *)
Definition date_compare (a b : date) : comparison :=
  match year a ?= year b with
  | Eq => match month a ?= month b with
          | Eq => day a ?= day b
          | c => c
          end
  | c => c
  end.

(** The month and day fields on two digits are read back. *)
Definition month_day_ok (sep : option ascii) (m d : Z) : bool :=
  bool_decide (first_match sep (Py.zpad 2 m +:+ sep_string sep +:+ Py.zpad 2 d)
               = Some (m, d, EmptyString)).

End Datetime.

Import Datetime.

(** ** [get_current_fy] *)

Definition get_current_fy (date_obj : date) : Z :=
  if 4 <=? month date_obj then year date_obj else year date_obj - 1.


(** ** Tables *)

(** A row of a price table: its [Date] cell and its other cells.  Every
    table of the archive and of the upstream API has a [Date] column. *)
Record row := mkrow { Date : string; cells : list string }.

Abbreviation DataFrame := (list row).

Module Pd.

(** [df.empty] *)
Definition empty (df : DataFrame) : bool :=
  match df with
  | [] => true
  | _ :: _ => false
  end.

Definition str_max (a b : string) : string := if Py.lt a b then b else a.

(** [df["Date"].max()] of a table that is not empty. *)
Definition max_date (df : DataFrame) : string :=
  match df with
  | [] => EmptyString
  | r :: t => fold_left (λ acc r', str_max acc (Date r')) t (Date r)
  end.

(** [df.iloc[-1]["Date"]] of a table that is not empty. *)
Definition last_date (df : DataFrame) : string :=
  Date (List.last df (mkrow EmptyString [])).

(** [df[cond(df["Date"])]] *)
Definition select (cond : string → bool) (df : DataFrame) : DataFrame :=
  List.filter (λ r, cond (Date r)) df.

(** [df.drop_duplicates(subset=["Date"], keep="last")]: a row stays when no
    later row has its date; the rows that stay keep their order. *)
Fixpoint drop_duplicates_last (df : DataFrame) : DataFrame :=
  match df with
  | [] => []
  | r :: t =>
      if existsb (λ r', String.eqb (Date r') (Date r)) t
      then drop_duplicates_last t
      else r :: drop_duplicates_last t
  end.

(** [pd.concat([a, b], ignore_index=True)] *)
Definition concat (a b : DataFrame) : DataFrame := a ++ b.

End Pd.

(** ** [FileRepository] *)

Module FileRepository.

(** One step of [os.walk]: a directory path, its sub-directory names and
    its file names. *)
Definition walk_entry : Type := string * list string * list string.

(** A directory tree: the name of a directory, the names of its files and
    its sub-directories. *)
#[warnings="-register-all"]
Inductive tree := Dir (name : string) (file_names : list string) (subdirs : list tree).

Definition dir_name (t : tree) : string :=
  match t with Dir name _ _ => name end.

(** [os.walk(top)], top-down; the name of the top directory itself is not
    used, [top] is its path. *)
Fixpoint walk (top : string) (t : tree) : list walk_entry :=
  match t with
  | Dir _ file_names subdirs =>
      (top, dir_name <$> subdirs, file_names)
      :: List.flat_map (λ sub, walk (Py.join top (dir_name sub)) sub) subdirs
  end.

(** The body of the inner loop of [_scan_files] for one file name. *)
Definition scan_file (root filename : string) (file_map : gmap string (list string))
  : gmap string (list string) :=
  if Py.endswith ".csv" filename then
    let parts := Py.split "_" filename in
    if (2 <=? length parts)%nat then
      let code := List.hd EmptyString parts in
      let full_path := Py.join root filename in
      <[code := default [] (file_map !! code) ++ [full_path]]> file_map
    else file_map
  else file_map.

Definition scan_entry (file_map : gmap string (list string)) (e : walk_entry)
  : gmap string (list string) :=
  fold_left (λ fm filename, scan_file (fst (fst e)) filename fm) (snd e) file_map.

(** [_scan_files], from the empty index of [__init__]. *)
Definition scan_entries (entries : list walk_entry) : gmap string (list string) :=
  fold_left scan_entry entries ∅.

Definition _scan_files (root_dir : string) (t : tree) : gmap string (list string) :=
  scan_entries (walk root_dir t).

(** [sort_key] of [get_latest_file]. *)
Definition sort_key (filepath : string) : result Z :=
  let filename := Py.basename filepath in
  let parts := Py.split "_" filename in
  let last_part := List.hd EmptyString (Py.split "." (Py.last_part parts)) in
  if Py.isdigit last_part && (String.length last_part =? 8)%nat then
    match Py.int last_part with
    | Some n => Ok n
    | None => Raise ValueError
    end
  else Ok 0.

(** The keys of all files, computed from left to right. *)
Fixpoint keyed (files : list string) : result (list (Z * string)) :=
  match files with
  | [] => Ok []
  | f :: fs =>
      rbind (sort_key f) (λ k, rbind (keyed fs) (λ ks, Ok ((k, f) :: ks)))
  end.

(** [sorted(files, key=sort_key, reverse=True)]: descending keys, files of
    equal key in their original order. *)
Fixpoint insert_desc (x : Z * string) (l : list (Z * string)) : list (Z * string) :=
  match l with
  | [] => [x]
  | y :: l' => if fst x <? fst y then y :: insert_desc x l' else x :: l
  end.

Definition sorted_desc (l : list (Z * string)) : list (Z * string) :=
  fold_right insert_desc [] l.

Definition get_latest_file (file_map : gmap string (list string)) (code : string)
  : result (option string) :=
  match file_map !! code with
  | None | Some [] => Ok None
  | Some files =>
      rbind (keyed files) (λ ks, Ok (snd <$> List.head (sorted_desc ks)))
  end.

Definition add_file (file_map : gmap string (list string)) (code filepath : string)
  : gmap string (list string) :=
  let l := default [] (file_map !! code) in
  if bool_decide (filepath ∈ l) then <[code := l]> file_map
  else <[code := l ++ [filepath]]> file_map.

(** [list.remove(x)]: the first occurrence goes. *)
Fixpoint list_remove (x : string) (l : list string) : list string :=
  match l with
  | [] => []
  | y :: l' => if String.eqb y x then l' else y :: list_remove x l'
  end.

Definition remove_file (file_map : gmap string (list string)) (code filepath : string)
  : gmap string (list string) :=
  match file_map !! code with
  | Some l => if bool_decide (filepath ∈ l) then <[code := list_remove filepath l]> file_map
              else file_map
  | None => file_map
  end.

End FileRepository.

(** ** The world: disk, index, faults, trace *)

(** What the next fallible call does: succeed, or raise [e]; a failing
    [to_csv] may leave [torn] at the path it was writing. *)
Inductive fault :=
| NoFault
| Fault (e : exn) (torn : option DataFrame).

Inductive event :=
| EvExists (p : string)
| EvRead (p : string)
| EvWrite (p : string)
| EvReplace (src dst : string)
| EvRename (src dst : string)
| EvRemove (p : string)
| EvSleep
| EvFetch (code from_date to_date : string).

Record world := mkworld {
  files : gmap string DataFrame;
  dirs : gset string;
  file_map : gmap string (list string);
  faults : list fault;
  trace : list event
}.

Definition set_files (f : gmap string DataFrame → gmap string DataFrame) (w : world) : world :=
  mkworld (f (files w)) (dirs w) (file_map w) (faults w) (trace w).

Definition set_file_map (f : gmap string (list string) → gmap string (list string)) (w : world)
  : world :=
  mkworld (files w) (dirs w) (f (file_map w)) (faults w) (trace w).

(** Computations: a result and the world after it. *)
Definition M (A : Type) : Type := world → result A * world.

Definition ret {A} (a : A) : M A := λ w, (Ok a, w).
Definition raise {A} (e : exn) : M A := λ w, (Raise e, w).
Definition lift {A} (r : result A) : M A := λ w, (r, w).

Definition bind {A B} (m : M A) (k : A → M B) : M B :=
  λ w, match m w with
       | (Ok a, w') => k a w'
       | (Raise e, w') => (Raise e, w')
       end.

(** [try: m except Exception as e: h e] *)
Definition try_except {A} (m : M A) (h : exn → M A) : M A :=
  λ w, match m w with
       | (Ok a, w') => (Ok a, w')
       | (Raise e, w') => h e w'
       end.

(** [try: m except OSError: h]; other exceptions pass. *)
Definition try_except_OSError {A} (m : M A) (h : M A) : M A :=
  try_except m (λ e, match e with OSError => h | _ => raise e end).

Notation "'let*' x := m 'in' k" := (bind m (λ x, k))
  (at level 10, x name, m at level 100, k at level 200).
Notation "m ;; k" := (bind m (λ _, k))
  (at level 100, k at level 200, right associativity).

Definition emit (ev : event) : M unit :=
  λ w, (Ok tt, mkworld (files w) (dirs w) (file_map w) (faults w) (trace w ++ [ev])).

Definition next_fault : M fault :=
  λ w, match faults w with
       | [] => (Ok NoFault, w)
       | f :: fs => (Ok f, mkworld (files w) (dirs w) (file_map w) fs (trace w))
       end.

Definition modify_files (f : gmap string DataFrame → gmap string DataFrame) : M unit :=
  λ w, (Ok tt, set_files f w).

(** [os.path.exists(p)] *)
Definition path_exists (p : string) : M bool :=
  emit (EvExists p);;
  λ w, (Ok (match files w !! p with
            | Some _ => true
            | None => bool_decide (p ∈ dirs w)
            end), w).

(** [df.to_csv(p, ...)] *)
Definition to_csv (df : DataFrame) (p : string) : M unit :=
  emit (EvWrite p);;
  let* f := next_fault in
  match f with
  | NoFault => modify_files <[p := df]>
  | Fault e torn =>
      match torn with
      | Some junk => modify_files <[p := junk]>
      | None => ret tt
      end;;
      raise e
  end.

(** [pd.read_csv(p, dtype={"Date": str})] *)
Definition read_csv (p : string) : M DataFrame :=
  emit (EvRead p);;
  let* f := next_fault in
  match f with
  | Fault e _ => raise e
  | NoFault => λ w, match files w !! p with
                    | Some df => (Ok df, w)
                    | None => (Raise OSError, w)
                    end
  end.

Definition move_file (src dst : string) : M unit :=
  let* f := next_fault in
  match f with
  | Fault _ _ => raise OSError
  | NoFault => λ w, match files w !! src with
                    | Some df => (Ok tt, set_files (λ fs, <[dst := df]> (delete src fs)) w)
                    | None => (Raise OSError, w)
                    end
  end.

(** [os.replace(src, dst)]: all or nothing. *)
Definition os_replace (src dst : string) : M unit :=
  emit (EvReplace src dst);; move_file src dst.

(** [os.rename(src, dst)] *)
Definition os_rename (src dst : string) : M unit :=
  emit (EvRename src dst);; move_file src dst.

(** [os.remove(p)] *)
Definition os_remove (p : string) : M unit :=
  emit (EvRemove p);;
  let* f := next_fault in
  match f with
  | Fault _ _ => raise OSError
  | NoFault => λ w, match files w !! p with
                    | Some _ => (Ok tt, set_files (delete p) w)
                    | None => (Raise OSError, w)
                    end
  end.

Definition repo_get_latest_file (code : string) : M (option string) :=
  λ w, (FileRepository.get_latest_file (file_map w) code, w).

Definition repo_add_file (code filepath : string) : M unit :=
  λ w, (Ok tt, set_file_map (λ fm, FileRepository.add_file fm code filepath) w).

Definition repo_remove_file (code filepath : string) : M unit :=
  λ w, (Ok tt, set_file_map (λ fm, FileRepository.remove_file fm code filepath) w).

(** ** [atomic_save] *)

Definition atomic_save (df : DataFrame) (filepath : string) : M unit :=
  let temp_path := filepath +:+ ".tmp" in
  try_except
    (to_csv df temp_path;;
     let* e := path_exists filepath in
     if e then os_replace temp_path filepath
     else os_rename temp_path filepath)
    (λ e,
       let* t := path_exists temp_path in
       (if t then try_except_OSError (os_remove temp_path) (ret tt) else ret tt);;
       raise e).

(** ** [update_file_for_code] *)

Inductive outcome :=
| DIR_NOT_FOUND | FILENAME_FORMAT_ERROR | FILE_NOT_FOUND | ALREADY_LATEST
| DATE_CALC_ERROR | UPDATED | NO_NEW_DATA | ERROR.

(** A cell of the table of listed instruments, from which [main] takes the
    code and the sector code of [update_file_for_code]: a string, or no
    value: [NaN], a float, for an empty cell of the file read with
    [dtype=str] (and likewise [None] for a null in the answer of the API).
    Neither is a path for [os.path.join] or equal to a key of the index. *)
Inductive cell := Str (s : string) | NaN.

Coercion Str : string >-> cell.

Section Updater.

(** The collaborators: the upstream client ([jq_api.get_daily_quotes] by
    code, from and to), pandas' [sort_values("Date")], whose order among
    equal dates is not fixed, and pandas' [to_datetime] on one entry. *)
Variable get_daily_quotes : string → string → string → result DataFrame.
Variable sort_values : DataFrame → DataFrame.
Variable to_datetime : string → result date.

Definition fetch (code from_date to_date : string) : M DataFrame :=
  emit (EvFetch code from_date to_date);;
  lift (get_daily_quotes code from_date to_date).

(** [df["Date"] = pd.to_datetime(df["Date"]).dt.strftime("%Y-%m-%d")] *)
Fixpoint normalize_dates (df : DataFrame) : result DataFrame :=
  match df with
  | [] => Ok []
  | r :: t =>
      rbind (to_datetime (Date r)) (λ d,
      rbind (normalize_dates t) (λ t',
      Ok (mkrow (strftime (Some "-"%char) d) (cells r) :: t')))
  end.

(** The merge of both update paths, after any normalisation. *)
Definition merge (df : DataFrame) : DataFrame :=
  sort_values (Pd.drop_duplicates_last df).

(** Lines 243 to 265: the date up to which the archive goes, from the name
    of the latest file or, for a file without date, from its rows. *)
Definition last_updated_date (current_file_path : option string)
  : M (outcome + option string) :=
  match current_file_path with
  | None | Some EmptyString => ret (inr None)
  | Some p =>
      try_except
        (let filename := Py.basename p in
         let parts := Py.split "_" filename in
         if (3 <=? length parts)%nat
         then ret (inr (Some (List.hd EmptyString (Py.split "." (Py.last_part parts)))))
         else
           try_except
             (let* df_temp := read_csv p in
              if negb (Pd.empty df_temp)
              then ret (inr (Some (Py.replace "-" "" (Pd.max_date df_temp))))
              else ret (inr None))
             (λ _, ret (inr None)))
        (λ _, ret (inl FILENAME_FORMAT_ERROR))
  end.

(** Lines 278 to 280. *)
Definition from_date_str (last_updated_date_str : string) : result string :=
  rbind (strptime None last_updated_date_str) (λ last_dt,
  rbind (add_one_day last_dt) (λ from_dt,
  Ok (strftime None from_dt))).

(** [os.remove] of the old file and its removal from the index, a failure
    to delete being logged only. *)
Definition remove_old (code current_file_path : string) : M unit :=
  try_except_OSError
    (os_remove current_file_path;; repo_remove_file code current_file_path)
    (ret tt).

(** The names of the two kinds of partition files. *)
Definition archive_filename (code : string) (fy : Z) : string :=
  code +:+ "_" +:+ pretty fy +:+ "fy.csv".

Definition live_filename (code : string) (fy : Z) (date_plain : string) : string :=
  code +:+ "_" +:+ pretty fy +:+ "fy_" +:+ date_plain +:+ ".csv".

(** Lines 337 to 395. *)
Definition rollover (code sector_dir current_file_path : string)
    (df_old df_new : DataFrame) (latest_data_date_str : string)
    (current_file_fy new_fy : Z) : M unit :=
  let* start := lift (datetime new_fy 4 1) in
  let new_fy_start_date := strftime (Some "-"%char) start in
  let df_curr_fy_new_data := Pd.select (λ d, Py.lt d new_fy_start_date) df_new in
  let df_next_fy_new_data := Pd.select (λ d, Py.ge d new_fy_start_date) df_new in
  let df_old_updated :=
    if negb (Pd.empty df_curr_fy_new_data)
    then merge (Pd.concat df_old df_curr_fy_new_data)
    else df_old in
  let archive_path := Py.join sector_dir (archive_filename code current_file_fy) in
  atomic_save df_old_updated archive_path;;
  (if negb (String.eqb current_file_path archive_path)
   then remove_old code current_file_path
   else ret tt);;
  repo_add_file code archive_path;;
  if negb (Pd.empty df_next_fy_new_data) then
    let* df_next := lift (normalize_dates df_next_fy_new_data) in
    let latest_date_plain := Py.replace "-" "" latest_data_date_str in
    let new_file_path :=
      Py.join sector_dir (live_filename code new_fy latest_date_plain) in
    atomic_save df_next new_file_path;;
    repo_add_file code new_file_path
  else ret tt.

(** Lines 397 to 424. *)
Definition normal_update (code sector_dir current_file_path : string)
    (df_old df_new : DataFrame) (latest_data_date_str : string)
    (current_file_fy : Z) : M unit :=
  let* df_dated := lift (normalize_dates (Pd.concat df_old df_new)) in
  let df_combined := merge df_dated in
  let latest_date_plain := Py.replace "-" "" latest_data_date_str in
  let new_file_path :=
    Py.join sector_dir (live_filename code current_file_fy latest_date_plain) in
  atomic_save df_combined new_file_path;;
  (if negb (String.eqb new_file_path current_file_path)
   then remove_old code current_file_path
   else ret tt);;
  repo_add_file code new_file_path.

(** Lines 288 to 426: the body of the [try]. *)
Definition fetch_and_merge (code sector_dir current_file_path : string)
    (from_date latest_biz_date : string) (test_mode : bool) : M outcome :=
  if test_mode then ret UPDATED else
  emit EvSleep;;
  let* fetched := fetch code from_date latest_biz_date in
  if Pd.empty fetched then ret NO_NEW_DATA else
  let df_new := sort_values fetched in
  let* df_old := read_csv current_file_path in
  let latest_data_date_str := Pd.last_date df_new in
  let* latest_data_date := lift (strptime (Some "-"%char) latest_data_date_str) in
  let new_fy := get_current_fy latest_data_date in
  let current_filename := Py.basename current_file_path in
  let* fy_part :=
    match Py.split "_" current_filename with
    | _ :: x :: _ => ret x
    | _ => raise IndexError
    end in
  let current_fy_str := Py.replace "fy" "" fy_part in
  let current_file_fy := default new_fy (Py.int current_fy_str) in
  (if current_file_fy <? new_fy
   then rollover code sector_dir current_file_path df_old df_new
          latest_data_date_str current_file_fy new_fy
   else normal_update code sector_dir current_file_path df_old df_new
          latest_data_date_str current_file_fy);;
  ret UPDATED.

(** Lines 231 to 272: the sector directory, the latest file of the index
    and the date up to which the archive goes; an outcome when the update
    stops here. *)
Definition locate (code sector_code daily_quotes_dir : string)
  : M (outcome + string * string) :=
  let sector_dir := Py.join daily_quotes_dir sector_code in
  let* present := path_exists sector_dir in
  if negb present then ret (inl DIR_NOT_FOUND) else
  let* current_file_path := repo_get_latest_file code in
  let* located := last_updated_date current_file_path in
  match located, current_file_path with
  | inl o, _ => ret (inl o)
  | inr (Some last_updated_date_str), Some p =>
      if String.eqb last_updated_date_str EmptyString then ret (inl FILE_NOT_FOUND)
      else ret (inr (p, last_updated_date_str))
  | inr _, _ => ret (inl FILE_NOT_FOUND)
  end.

(** Lines 274 to 434. *)
Definition update_from (code sector_code daily_quotes_dir latest_biz_date : string)
    (test_mode : bool) (current_file_path last_updated_date_str : string) : M outcome :=
  let sector_dir := Py.join daily_quotes_dir sector_code in
  if Py.ge last_updated_date_str latest_biz_date then ret ALREADY_LATEST else
  let* from_date := lift (from_date_str last_updated_date_str) in
  if Py.gt from_date latest_biz_date then ret DATE_CALC_ERROR else
  try_except
    (fetch_and_merge code sector_dir current_file_path from_date latest_biz_date test_mode)
    (λ _, ret ERROR).

(** [update_file_for_code] on the cells [code] and [sector_code] of a row.
    Line 232 joins the directory and the sector code: [os.path.join] raises
    [TypeError] on a cell without value, before any [try].  A code without
    value is no key of the index, whose keys are strings: [get_latest_file]
    returns [None] and the update stops at line 272. *)
Definition update_file_for_code (code sector_code : cell)
    (daily_quotes_dir latest_biz_date : string) (test_mode : bool) : M outcome :=
  match sector_code with
  | NaN => raise TypeError
  | Str sector_code =>
      match code with
      | Str code =>
          let* located := locate code sector_code daily_quotes_dir in
          match located with
          | inl o => ret o
          | inr (current_file_path, last_updated_date_str) =>
              update_from code sector_code daily_quotes_dir latest_biz_date test_mode
                current_file_path last_updated_date_str
          end
      | NaN =>
          let* present := path_exists (Py.join daily_quotes_dir sector_code) in
          if negb present then ret DIR_NOT_FOUND else ret FILE_NOT_FOUND
      end
  end.

End Updater.

(** A stable insertion sort by [Date] in Python string order, rows of equal
    date staying in the order they had: one function that [sort_values] may
    be. *)
Fixpoint insert_by_date (r : row) (l : DataFrame) : DataFrame :=
  match l with
  | [] => [r]
  | x :: l' => if Py.le (Date r) (Date x) then r :: l else x :: insert_by_date r l'
  end.

Definition sort_by_date (df : DataFrame) : DataFrame := fold_right insert_by_date [] df.

(** A parser that [to_datetime] may be: ISO dates only. *)
Definition parse_iso (s : string) : result date := strptime (Some "-"%char) s.

(** ** Predicates of the statements *)

(** A valid [YYYYMMDD] date string: the eight digits of a date that the
    [datetime] constructor accepts. *)
Definition is_yyyymmdd (s : string) : Prop :=
  ∃ d, valid d = true ∧ s = yyyymmdd None d.

(** A valid [YYYYMMDD] date string of the year [y] or later. *)
Definition is_yyyymmdd_from (y : Z) (s : string) : Prop :=
  ∃ d, valid d = true ∧ y <= year d ∧ s = yyyymmdd None d.

(** The claim on the start of the fetch window, as the specification words
    it: for valid date strings, the last-updated one before the target, the
    day after the last-updated date is not after the target. *)
Definition window_start_in_range (last target : string) : Prop :=
  is_yyyymmdd last → is_yyyymmdd target → Py.lt last target = true →
  ∃ f, from_date_str last = Ok f ∧ Py.le f target = true.

(** Network and file traffic, as opposed to the [os.path.exists] queries
    and the pause. *)
Definition is_fetch (ev : event) : bool :=
  match ev with EvFetch _ _ _ => true | _ => false end.

Definition is_file_read (ev : event) : bool :=
  match ev with EvRead _ => true | _ => false end.

Definition is_file_write (ev : event) : bool :=
  match ev with
  | EvWrite _ | EvReplace _ _ | EvRename _ _ | EvRemove _ => true
  | _ => false
  end.

(** Eight times SUPERSCRIPT TWO (U+00B2): digits for [isdigit], no number
    for [int]. *)
Definition superscript_twos : string :=
  string_of_list_ascii (repeat (ascii_of_nat 178) 8).

(** The entry of largest key, the earliest one among equals. *)
Fixpoint first_max (l : list (Z * string)) : option (Z * string) :=
  match l with
  | [] => None
  | x :: l' =>
      match first_max l' with
      | Some y => if fst x <? fst y then Some y else Some x
      | None => Some x
      end
  end.

(** The claim on a failing [atomic_save], as the specification words it:
    the temporary file is gone and the file at the target path is as it
    was. *)
Definition atomic_save_cleans_up (df : DataFrame) (filepath : string) (w : world) : Prop :=
  ∀ e w', atomic_save df filepath w = (Raise e, w') →
          files w' !! (filepath +:+ ".tmp") = None ∧
          files w' !! filepath = files w !! filepath.

(** The body of the [try] of [atomic_save]: the write of the temporary file
    and its move to the target path. *)
Definition write_and_move (df : DataFrame) (filepath : string) : M unit :=
  to_csv df (filepath +:+ ".tmp");;
  let* e := path_exists filepath in
  if e then os_replace (filepath +:+ ".tmp") filepath
  else os_rename (filepath +:+ ".tmp") filepath.

(** The error of the first failing call of a save under a fault script: the
    write raises what its entry says, the move raises [OSError]. *)
Definition first_save_error (script : list fault) : option exn :=
  match script with
  | Fault e _ :: _ => Some e
  | NoFault :: Fault _ _ :: _ => Some OSError
  | _ => None
  end.

(** The next fallible call fails. *)
Definition next_call_fails (script : list fault) : bool :=
  match script with
  | Fault _ _ :: _ => true
  | _ => false
  end.

(** No new upstream data: every request is answered with an empty table. *)
Definition no_new_data (api : string → string → string → result DataFrame) : Prop :=
  ∀ code from_date to_date, api code from_date to_date = Ok [].

(** The claim on two runs in succession, as the specification words it:
    after a first run, a second run with no new upstream data returns
    [ALREADY_LATEST] and leaves the files as the first run left them. *)
Definition second_run_already_latest
    (api1 api2 : string → string → string → result DataFrame)
    (sort_values : DataFrame → DataFrame) (to_datetime : string → result date)
    (code sector_code daily_quotes_dir latest_biz_date : string) (w : world) : Prop :=
  no_new_data api2 →
  ∀ r1 w1,
    update_file_for_code api1 sort_values to_datetime
      code sector_code daily_quotes_dir latest_biz_date false w = (r1, w1) →
    ∃ w2,
      update_file_for_code api2 sort_values to_datetime
        code sector_code daily_quotes_dir latest_biz_date false w1 = (Ok ALREADY_LATEST, w2) ∧
      files w2 = files w1.

(** Neither a fetch nor a change of the disk. *)
Definition quiet (ev : event) : bool := negb (is_fetch ev || is_file_write ev).

(** The world after a computation that consumed [k] entries of the fault
    script and added [evs] to the trace. *)
Definition advance (k : nat) (evs : list event) (w : world) : world :=
  mkworld (files w) (dirs w) (file_map w) (drop k (faults w)) (trace w ++ evs).

Definition with_trace (t : list event) (w : world) : world :=
  mkworld (files w) (dirs w) (file_map w) (faults w) t.

(** A computation that leaves disk and index alone, produces quiet events
    only, and does not look at the trace. *)
Definition readonly {A} (m : M A) : Prop :=
  ∀ w, ∃ r evs k,
    m w = (r, advance k evs w) ∧ forallb quiet evs = true ∧
    ∀ t, m (with_trace t w) = (r, advance k evs (with_trace t w)).

(** The claim on the dry run, as the specification words it: [UPDATED]
    without a fetch, a file read or a file write. *)
Definition dry_run_without_io
    (get_daily_quotes : string → string → string → result DataFrame)
    (sort_values : DataFrame → DataFrame) (to_datetime : string → result date)
    (code sector_code daily_quotes_dir latest_biz_date : string) (w : world) : Prop :=
  ∀ p last w1,
    locate code sector_code daily_quotes_dir w = (Ok (inr (p, last)), w1) →
    Py.lt last latest_biz_date = true →
    ∃ w' evs,
      update_file_for_code get_daily_quotes sort_values to_datetime
        code sector_code daily_quotes_dir latest_biz_date true w = (Ok UPDATED, w') ∧
      trace w' = trace w ++ evs ∧
      forallb (λ ev, negb (is_fetch ev || is_file_read ev || is_file_write ev)) evs = true.

(** Row order of a table sorted by [Date]. *)
Definition date_order (r1 r2 : row) : Prop := Py.le (Date r1) (Date r2) = true.

(** What is assumed of [sort_values("Date")]: the same rows, in ascending
    order of the date strings. *)
Definition sorts_by_date (sort_values : DataFrame → DataFrame) : Prop :=
  ∀ df, Permutation (sort_values df) df ∧ StronglySorted date_order (sort_values df).

(** [out] is [old] merged with [new]: one row per date, in ascending order
    of the dates, with every date of either table and rows of either only,
    the row being one of [new] on every date that [new] has. *)
Definition merged (old new out : DataFrame) : Prop :=
  NoDup (Date <$> out) ∧ StronglySorted date_order out ∧
  (∀ d, d ∈ Date <$> out ↔ d ∈ Date <$> old ++ new) ∧
  (∀ r, r ∈ out → r ∈ old ++ new) ∧
  (∀ r, r ∈ out → Date r ∈ Date <$> new → r ∈ new).

(** The [Date] of the row is [YYYY-MM-DD] for a valid date that satisfies
    [P]. *)
Definition dated (P : date → Prop) (r : row) : Prop :=
  ∃ d, valid d = true ∧ Date r = yyyymmdd (Some "-"%char) d ∧ P d.


(** [c in s] for a character. *)
Fixpoint has_char (c : ascii) (s : string) : bool :=
  match s with
  | EmptyString => false
  | String a r => Ascii.eqb a c || has_char c r
  end.

(** Every indexed path ends in [.csv]. *)
Definition all_csv (fm : gmap string (list string)) : Prop :=
  ∀ code l p, fm !! code = Some l → p ∈ l → Py.endswith ".csv" p = true.

(** Every character of [s] satisfies [P]. *)
Fixpoint all_chars (P : ascii → bool) (s : string) : bool :=
  match s with
  | EmptyString => true
  | String c r => P c && all_chars P r
  end.

(** A string of ASCII characters (code points below 128). *)
Definition ascii_only (s : string) : bool := all_chars (λ c, Py.ord c <? 128) s.

(** The rows of a table and of its form with normalised dates, one to one:
    same cells, the date parsed and written again as [%Y-%m-%d]. *)
Definition normalised (to_datetime : string → result date) (df df' : DataFrame) : Prop :=
  Forall2 (λ r r', cells r' = cells r ∧
                   ∃ d, to_datetime (Date r) = Ok d ∧
                        Date r' = strftime (Some "-"%char) d) df df'.

(** The number of failing entries of a fault script. *)
Definition count_faults (l : list fault) : nat :=
  length (List.filter (λ f, match f with NoFault => false | Fault _ _ => true end) l).


(** ** Ordinals, weekdays and going back in time *)

Module Calendar.

(** [_days_before_year(year)]: the days before January 1 of [year]. *)
Definition days_before_year (y : Z) : Z :=
  let y' := y - 1 in y' * 365 + y' / 4 - y' / 100 + y' / 400.

(** [_DAYS_BEFORE_MONTH[month]] *)
Definition DAYS_BEFORE_MONTH (m : Z) : Z :=
  List.nth (Z.to_nat m) [-1; 0; 31; 59; 90; 120; 151; 181; 212; 243; 273; 304; 334] (-1).

(** [_days_before_month(year, month)] *)
Definition days_before_month (y m : Z) : Z :=
  DAYS_BEFORE_MONTH m + (if (2 <? m) && is_leap y then 1 else 0).

(** [d.toordinal()]: January 1 of year 1 is day 1. *)
Definition toordinal (d : date) : Z :=
  days_before_year (year d) + days_before_month (year d) (month d) + day d.

(** [d.weekday()]: Monday is 0, Sunday is 6. *)
Definition weekday (d : date) : Z := (toordinal d + 6) mod 7.

(** [d - timedelta(days=1)]: the previous calendar day; [OverflowError]
    before 0001-01-01. *)
Definition sub_one_day (d : date) : result date :=
  if 1 <? day d then Ok (mkdate (year d) (month d) (day d - 1))
  else if 1 <? month d
       then Ok (mkdate (year d) (month d - 1) (days_in_month (year d) (month d - 1)))
       else if 1 <? year d then Ok (mkdate (year d - 1) 12 31)
            else Raise OverflowError.

(** [d - timedelta(days=n)] *)
Fixpoint sub_days (n : nat) (d : date) : result date :=
  match n with
  | O => Ok d
  | S n' => rbind (sub_one_day d) (sub_days n')
  end.

(** [now.time() < datetime.time(18, 30)] *)
Definition before_1830 (hour minute : Z) : bool :=
  (hour <? 18) || ((hour =? 18) && (minute <? 30)).

End Calendar.

(** ** [get_latest_business_day] *)

(** A row of the trading calendar: its [Date] and, as a string, its
    [HolidayDivision]. *)
Record cal_row := mkcal { cal_Date : string; HolidayDivision : string }.

(** The calendar table as [jq_api.get_trading_calendar] returns it, with or
    without the column [HolidayDivision]. *)
Record calendar := mkcalendar { has_HolidayDivision : bool; cal_rows : list cal_row }.

Section BusinessDay.

(** The collaborators: the upstream client ([jq_api.get_trading_calendar] by
    from and to) and pandas' [sort_values("Date", ascending=False)]. *)
Variable get_trading_calendar : string → string → result calendar.
Variable sort_values_desc : list cal_row → list cal_row.

(** Lines 64 to 72: the rows of business days. *)
Definition business_days (df_calendar : calendar) : list cal_row :=
  if has_HolidayDivision df_calendar
  then List.filter (λ r, String.eqb (HolidayDivision r) "1") (cal_rows df_calendar)
  else cal_rows df_calendar.

(** Lines 57 to 82: the body of the [try]. *)
Definition latest_in_calendar (from_date to_date : string) : result string :=
  rbind (get_trading_calendar from_date to_date) (λ df_calendar,
  match cal_rows df_calendar with
  | [] => Raise ValueError
  | _ :: _ =>
      match business_days df_calendar with
      | [] => Raise ValueError
      | df_business_days =>
          match sort_values_desc df_business_days with
          | r :: _ => Ok (Py.replace "-" "" (cal_Date r))
          | [] => Raise IndexError
          end
      end
  end).

(** Lines 88 to 90: [while d.weekday() >= 5: d -= timedelta(days=1)], with
    [fuel] iterations at most; [None] when they do not suffice. *)
Fixpoint back_to_weekday (fuel : nat) (d : date) : option (result date) :=
  if 5 <=? Calendar.weekday d then
    match fuel with
    | O => None
    | S fuel' =>
        match Calendar.sub_one_day d with
        | Ok d' => back_to_weekday fuel' d'
        | Raise e => Some (Raise e)
        end
    end
  else Some (Ok d).

(** [get_latest_business_day] at the time [now] of the clock in Tokyo: the
    date and the hour and minute. *)
Definition get_latest_business_day (fuel : nat) (now : date) (hour minute : Z)
  : option (result string) :=
  let target :=
    if Calendar.before_1830 hour minute then Calendar.sub_one_day now else Ok now in
  match target with
  | Raise e => Some (Raise e)
  | Ok target_date =>
      let to_date := strftime None target_date in
      match Calendar.sub_days 14 now with
      | Raise e => Some (Raise e)
      | Ok from_dt =>
          let from_date := strftime None from_dt in
          match latest_in_calendar from_date to_date with
          | Ok s => Some (Ok s)
          | Raise _ =>
              match back_to_weekday fuel now with
              | Some (Ok d) => Some (Ok (strftime None d))
              | Some (Raise e) => Some (Raise e)
              | None => None
              end
          end
      end
  end.

End BusinessDay.

(** ** [update_topix_data] *)

(** The ancestors of a path and the path itself: what [os.makedirs]
    creates. *)
Fixpoint path_prefixes (pre p : string) : list string :=
  match p with
  | EmptyString => if String.eqb pre EmptyString then [] else [pre]
  | String c r =>
      (if Ascii.eqb c "/" && negb (String.eqb pre EmptyString) then [pre] else [])
      ++ path_prefixes (pre +:+ String c EmptyString) r
  end.

(** [os.makedirs(p, exist_ok=True)] *)
Definition makedirs (p : string) : M unit :=
  let* f := next_fault in
  match f with
  | Fault _ _ => raise OSError
  | NoFault =>
      λ w, (Ok tt, mkworld (files w) (list_to_set (path_prefixes EmptyString p) ∪ dirs w)
                           (file_map w) (faults w) (trace w))
  end.

(** [config.get_indices_dir()] and [config.get_topix_file_path()], as
    strings, under the project root. *)
Definition get_indices_dir (PROJECT_ROOT : string) : string :=
  Py.join (Py.join PROJECT_ROOT "jqdb") "indices".

Definition get_topix_file_path (PROJECT_ROOT : string) : string :=
  Py.join (get_indices_dir PROJECT_ROOT) "topix_daily.csv".

Section Topix.

(** The collaborators: the upstream client ([jq_api.get_topix] by from,
    which may be [None], and to), [sort_values("Date")] and [to_datetime].
    The trace has no event for the request of the index. *)
Variable get_topix : option string → string → result DataFrame.
Variable sort_values : DataFrame → DataFrame.
Variable to_datetime : string → result date.
Variable PROJECT_ROOT : string.

(** Lines 451 to 462: the existing table and its last date. *)
Definition topix_existing (topix_file_path_str : string) : M (option string * DataFrame) :=
  let* present := path_exists topix_file_path_str in
  if present then
    try_except
      (let* df_old := read_csv topix_file_path_str in
       if negb (Pd.empty df_old) then
         let last_date_str := Pd.max_date df_old in
         ret (Some (if has_char "-" last_date_str
                    then Py.replace "-" "" last_date_str else last_date_str), df_old)
       else ret (None, df_old))
      (λ _, ret (None, ([] : DataFrame)))
  else ret (None, ([] : DataFrame)).

(** Lines 491 to 507: the table to save. *)
Definition topix_combined (df_old df_new : DataFrame) : result DataFrame :=
  rbind (normalize_dates to_datetime df_new) (λ df_new',
  if negb (Pd.empty df_old)
  then Ok (sort_values (Pd.drop_duplicates_last (Pd.concat df_old df_new')))
  else Ok (sort_values df_new')).

(** Lines 464 to 510: what is done once the existing table and its last
    date are known. *)
Definition topix_fetch_and_save (topix_file_path_str : string)
    (last_date_str : option string) (df_old : DataFrame)
    (latest_biz_date : string) (test_mode : bool) : M unit :=
  let up_to_date :=
    match last_date_str with
    | Some s => negb (String.eqb s EmptyString) && Py.ge s latest_biz_date
    | None => false
    end in
  if up_to_date then ret tt else
  let* from_date_str :=
    match last_date_str with
    | None | Some EmptyString => ret None
    | Some s => let* f := lift (from_date_str s) in ret (Some f)
    end in
  if test_mode then ret tt else
  let* df_new := lift (get_topix from_date_str latest_biz_date) in
  if Pd.empty df_new then ret tt else
  let* df_combined := lift (topix_combined df_old df_new) in
  atomic_save df_combined topix_file_path_str.

(** Lines 441 to 510: the body of the [try]. *)
Definition update_topix_body (latest_biz_date : string) (test_mode : bool) : M unit :=
  let indices_dir := get_indices_dir PROJECT_ROOT in
  let* present := path_exists indices_dir in
  (if negb present then makedirs indices_dir else ret tt);;
  let topix_file_path_str := get_topix_file_path PROJECT_ROOT in
  let* existing := topix_existing topix_file_path_str in
  topix_fetch_and_save topix_file_path_str (fst existing) (snd existing)
    latest_biz_date test_mode.

Definition update_topix_data (latest_biz_date : string) (test_mode : bool) : M unit :=
  try_except (update_topix_body latest_biz_date test_mode) (λ _, ret tt).

End Topix.

(** ** The loop of [main] over the listed instruments *)

(** A row of the table of listed instruments, read with [dtype=str]: the
    cells [Code] and [Sector33Code], which may be without value, and
    [row.get("MarketCodeName", "")], [None] for a cell without value. *)
Record listed_row := mklisted {
  Code : cell;
  Sector33Code : cell;
  MarketCodeName : option string
}.

(** The counters of [main]. *)
Record counters := mkcounters {
  count_updated : Z;
  count_skipped : Z;
  count_error : Z
}.

(** The three markets, in UTF-8; only equality of names is used. *)
Definition target_markets : list string := ["プライム"; "スタンダード"; "グロース"].

Definition in_target_markets (market_name : option string) : bool :=
  match market_name with
  | Some s => existsb (String.eqb s) target_markets
  | None => false
  end.

(** Lines 638 to 643. *)
Definition count (result : outcome) (c : counters) : counters :=
  match result with
  | UPDATED => mkcounters (count_updated c + 1) (count_skipped c) (count_error c)
  | ERROR => mkcounters (count_updated c) (count_skipped c) (count_error c + 1)
  | _ => mkcounters (count_updated c) (count_skipped c + 1) (count_error c)
  end.

Section Main.

Variable get_daily_quotes : string → string → string → result DataFrame.
Variable sort_values : DataFrame → DataFrame.
Variable to_datetime : string → result date.

(** Lines 611 to 646: [for i, row in df_listed.iterrows()], the index [i]
    being the position of the row, from the row at position [i] on. *)
Fixpoint main_loop (daily_quotes_dir latest_biz_date : string) (test : bool)
    (i : Z) (rows : list listed_row) (c : counters) : M counters :=
  match rows with
  | [] => ret c
  | row :: rest =>
      if negb (in_target_markets (MarketCodeName row))
      then main_loop daily_quotes_dir latest_biz_date test (i + 1) rest
             (mkcounters (count_updated c) (count_skipped c + 1) (count_error c))
      else if test && (10 <=? i) then ret c
      else
        let* result :=
          update_file_for_code get_daily_quotes sort_values to_datetime
            (Code row) (Sector33Code row) daily_quotes_dir latest_biz_date test in
        main_loop daily_quotes_dir latest_biz_date test (i + 1) rest (count result c)
  end.

End Main.

(** ** Predicates of the further statements *)

(** The index lists [p] under [code]. *)
Definition indexed (fm : gmap string (list string)) (code p : string) : Prop :=
  ∃ l, fm !! code = Some l ∧ p ∈ l.

(** The scan of the file [filename] in the directory [root] lists [p] under
    [code]: the name ends in [.csv] and has an underscore, the code is what
    precedes the first one, the path is the joined one. *)
Definition scans (root filename code p : string) : Prop :=
  Py.endswith ".csv" filename = true ∧ has_char "_" filename = true ∧
  code = List.hd "" (Py.split "_" filename) ∧ p = Py.join root filename.

(** No code of the index has an empty list. *)
Definition no_empty_list (fm : gmap string (list string)) : Prop :=
  ∀ code, fm !! code ≠ Some [].

(** No list of the index has a path twice. *)
Definition index_nodup (fm : gmap string (list string)) : Prop :=
  ∀ code l, fm !! code = Some l → NoDup l.

(** The paths listed under [code], none when the code is absent. *)
Definition listed (fm : gmap string (list string)) (code : string) : list string :=
  default [] (fm !! code).

(** The calls that [atomic_save] of [filepath] makes after the write of the
    temporary file. *)
Definition save_event (filepath : string) (ev : event) : Prop :=
  let tmp := filepath +:+ ".tmp" in
  ev = EvExists filepath ∨ ev = EvExists tmp ∨ ev = EvReplace tmp filepath ∨
  ev = EvRename tmp filepath ∨ ev = EvRemove tmp.

(** There is something at the path: [os.path.exists]. *)
Definition exists_at (p : string) (w : world) : Prop :=
  is_Some (files w !! p) ∨ p ∈ dirs w.

(** Every event that the computation adds to the trace satisfies [P]. *)
Definition emits (P : event → Prop) {A} (m : M A) : Prop :=
  ∀ w r w', m w = (r, w') → ∃ evs, trace w' = trace w ++ evs ∧ Forall P evs.

(** Disk and index are the same in both worlds. *)
Definition same_store (w w' : world) : Prop :=
  files w' = files w ∧ dirs w' = dirs w ∧ file_map w' = file_map w.

(** No write, move or removal of a file. *)
Definition no_write (ev : event) : Prop := is_file_write ev = false.

(** Not a request to the upstream API. *)
Definition no_fetch (ev : event) : Prop := is_fetch ev = false.

(** The date of the row is a date of the table, as it is or parsed and
    written again as [%Y-%m-%d]. *)
Definition date_kept (to_datetime : string → result date) (saved : DataFrame) (r : row)
  : Prop :=
  Date r ∈ Date <$> saved ∨
  ∃ d, to_datetime (Date r) = Ok d ∧ strftime (Some "-"%char) d ∈ Date <$> saved.

Import Calendar.

(** Row order of a calendar sorted by [Date], descending. *)
Definition cal_order_desc (r1 r2 : cal_row) : Prop :=
  Py.ge (cal_Date r1) (cal_Date r2) = true.

(** What is assumed of [sort_values("Date", ascending=False)]: the same
    rows, in descending order of the date strings. *)
Definition sorts_desc (sort_values_desc : list cal_row → list cal_row) : Prop :=
  ∀ l, Permutation (sort_values_desc l) l ∧
       StronglySorted cal_order_desc (sort_values_desc l).

(** A stable insertion sort by [Date], descending, rows of equal date
    staying in the order they had: one function that the sort may be. *)
Fixpoint insert_cal_desc (r : cal_row) (l : list cal_row) : list cal_row :=
  match l with
  | [] => [r]
  | x :: l' => if Py.le (cal_Date x) (cal_Date r) then r :: l else x :: insert_cal_desc r l'
  end.

Definition sort_cal_desc (l : list cal_row) : list cal_row := fold_right insert_cal_desc [] l.

(** The end of the window of the calendar request: today from 18:30 on,
    the day before until then. *)
Definition target_date (now : date) (hour minute : Z) : result date :=
  if before_1830 hour minute then sub_one_day now else Ok now.

(** The calendar request fails or shows no business day. *)
Definition no_business_day (get_trading_calendar : string → string → result calendar)
    (from_date to_date : string) : Prop :=
  (∃ e, get_trading_calendar from_date to_date = Raise e) ∨
  ∃ cal, get_trading_calendar from_date to_date = Ok cal ∧
         business_days cal = [].

(** Every run of the computation relates the world before to the world
    after by [R]. *)
Definition preserves (R : world → world → Prop) {A} (m : M A) : Prop :=
  ∀ w r w', m w = (r, w') → R w w'.

(** Files and index are the same; directories may have been made. *)
Definition same_files (w w' : world) : Prop :=
  files w' = files w ∧ file_map w' = file_map w.

(** The index is the same, and so is every file but the one at [p] and its
    temporary file. *)
Definition same_but (p : string) (w w' : world) : Prop :=
  file_map w' = file_map w ∧
  ∀ q, q ≠ p → q ≠ p +:+ ".tmp" → files w' !! q = files w !! q.

(** There is no table to continue at [p]: nothing is there or the table is
    empty, or the one read fails, the directory [dir] being there. *)
Definition no_table (dir p : string) (w : world) : Prop :=
  (faults w = [] ∧ (files w !! p = None ∨ files w !! p = Some [])) ∨
  (exists_at dir w ∧ exists_at p w ∧ ∃ e torn, faults w = [Fault e torn]).

(** Lines 457 to 460: the last date of the table of the index that is
    there, dashes removed; none for an empty table. *)
Definition topix_last_date (df_old : DataFrame) : option string :=
  if Pd.empty df_old then None
  else Some (if has_char "-" (Pd.max_date df_old)
             then Py.replace "-" "" (Pd.max_date df_old) else Pd.max_date df_old).

(** Lines 468 to 472: [f] is the start of the request, none without a last
    date and the day after the last date otherwise. *)
Definition topix_request_from (last f : option string) : Prop :=
  match last with
  | None | Some EmptyString => f = None
  | Some s => ∃ from_date, from_date_str s = Ok from_date ∧ f = Some from_date
  end.

(** The sum of the three counters. *)
Definition counted (c : counters) : Z := count_updated c + count_skipped c + count_error c.

(** [n] more instruments skipped. *)
Definition skip_more (n : Z) (c : counters) : counters :=
  mkcounters (count_updated c) (count_skipped c + n) (count_error c).

(** The counters only go up. *)
Definition counters_le (c c' : counters) : Prop :=
  count_updated c <= count_updated c' ∧ count_skipped c <= count_skipped c' ∧
  count_error c <= count_error c'.

(** The date field of a path: what precedes the first dot in the last part,
    between underscores, of the file name. *)
Definition date_field (filepath : string) : string :=
  List.hd "" (Py.split "." (Py.last_part (Py.split "_" (Py.basename filepath)))).

(** The priority of a path by its date: the number that the eight decimal
    digits of its date field write, zero without such a field. *)
Definition date_priority (filepath : string) : Z :=
  let d := date_field filepath in
  if all_chars Py.is_decimal d && (String.length d =? 8)%nat
  then default 0 (Py.digits_val 0 d) else 0.

(** The request fails, whatever is asked. *)
Definition api_down (api : string → string → string → result DataFrame) : Prop :=
  ∀ code from_date to_date, ∃ e, api code from_date to_date = Raise e.

(** The index has a latest file for the code whose name has no date field
    and whose table cannot be read or is empty. *)
Definition archive_unreadable (code : string) (w : world) : Prop :=
  ∃ p, FileRepository.get_latest_file (file_map w) code = Ok (Some p) ∧ p ≠ "" ∧
       (3 <=? length (Py.split "_" (Py.basename p)))%nat = false ∧
       (files w !! p = None ∨ files w !! p = Some [] ∨
        ∃ e torn rest, faults w = Fault e torn :: rest).

(** The paths of an instrument in its sector directory: a name that starts
    with the code and an underscore, and the temporary file of such a
    path. *)
Definition own_path (dir code q : string) : Prop :=
  ∃ name, q = Py.join dir (code +:+ "_" +:+ name) ∨
          q = Py.join dir (code +:+ "_" +:+ name) +:+ ".tmp".

(** Only the index entry of [code], the file [cur] and the instrument's own
    paths may differ between the two worlds. *)
Definition kept_outside (dir code cur : string) (w w' : world) : Prop :=
  (∀ c, c ≠ code → file_map w' !! c = file_map w !! c) ∧ dirs w' = dirs w ∧
  ∀ q, q ≠ cur → ¬ own_path dir code q → files w' !! q = files w !! q.
(** ** Facts about digits, padding and string order *)

Section StringOrder.

Lemma digit_val_digit_char k : 0 <= k <= 9 → Py.digit_val (Py.digit_char k) = Some k.
Proof.
  intros Hk.
  assert (Hc : k = 0 ∨ k = 1 ∨ k = 2 ∨ k = 3 ∨ k = 4 ∨ k = 5 ∨ k = 6 ∨ k = 7 ∨ k = 8 ∨ k = 9) by lia.
  repeat (destruct Hc as [-> | Hc]; [reflexivity |]). subst; reflexivity.
Qed.

Lemma ord_digit_char k : 0 <= k <= 9 → Py.ord (Py.digit_char k) = 48 + k.
Proof.
  intros Hk.
  assert (Hc : k = 0 ∨ k = 1 ∨ k = 2 ∨ k = 3 ∨ k = 4 ∨ k = 5 ∨ k = 6 ∨ k = 7 ∨ k = 8 ∨ k = 9) by lia.
  repeat (destruct Hc as [-> | Hc]; [reflexivity |]). subst; reflexivity.
Qed.

Lemma ascii_compare_digit_char x y :
  0 <= x <= 9 → 0 <= y <= 9 →
  Ascii.compare (Py.digit_char x) (Py.digit_char y) = (x ?= y).
Proof.
  intros Hx Hy. unfold Ascii.compare.
  rewrite <- N2Z.inj_compare.
  change ((Py.ord (Py.digit_char x) ?= Py.ord (Py.digit_char y)) = (x ?= y)).
  rewrite !ord_digit_char by done.
  apply Z.add_compare_mono_l.
Qed.

Lemma append_String c s r : String c s +:+ r = String c (s +:+ r).
Proof. reflexivity. Qed.

Lemma append_empty_l r : "" +:+ r = r.
Proof. reflexivity. Qed.

Lemma append_empty_r s : s +:+ "" = s.
Proof. induction s as [|c s IH]; [done|]. by rewrite append_String, IH. Qed.

Lemma append_assoc s t u : (s +:+ t) +:+ u = s +:+ t +:+ u.
Proof. induction s as [|c s IH]; [done|]. by rewrite !append_String, IH. Qed.

Lemma ascii_compare_refl c : Ascii.compare c c = Eq.
Proof. unfold Ascii.compare. apply N.compare_refl. Qed.

(** Strings of equal width written by [zpad] compare as the numbers they
    show; a common tail decides only between equal numbers. *)
Lemma compare_zpad w a b r1 r2 :
  0 <= a → 0 <= b →
  String.compare (Py.zpad w a +:+ r1) (Py.zpad w b +:+ r2) =
  match a mod 10 ^ Z.of_nat w ?= b mod 10 ^ Z.of_nat w with
  | Eq => String.compare r1 r2
  | c => c
  end.
Proof.
  intros Ha Hb. induction w as [|w IH].
  - simpl. by rewrite !Z.mod_1_r.
  - cbn [Py.zpad]. rewrite !append_String. cbn [String.compare].
    rewrite ascii_compare_digit_char
      by (match goal with |- _ <= ?x mod 10 <= _ =>
            pose proof (Z.mod_pos_bound x 10); lia end).
    rewrite IH.
    set (p := 10 ^ Z.of_nat w) in *.
    assert (Hp : 0 < p) by (apply Z.pow_pos_nonneg; lia).
    replace (10 ^ Z.of_nat (S w)) with (10 * p)
      by (unfold p; rewrite Nat2Z.inj_succ, Z.pow_succ_r; lia).
    assert (Ea : a mod (10 * p) = p * ((a / p) mod 10) + a mod p).
    { rewrite (Z.mul_comm 10 p), Z.rem_mul_r by lia. lia. }
    assert (Eb : b mod (10 * p) = p * ((b / p) mod 10) + b mod p).
    { rewrite (Z.mul_comm 10 p), Z.rem_mul_r by lia. lia. }
    rewrite Ea, Eb.
    pose proof (Z.mod_pos_bound a p Hp) as Ba.
    pose proof (Z.mod_pos_bound b p Hp) as Bb.
    clear Ea Eb IH.
    set (x := (a / p) mod 10). set (y := (b / p) mod 10).
    set (ra := a mod p) in *. set (rb := b mod p) in *.
    clearbody x y ra rb.
    destruct (Z.compare_spec x y) as [->|Hlt|Hgt].
    + destruct (Z.compare_spec ra rb) as [E|E|E].
      * by rewrite E, Z.compare_refl.
      * assert (p * y + ra < p * y + rb) as ->%Z.compare_lt_iff by lia. done.
      * assert (p * y + rb < p * y + ra) as ->%Z.compare_gt_iff by lia. done.
    + assert (p * x + ra < p * y + rb) as ->%Z.compare_lt_iff by nia. done.
    + assert (p * y + rb < p * x + ra) as ->%Z.compare_gt_iff by nia. done.
Qed.

End StringOrder.

(** ** Facts about dates *)

Section DateFacts.

Lemma valid_bounds d :
  valid d = true →
  1 <= year d <= 9999 ∧ 1 <= month d <= 12 ∧
  1 <= day d <= days_in_month (year d) (month d).
Proof. unfold valid. rewrite !andb_true_iff, !Z.leb_le. lia. Qed.

Lemma days_in_month_bounds y m : 28 <= days_in_month y m <= 31.
Proof.
  unfold days_in_month.
  repeat match goal with |- context [if ?b then _ else _] => destruct b end; lia.
Qed.

Lemma date_compare_lt a b : date_compare a b = Lt ↔ date_lt a b.
Proof.
  unfold date_compare, date_lt.
  destruct (Z.compare_spec (year a) (year b));
    destruct (Z.compare_spec (month a) (month b));
    destruct (Z.compare_spec (day a) (day b)); split; try done; lia.
Qed.

Lemma date_compare_eq a b : date_compare a b = Eq ↔ a = b.
Proof.
  unfold date_compare. destruct a as [y m d], b as [y' m' d']; simpl.
  destruct (Z.compare_spec y y'); destruct (Z.compare_spec m m');
    destruct (Z.compare_spec d d'); split; try done; try (intros [=]; lia).
  intros _. by subst.
Qed.

(** Writing dates on eight digits turns the chronological order into the
    string order. *)
Lemma compare_yyyymmdd sep a b :
  valid a = true → valid b = true →
  String.compare (yyyymmdd sep a) (yyyymmdd sep b) = date_compare a b.
Proof.
  intros [Ya [Ma Da]]%valid_bounds [Yb [Mb Db]]%valid_bounds.
  pose proof (days_in_month_bounds (year a) (month a)).
  pose proof (days_in_month_bounds (year b) (month b)).
  unfold yyyymmdd, date_compare.
  rewrite compare_zpad by lia.
  change (10 ^ Z.of_nat 4) with 10000.
  rewrite !Z.mod_small by lia.
  destruct (year a ?= year b); try done.
  assert (Hmon : ∀ t1 t2,
    String.compare (Py.zpad 2 (month a) +:+ t1) (Py.zpad 2 (month b) +:+ t2) =
    match month a ?= month b with
    | Eq => String.compare t1 t2
    | c => c
    end).
  { intros t1 t2. rewrite compare_zpad by lia.
    change (10 ^ Z.of_nat 2) with 100. by rewrite !Z.mod_small by lia. }
  assert (Hd : String.compare (Py.zpad 2 (day a)) (Py.zpad 2 (day b)) = (day a ?= day b)).
  { rewrite <- (append_empty_r (Py.zpad 2 (day a))).
    rewrite <- (append_empty_r (Py.zpad 2 (day b))).
    rewrite compare_zpad by lia.
    change (10 ^ Z.of_nat 2) with 100. rewrite !Z.mod_small by lia.
    by destruct (day a ?= day b). }
  destruct sep as [c|]; cbn [sep_string].
  - rewrite !append_String, !append_empty_l. cbn [String.compare].
    rewrite ascii_compare_refl, Hmon.
    destruct (month a ?= month b); try done.
    cbn [String.compare]. by rewrite ascii_compare_refl.
  - rewrite !append_empty_l, Hmon.
    by destruct (month a ?= month b).
Qed.

Lemma lt_yyyymmdd sep a b :
  valid a = true → valid b = true →
  Py.lt (yyyymmdd sep a) (yyyymmdd sep b) = true ↔ date_lt a b.
Proof.
  intros Ha Hb. unfold Py.lt, String.ltb.
  rewrite compare_yyyymmdd, <- date_compare_lt by done.
  destruct (date_compare a b); split; done.
Qed.

Lemma le_yyyymmdd sep a b :
  valid a = true → valid b = true →
  Py.le (yyyymmdd sep a) (yyyymmdd sep b) = true ↔ date_le a b.
Proof.
  intros Ha Hb. unfold Py.le, String.leb, date_le.
  rewrite compare_yyyymmdd, <- date_compare_lt, <- date_compare_eq by done.
  destruct (date_compare a b); split; intros H; try done;
    [by right | by left | by destruct H].
Qed.

(** From the year 1000 on [strftime] writes the eight digits. *)
Lemma pretty_N_char_digit n : (n < 10)%N → pretty_N_char n = Py.digit_char (Z.of_N n).
Proof.
  intros Hn.
  assert (Hc : (n = 0 ∨ n = 1 ∨ n = 2 ∨ n = 3 ∨ n = 4 ∨ n = 5 ∨ n = 6 ∨ n = 7 ∨ n = 8 ∨ n = 9)%N)
    by lia.
  repeat (destruct Hc as [-> | Hc]; [reflexivity |]). subst; reflexivity.
Qed.

Lemma pretty_four_digits y : 1000 <= y <= 9999 → pretty y = Py.zpad 4 y.
Proof.
  intros Hy. destruct y as [|p|p]; try lia.
  change (pretty (Z.pos p)) with (pretty (N.pos p)).
  unfold pretty, pretty_N. destruct (decide (N.pos p = 0%N)) as [|_]; [done|].
  set (n := N.pos p). assert (Hn : (1000 <= n <= 9999)%N) by (unfold n; lia).
  assert (Ez : Z.pos p = Z.of_N n) by done. rewrite Ez. clearbody n. clear Ez Hy p.
  assert (H1 : (0 < n / 10)%N) by (apply N.div_str_pos; lia).
  assert (H2 : (0 < n / 10 / 10)%N)
    by (rewrite N.Div0.div_div; apply N.div_str_pos; lia).
  assert (H3 : (0 < n / 10 / 10 / 10)%N)
    by (rewrite !N.Div0.div_div; apply N.div_str_pos; lia).
  assert (H4 : (n / 10 / 10 / 10 / 10 = 0)%N)
    by (rewrite !N.Div0.div_div; apply N.div_small; lia).
  rewrite (pretty_N_go_step n) by lia.
  rewrite (pretty_N_go_step (n / 10)) by done.
  rewrite (pretty_N_go_step (n / 10 / 10)) by done.
  rewrite (pretty_N_go_step (n / 10 / 10 / 10)) by done.
  rewrite H4, pretty_N_go_0.
  rewrite !pretty_N_char_digit by (apply N.mod_lt; lia).
  cbn [Py.zpad].
  change (10 ^ Z.of_nat 3) with 1000. change (10 ^ Z.of_nat 2) with 100.
  change (10 ^ Z.of_nat 1) with 10. change (10 ^ Z.of_nat 0) with 1.
  rewrite !N2Z.inj_mod, !N2Z.inj_div. change (Z.of_N 10) with 10.
  rewrite !Z.div_div by lia. rewrite Z.div_1_r.
  change (10 * (10 * 10)) with 1000. change (10 * 10) with 100. done.
Qed.

Lemma strftime_yyyymmdd sep d :
  1000 <= year d <= 9999 → strftime sep d = yyyymmdd sep d.
Proof. intros Hy. unfold strftime, yyyymmdd. by rewrite pretty_four_digits. Qed.

Lemma date_le_alt a b :
  date_le a b ↔
  year a < year b ∨ (year a = year b ∧
    (month a < month b ∨ (month a = month b ∧ day a <= day b))).
Proof.
  unfold date_le, date_lt. destruct a as [y m d], b as [y' m' d']; simpl. split.
  - intros [H|[= -> -> ->]]; lia.
  - intros H.
    destruct (Z.eq_dec y y') as [->|]; [|lia].
    destruct (Z.eq_dec m m') as [->|]; [|lia].
    destruct (Z.eq_dec d d') as [->|]; [by right|lia].
Qed.

(** The day after a valid date is valid, and is not later than any date
    that is later than that date. *)
Lemma add_one_day_le a b :
  valid a = true → valid b = true → date_lt a b →
  ∃ c, add_one_day a = Ok c ∧ valid c = true ∧ date_le c b.
Proof.
  intros Ha Hb Hlt.
  pose proof (valid_bounds _ Ha) as [Ya [Ma Da]].
  pose proof (valid_bounds _ Hb) as [Yb [Mb Db]].
  unfold add_one_day, date_lt in *.
  destruct (Z.ltb_spec (day a) (days_in_month (year a) (month a))) as [Hd|Hd].
  { eexists; split; [done|]. split.
    - unfold valid; simpl. rewrite !andb_true_iff, !Z.leb_le. lia.
    - apply date_le_alt; simpl. lia. }
  destruct (Z.ltb_spec (month a) 12) as [Hm|Hm].
  { eexists; split; [done|]. split.
    - unfold valid; simpl. rewrite !andb_true_iff, !Z.leb_le.
      pose proof (days_in_month_bounds (year a) (month a + 1)). lia.
    - apply date_le_alt; simpl.
      destruct Hlt as [|[Ey [|[Em ?]]]]; [lia|lia|].
      rewrite <- Ey, <- Em in Db. lia. }
  destruct (Z.ltb_spec (year a) 9999) as [Hy|Hy].
  { eexists; split; [done|]. split.
    - unfold valid; simpl. rewrite !andb_true_iff, !Z.leb_le.
      pose proof (days_in_month_bounds (year a + 1) 1). lia.
    - apply date_le_alt; simpl.
      destruct Hlt as [|[Ey [|[Em ?]]]]; [lia|lia|].
      rewrite <- Ey, <- Em in Db. lia. }
  exfalso.
  destruct Hlt as [|[Ey [|[Em ?]]]]; [lia|lia|].
  rewrite <- Ey, <- Em in Db. lia.
Qed.

End DateFacts.

(** ** [strptime] reads back the eight digits of a date *)

Section Roundtrip.

Lemma month_day_table sep :
  sep = None ∨ sep = Some "-"%char →
  forallb (λ m, forallb (month_day_ok sep m) (seqZ 1 31)) (seqZ 1 12) = true.
Proof. intros [-> | ->]; vm_compute; reflexivity. Qed.

Lemma first_match_zpad sep m d :
  sep = None ∨ sep = Some "-"%char →
  1 <= m <= 12 → 1 <= d <= 31 →
  first_match sep (Py.zpad 2 m +:+ sep_string sep +:+ Py.zpad 2 d) = Some (m, d, EmptyString).
Proof.
  intros Hsep Hm Hd.
  pose proof (month_day_table sep Hsep) as T.
  rewrite forallb_forall in T.
  specialize (T m). rewrite forallb_forall in T.
  eapply bool_decide_eq_true_1, T; apply list_elem_of_In, elem_of_seqZ; lia.
Qed.

Lemma year_field_zpad y r :
  0 <= y <= 9999 → year_field (Py.zpad 4 y +:+ r) = Some (y, r).
Proof.
  intros Hy. cbn [Py.zpad]. rewrite !append_String, append_empty_l.
  cbn [year_field Py.digits_val].
  change (10 ^ Z.of_nat 3) with 1000. change (10 ^ Z.of_nat 2) with 100.
  change (10 ^ Z.of_nat 1) with 10. change (10 ^ Z.of_nat 0) with 1.
  rewrite !digit_val_digit_char
    by (match goal with |- _ <= ?x mod 10 <= _ =>
          pose proof (Z.mod_pos_bound x 10); lia end).
  do 2 f_equal.
  rewrite Z.div_1_r.
  pose proof (Z.div_mod y 10). pose proof (Z.div_mod (y / 10) 10).
  pose proof (Z.div_mod (y / 100) 10).
  replace (y / 100) with (y / 10 / 10) in * by (rewrite Z.div_div by lia; done).
  replace (y / 1000) with (y / 10 / 10 / 10) in * by (rewrite !Z.div_div by lia; done).
  assert (y / 10 / 10 / 10 < 10) by (repeat apply Z.div_lt_upper_bound; lia).
  assert (0 <= y / 10 / 10 / 10) by (repeat apply Z.div_pos; lia).
  rewrite (Z.mod_small (y / 10 / 10 / 10)) by lia.
  lia.
Qed.

Lemma strptime_yyyymmdd sep d :
  sep = None ∨ sep = Some "-"%char →
  valid d = true → strptime sep (yyyymmdd sep d) = Ok d.
Proof.
  intros Hsep Hv.
  pose proof (valid_bounds _ Hv) as [Hy [Hm Hd]].
  pose proof (days_in_month_bounds (year d) (month d)).
  unfold strptime, yyyymmdd.
  rewrite year_field_zpad by lia.
  assert (literal sep (sep_string sep +:+ Py.zpad 2 (month d) +:+ sep_string sep +:+ Py.zpad 2 (day d))
          = Some (Py.zpad 2 (month d) +:+ sep_string sep +:+ Py.zpad 2 (day d))) as ->.
  { destruct sep; [|done]. simpl sep_string. rewrite append_String, append_empty_l.
    cbn [literal]. by rewrite Ascii.eqb_refl. }
  rewrite first_match_zpad by (done || lia).
  unfold datetime. destruct d as [y m dd]; simpl in *. by rewrite Hv.
Qed.

End Roundtrip.

Example strptime_plain : strptime None "20250320" = Ok (mkdate 2025 3 20).
Proof. reflexivity. Qed.

Example strptime_short : strptime None "202512" = Ok (mkdate 2025 1 2).
Proof. reflexivity. Qed.

Example strptime_feb30 : strptime None "20250230" = Raise ValueError.
Proof. reflexivity. Qed.

Example strptime_iso : strptime (Some "-"%char) "2025-04-03" = Ok (mkdate 2025 4 3).
Proof. reflexivity. Qed.

Example strftime_iso : strftime (Some "-"%char) (mkdate 2025 4 1) = "2025-04-01".
Proof. vm_compute. reflexivity. Qed.

(** Below the year 1000 the year is written without leading zeros, and
    [strptime] does not read it back. *)
Example strftime_year_300 :
  strftime None (mkdate 300 1 2) = "3000102" ∧
  strptime None "3000102" = Ok (mkdate 3000 10 2) ∧
  strptime None "03000102" = Ok (mkdate 300 1 2).
Proof. repeat split; vm_compute; reflexivity. Qed.

Example split_live : Py.split "_" "72030_2024fy_20250320.csv" = ["72030"; "2024fy"; "20250320.csv"].
Proof. reflexivity. Qed.

Example replace_fy : Py.replace "fy" "" "2024fy" = "2024".
Proof. reflexivity. Qed.

Example endswith_csv : Py.endswith ".csv" "a_b.csv" = true ∧ Py.endswith ".csv" "a_b.csv.tmp" = false.
Proof. split; reflexivity. Qed.


(** ** The fiscal year *)

(** C8: the fiscal year of a date is its calendar year from April on and
    the year before from January to March; the dates of fiscal year [y] are
    those from April 1 of [y] to March 31 of [y + 1]. *)
Theorem get_current_fy_april_to_march (d : date) :
  valid d = true →
  (4 <= month d <= 12 → get_current_fy d = year d) ∧
  (1 <= month d <= 3 → get_current_fy d = year d - 1) ∧
  (∀ y, get_current_fy d = y ↔
        date_le (mkdate y 4 1) d ∧ date_le d (mkdate (y + 1) 3 31)).
Proof.
  intros Hv. pose proof (valid_bounds _ Hv) as (Hy & Hm & Hd).
  pose proof (days_in_month_bounds (year d) (month d)).
  unfold get_current_fy.
  split; [|split].
  - intros ?. destruct (Z.leb_spec 4 (month d)); lia.
  - intros ?. destruct (Z.leb_spec 4 (month d)); lia.
  - intros y. rewrite !date_le_alt; simpl.
    destruct (Z.leb_spec 4 (month d)); lia.
Qed.

Lemma get_current_fy_april_to_march_witness :
  valid (mkdate 2025 3 31) = true ∧ get_current_fy (mkdate 2025 3 31) = 2024 ∧
  valid (mkdate 2025 4 1) = true ∧ get_current_fy (mkdate 2025 4 1) = 2025.
Proof.
  split; [reflexivity|]. split.
  - destruct (get_current_fy_april_to_march (mkdate 2025 3 31) eq_refl) as (_ & H & _).
    apply H. simpl. lia.
  - split; [reflexivity|].
    destruct (get_current_fy_april_to_march (mkdate 2025 4 1) eq_refl) as (H & _ & _).
    apply H. simpl. lia.
Defined.

(** ** Running computations *)

Lemma bind_Ok_inv {A B} (m : M A) (k : A → M B) w b w' :
  bind m k w = (Ok b, w') → ∃ a w1, m w = (Ok a, w1) ∧ k a w1 = (Ok b, w').
Proof.
  unfold bind. destruct (m w) as [[a|e] w1]; [eauto | discriminate].
Qed.

Lemma bind_Raise_inv {A B} (m : M A) (k : A → M B) w e w' :
  bind m k w = (Raise e, w') →
  m w = (Raise e, w') ∨ ∃ a w1, m w = (Ok a, w1) ∧ k a w1 = (Raise e, w').
Proof.
  unfold bind. destruct (m w) as [[a|e0] w1]; [eauto | intros [= -> ->]; eauto].
Qed.

Lemma bind_run {A B} (m : M A) (k : A → M B) w a w1 :
  m w = (Ok a, w1) → bind m k w = k a w1.
Proof. unfold bind. by intros ->. Qed.

Lemma bind_run_raise {A B} (m : M A) (k : A → M B) w e w1 :
  m w = (Raise e, w1) → bind m k w = (Raise e, w1).
Proof. unfold bind. by intros ->. Qed.

(** ** The fetch window *)

Lemma lt_not_ge a b : Py.lt a b = true → Py.ge a b = false.
Proof.
  unfold Py.lt, Py.ge, String.ltb, String.leb.
  rewrite (String.compare_antisym a b).
  by destruct (String.compare b a).
Qed.

Lemma le_not_gt a b : Py.le a b = true → Py.gt a b = false.
Proof.
  unfold Py.le, Py.gt, String.ltb, String.leb.
  rewrite (String.compare_antisym a b).
  by destruct (String.compare b a).
Qed.

Lemma add_one_day_year a c : add_one_day a = Ok c → year a <= year c.
Proof.
  unfold add_one_day.
  repeat match goal with |- context [if ?b then _ else _] => destruct b end;
    intros [= <-]; simpl; lia.
Qed.

(** From the year 1000 on, the start of the window is a valid date string
    again, not after the target. *)
Lemma from_date_str_le last target :
  is_yyyymmdd_from 1000 last → is_yyyymmdd target → Py.lt last target = true →
  ∃ f, from_date_str last = Ok f ∧ is_yyyymmdd_from 1000 f ∧ Py.le f target = true.
Proof.
  intros (a & Va & Ya & ->) (b & Vb & ->) Hlt.
  apply lt_yyyymmdd in Hlt; [|done..].
  destruct (add_one_day_le a b Va Vb Hlt) as (c & Hc & Vc & Hle).
  pose proof (add_one_day_year _ _ Hc) as Yc.
  pose proof (valid_bounds _ Vc) as (Yc' & _).
  exists (yyyymmdd None c). unfold from_date_str.
  rewrite strptime_yyyymmdd by auto. simpl. rewrite Hc. simpl.
  rewrite strftime_yyyymmdd by lia.
  split; [done|]. split; [exists c; repeat split; [done|lia]|].
  by apply le_yyyymmdd.
Qed.

(** What the body of the [try] returns when it returns. *)
Lemma fetch_and_merge_outcome api sort todt code dir p from_date target test w o w' :
  fetch_and_merge api sort todt code dir p from_date target test w = (Ok o, w') →
  o = UPDATED ∨ o = NO_NEW_DATA.
Proof.
  unfold fetch_and_merge. destruct test; [intros [= <- _]; by left|].
  intros (_ & w1 & _ & H)%bind_Ok_inv.
  apply bind_Ok_inv in H as (fetched & w2 & _ & H).
  destruct (Pd.empty fetched); [injection H as <- _; by right|].
  apply bind_Ok_inv in H as (df_old & w3 & _ & H).
  apply bind_Ok_inv in H as (latest & w4 & _ & H).
  apply bind_Ok_inv in H as (fy_part & w5 & _ & H).
  apply bind_Ok_inv in H as (? & w6 & _ & H).
  injection H as <- _. by left.
Qed.

(** C10, amended: for valid date strings, the last-updated date of the year
    1000 or later and before the target, the day after the last-updated date
    is a valid date string not after the target, and the update does not end
    in [DATE_CALC_ERROR]. *)
Theorem fetch_window_start_not_after_target (last target : string) :
  is_yyyymmdd_from 1000 last → is_yyyymmdd target → Py.lt last target = true →
  (∃ f, from_date_str last = Ok f ∧ is_yyyymmdd f ∧ Py.gt f target = false) ∧
  (∀ api sort todt code sector_code dq test p w,
     fst (update_from api sort todt code sector_code dq target test p last w)
     ≠ Ok DATE_CALC_ERROR).
Proof.
  intros Hl Ht Hlt.
  destruct (from_date_str_le last target Hl Ht Hlt) as (f & Hf & (c & Vc & _ & Ec) & Hle).
  apply le_not_gt in Hle. split; [exists f; split; [done|]; split; [by exists c|done]|].
  intros api sort todt code sector_code dq test p w.
  unfold update_from. rewrite (lt_not_ge _ _ Hlt).
  unfold lift at 1. rewrite Hf. unfold bind at 1. rewrite Hle.
  unfold try_except.
  destruct (fetch_and_merge _ _ _ _ _ _ _ _ _ _) as [[o|e] w'] eqn:E; [|done].
  apply fetch_and_merge_outcome in E as [-> | ->]; done.
Qed.

Lemma fetch_window_start_not_after_target_witness :
  is_yyyymmdd_from 1000 "20250331" ∧ is_yyyymmdd "20250403" ∧
  Py.lt "20250331" "20250403" = true ∧
  from_date_str "20250331" = Ok "20250401" ∧ Py.gt "20250401" "20250403" = false.
Proof.
  assert (H1 : is_yyyymmdd_from 1000 "20250331").
  { exists (mkdate 2025 3 31). split; [reflexivity|]. split; [simpl; lia|reflexivity]. }
  assert (H2 : is_yyyymmdd "20250403") by (exists (mkdate 2025 4 3); split; reflexivity).
  destruct (fetch_window_start_not_after_target "20250331" "20250403" H1 H2 eq_refl)
    as [(f & Hf & _ & Hgt) _].
  vm_compute in Hf. injection Hf as <-.
  repeat split; try assumption; reflexivity.
Defined.

(** C10, as worded, fails below the year 1000: the day after 0300-01-01 is
    written "3000102", without the leading zero, which is above the target
    "20250325" in string order; the update of an instrument whose latest
    file is dated 03000101 returns [DATE_CALC_ERROR], dry run or not. *)
Lemma fetch_window_start_after_target_below_1000 :
  let w := mkworld {[ "dq/3700/72030_0299fy_03000101.csv" := [mkrow "0300-01-01" ["1"]] ]}
                   {[ "dq/3700" ]}
                   {[ "72030" := ["dq/3700/72030_0299fy_03000101.csv"] ]} [] [] in
  let update := update_file_for_code (λ _ _ _, Ok []) sort_by_date parse_iso
                  "72030" "3700" "dq" "20250325" in
  is_yyyymmdd "03000101" ∧ is_yyyymmdd "20250325" ∧ Py.lt "03000101" "20250325" = true ∧
  from_date_str "03000101" = Ok "3000102" ∧ Py.gt "3000102" "20250325" = true ∧
  fst (update true w) = Ok DATE_CALC_ERROR ∧ fst (update false w) = Ok DATE_CALC_ERROR ∧
  (window_start_in_range "03000101" "20250325" → False).
Proof.
  intros w update.
  assert (H1 : is_yyyymmdd "03000101") by (exists (mkdate 300 1 1); split; reflexivity).
  assert (H2 : is_yyyymmdd "20250325") by (exists (mkdate 2025 3 25); split; reflexivity).
  split; [exact H1|]. split; [exact H2|]. split; [reflexivity|].
  split; [vm_compute; reflexivity|]. split; [reflexivity|].
  split; [vm_compute; reflexivity|]. split; [vm_compute; reflexivity|].
  intros H. destruct (H H1 H2 eq_refl) as (f & Hf & Hle).
  vm_compute in Hf. injection Hf as <-. vm_compute in Hle. discriminate.
Qed.

(** ** The scan indexes [.csv] paths only *)

Lemma length_append s t : String.length (s +:+ t) = (String.length s + String.length t)%nat.
Proof. induction s as [|c s IH]; [done|]. rewrite append_String. simpl. by rewrite IH. Qed.

Lemma endswith_unfold p s :
  Py.endswith p s =
  if (String.length s =? String.length p)%nat then String.eqb s p
  else match s with
       | EmptyString => false
       | String _ s' => Py.endswith p s'
       end.
Proof. by destruct s. Qed.

Lemma endswith_spec p s : Py.endswith p s = true ↔ ∃ x, s = x +:+ p.
Proof.
  split.
  - induction s as [|c s IH]; rewrite endswith_unfold.
    + destruct (Nat.eqb_spec (String.length "") (String.length p)); [|done].
      intros ->%String.eqb_eq. by exists "".
    + destruct (Nat.eqb_spec (String.length (String c s)) (String.length p)) as [E|E].
      * intros ->%String.eqb_eq. by exists "".
      * intros [x ->]%IH. by exists (String c x).
  - intros [x ->]. induction x as [|c x IH]; rewrite endswith_unfold.
    + rewrite append_empty_l. by rewrite Nat.eqb_refl, String.eqb_refl.
    + rewrite append_String.
      destruct (Nat.eqb_spec (String.length (String c (x +:+ p))) (String.length p)) as [E|E];
        [|done].
      simpl in E. rewrite length_append in E. lia.
Qed.

Lemma append_same_length_inv x y p q :
  x +:+ p = y +:+ q → String.length p = String.length q → x = y ∧ p = q.
Proof.
  revert y. induction x as [|c x IH]; intros [|d y] H L.
  - done.
  - rewrite append_empty_l in H. subst p. rewrite append_String in L. simpl in L.
    rewrite length_append in L. lia.
  - rewrite append_empty_l in H. subst q. rewrite append_String in L. simpl in L.
    rewrite length_append in L. lia.
  - rewrite !append_String in H. injection H as -> H.
    destruct (IH y H L) as [-> ->]. done.
Qed.

Lemma endswith_csv_not_tmp s : Py.endswith ".csv" s = true → Py.endswith ".tmp" s = false.
Proof.
  intros [x ->]%endswith_spec.
  destruct (Py.endswith ".tmp" (x +:+ ".csv")) eqn:E; [|done].
  apply endswith_spec in E as [y E].
  by apply append_same_length_inv in E as [_ [=]].
Qed.

Lemma endswith_tmp_append filepath : Py.endswith ".tmp" (filepath +:+ ".tmp") = true.
Proof. apply endswith_spec. by exists filepath. Qed.

Lemma join_suffix a b : ∃ x, Py.join a b = x +:+ b.
Proof.
  unfold Py.join. destruct (Py.startswith "/" b); [by exists ""|].
  destruct (_ || _); [by exists a|].
  exists (a +:+ "/"). by rewrite append_assoc.
Qed.

Lemma endswith_join p a b : Py.endswith p b = true → Py.endswith p (Py.join a b) = true.
Proof.
  intros [x ->]%endswith_spec. destruct (join_suffix a (x +:+ p)) as [y ->].
  apply endswith_spec. exists (y +:+ x). by rewrite append_assoc.
Qed.

Module ScanFacts.
Import FileRepository.

Lemma all_csv_empty : all_csv ∅.
Proof. intros code l p H. by rewrite lookup_empty in H. Qed.

Lemma all_csv_scan_file root filename fm :
  all_csv fm → all_csv (scan_file root filename fm).
Proof.
  intros Hfm. unfold scan_file.
  destruct (Py.endswith ".csv" filename) eqn:Hcsv; [|done].
  destruct (2 <=? length (Py.split "_" filename))%nat; [|done].
  intros code l p Hl Hp.
  destruct (decide (List.hd "" (Py.split "_" filename) = code)) as [<-|Hne].
  - rewrite lookup_insert_eq in Hl. injection Hl as <-.
    apply elem_of_app in Hp as [Hp|Hp].
    + destruct (fm !! _) as [l0|] eqn:E; simpl in Hp; [by eapply Hfm|].
      by apply elem_of_nil in Hp.
    + apply list_elem_of_singleton in Hp as ->. by apply endswith_join.
  - rewrite lookup_insert_ne in Hl by done. by eapply Hfm.
Qed.

Lemma all_csv_scan_entry fm e : all_csv fm → all_csv (scan_entry fm e).
Proof.
  unfold scan_entry. destruct e as [[root ds] fs]; simpl.
  revert fm. induction fs as [|f fs IH]; intros fm Hfm; simpl; [done|].
  by apply IH, all_csv_scan_file.
Qed.

Lemma all_csv_scan_entries entries : all_csv (scan_entries entries).
Proof.
  unfold scan_entries. generalize all_csv_empty.
  generalize (∅ : gmap string (list string)).
  induction entries as [|e es IH]; intros fm Hfm; simpl; [done|].
  by apply IH, all_csv_scan_entry.
Qed.

End ScanFacts.

(** C9: every path that the scan of a directory tree puts in the index ends
    in [.csv]; none ends in [.tmp], so none is the temporary file
    [filepath + ".tmp"] of an atomic save. *)
Theorem scan_indexes_csv_only (root_dir : string) (t : FileRepository.tree)
    (code : string) (l : list string) (p : string) :
  FileRepository._scan_files root_dir t !! code = Some l → p ∈ l →
  Py.endswith ".csv" p = true ∧ Py.endswith ".tmp" p = false ∧
  ∀ filepath, p ≠ filepath +:+ ".tmp".
Proof.
  intros Hl Hp.
  assert (Hcsv : Py.endswith ".csv" p = true).
  { eapply ScanFacts.all_csv_scan_entries; done. }
  split; [done|]. split; [by apply endswith_csv_not_tmp|].
  intros filepath ->. apply endswith_csv_not_tmp in Hcsv.
  by rewrite endswith_tmp_append in Hcsv.
Qed.

Example scan_example :
  map_to_list (FileRepository._scan_files "dq"
    (FileRepository.Dir "dq" ["notes.txt"]
       [FileRepository.Dir "3700"
          ["72030_2024fy.csv"; "72030_2025fy_20250403.csv";
           "72030_2025fy_20250404.csv.tmp"; "readme.csv"] []]))
  = [("72030", ["dq/3700/72030_2024fy.csv"; "dq/3700/72030_2025fy_20250403.csv"])].
Proof. vm_compute. reflexivity. Qed.

Lemma scan_indexes_csv_only_witness :
  Py.endswith ".csv" "dq/3700/72030_2024fy.csv" = true ∧
  Py.endswith ".tmp" "dq/3700/72030_2024fy.csv" = false.
Proof.
  pose proof (scan_indexes_csv_only "dq"
    (FileRepository.Dir "dq" ["notes.txt"]
       [FileRepository.Dir "3700"
          ["72030_2024fy.csv"; "72030_2025fy_20250403.csv";
           "72030_2025fy_20250404.csv.tmp"; "readme.csv"] []])
    "72030" ["dq/3700/72030_2024fy.csv"; "dq/3700/72030_2025fy_20250403.csv"]
    "dq/3700/72030_2024fy.csv") as H.
  destruct H as (H1 & H2 & _).
  - vm_compute. reflexivity.
  - apply list_elem_of_here.
  - split; assumption.
Defined.

(** ** [get_latest_file] *)

Module LatestFacts.
Import FileRepository.

Lemma head_insert_desc x l :
  List.head (insert_desc x l) =
  match List.head l with
  | Some y => if fst x <? fst y then Some y else Some x
  | None => Some x
  end.
Proof. destruct l as [|y l]; simpl; [done|]. by destruct (fst x <? fst y). Qed.

Lemma head_sorted_desc l : List.head (sorted_desc l) = first_max l.
Proof.
  induction l as [|x l IH]; simpl; [done|].
  by rewrite head_insert_desc, IH.
Qed.

Lemma first_max_Some x l : is_Some (first_max (x :: l)).
Proof. simpl. destruct (first_max l) as [y|]; [destruct (fst x <? fst y)|]; eauto. Qed.

(** The first maximum is an entry, no entry has a larger key, and the
    entries before it have a smaller one. *)
Lemma first_max_spec l k f :
  first_max l = Some (k, f) →
  ∃ l1 l2, l = l1 ++ (k, f) :: l2 ∧
           Forall (λ y, fst y < k) l1 ∧ Forall (λ y, fst y <= k) l2.
Proof.
  revert k f. induction l as [|x l IH]; intros k f; simpl; [done|].
  destruct (first_max l) as [[k' f']|] eqn:E.
  - destruct (IH k' f' eq_refl) as (l1 & l2 & -> & H1 & H2).
    simpl. destruct (Z.ltb_spec (fst x) k').
    + intros ?; simplify_eq. exists (x :: l1), l2. split; [done|]. split; [|done].
      by constructor.
    + intros ?; simplify_eq. simpl in *. exists [], (l1 ++ (k', f') :: l2). split; [done|].
      split; [constructor|]. simpl.
      apply Forall_app. split.
      * eapply Forall_impl; [exact H1|]. simpl. intros; lia.
      * constructor; [simpl; lia|]. eapply Forall_impl; [exact H2|]. simpl. intros; lia.
  - intros ?; simplify_eq. destruct l as [|y l].
    + exists [], []. repeat split; constructor.
    + destruct (first_max_Some y l) as [? E']. congruence.
Qed.

Lemma keyed_snd files ks : keyed files = Ok ks → snd <$> ks = files.
Proof.
  revert ks. induction files as [|f fs IH]; intros ks; simpl.
  - by intros [= <-].
  - destruct (sort_key f) as [k|]; simpl; [|done].
    destruct (keyed fs) as [ks'|]; simpl; [|done].
    intros [= <-]. change (f :: (snd <$> ks') = f :: fs). f_equal. by apply IH.
Qed.

Lemma keyed_fst files ks :
  keyed files = Ok ks → Forall (λ y, sort_key (snd y) = Ok (fst y)) ks.
Proof.
  revert ks. induction files as [|f fs IH]; intros ks; simpl.
  - intros [= <-]. constructor.
  - destruct (sort_key f) as [k|] eqn:Ek; simpl; [|done].
    destruct (keyed fs) as [ks'|]; simpl; [|done].
    intros [= <-]. constructor; [done|]. by apply IH.
Qed.

(** When no key raises, the lookup returns the first file of largest key. *)
Lemma get_latest_file_first_max fm code files ks :
  fm !! code = Some files → files ≠ [] → keyed files = Ok ks →
  ∃ k f l1 l2,
    get_latest_file fm code = Ok (Some f) ∧ sort_key f = Ok k ∧
    ks = l1 ++ (k, f) :: l2 ∧
    Forall (λ y, fst y < k) l1 ∧ Forall (λ y, fst y <= k) l2.
Proof.
  intros Hfm Hne Hk. unfold get_latest_file. rewrite Hfm.
  destruct files as [|f0 fs]; [done|]. rewrite Hk. simpl.
  rewrite head_sorted_desc.
  destruct ks as [|x ks]; [by apply keyed_snd in Hk|].
  destruct (first_max_Some x ks) as [[k f] E]. rewrite E. simpl.
  destruct (first_max_spec _ _ _ E) as (l1 & l2 & El & H1 & H2).
  exists k, f, l1, l2. repeat split; try done.
  apply keyed_fst in Hk. rewrite El in Hk.
  apply Forall_app in Hk as [_ Hk]. by inversion Hk.
Qed.

End LatestFacts.

Example sort_key_archived : FileRepository.sort_key "dq/3700/72030_2024fy.csv" = Ok 0.
Proof. reflexivity. Qed.

Example sort_key_live : FileRepository.sort_key "dq/3700/72030_2024fy_20250115.csv" = Ok 20250115.
Proof. reflexivity. Qed.

Example sort_key_malformed : FileRepository.sort_key "dq/3700/72030_2024fy_backup.csv" = Ok 0.
Proof. reflexivity. Qed.

Example latest_prefers_live :
  FileRepository.get_latest_file
    {[ "72030" := ["dq/3700/72030_2024fy.csv"; "dq/3700/72030_2024fy_20250115.csv"] ]} "72030"
  = Ok (Some "dq/3700/72030_2024fy_20250115.csv").
Proof. vm_compute. reflexivity. Qed.

Example isdigit_superscript :
  Py.isdigit superscript_twos = true ∧ Py.int superscript_twos = None.
Proof. split; reflexivity. Qed.

(** C5: a file whose date field is eight superscript digits passes the
    [isdigit] and length test of [sort_key], [int] then raises [ValueError];
    the scan indexes such a file, the lookup raises, and so does the update
    of the instrument. *)
Theorem get_latest_file_raises_on_superscript_digits :
  let name := "72030_2024fy_" +:+ superscript_twos +:+ ".csv" in
  let fm := FileRepository._scan_files "dq"
              (FileRepository.Dir "dq" [] [FileRepository.Dir "3700" [name] []]) in
  fm !! "72030" = Some ["dq/3700/" +:+ name] ∧
  FileRepository.get_latest_file fm "72030" = Raise ValueError ∧
  ∀ api sort todt target test,
    fst (update_file_for_code api sort todt "72030" "3700" "dq" target test
           (mkworld ∅ {[ "dq/3700" ]} fm [] []))
    = Raise ValueError.
Proof.
  split; [vm_compute; reflexivity|]. split; [vm_compute; reflexivity|].
  intros. vm_compute. reflexivity.
Qed.

(** ** Names of ASCII characters never make [sort_key] raise *)

Section AsciiNames.

Variable P : ascii → bool.

Lemma all_chars_split sep s :
  all_chars P s = true → Forall (λ x, all_chars P x = true) (Py.split sep s).
Proof.
  induction s as [|c s IH]; simpl.
  - intros _. by repeat constructor.
  - intros [Hc Hs]%andb_true_iff. specialize (IH Hs).
    destruct (Ascii.eqb c sep); [by constructor|].
    destruct (Py.split sep s) as [|h t]; [repeat constructor; simpl; by rewrite Hc|].
    inversion IH; subst. constructor; [|done]. simpl. by rewrite Hc.
Qed.

Lemma all_chars_last l :
  Forall (λ x, all_chars P x = true) l → all_chars P (Py.last_part l) = true.
Proof.
  unfold Py.last_part. induction 1 as [|x l Hx Hl IH]; [done|].
  destruct l; [done|]. exact IH.
Qed.

Lemma all_chars_hd l :
  Forall (λ x, all_chars P x = true) l → all_chars P (List.hd "" l) = true.
Proof. by destruct 1. Qed.

Lemma all_chars_forallb s : forallb P (list_ascii_of_string s) = all_chars P s.
Proof. induction s as [|c s IH]; simpl; [done|]. by rewrite IH. Qed.

End AsciiNames.

Lemma all_chars_impl (P Q : ascii → bool) s :
  (∀ c, P c = true → Q c = true) → all_chars P s = true → all_chars Q s = true.
Proof.
  intros H. induction s as [|c s IH]; simpl; [done|].
  intros [Hc Hs]%andb_true_iff. by rewrite (H c Hc), IH.
Qed.

Lemma all_chars_and (P Q : ascii → bool) s :
  all_chars P s = true → all_chars Q s = true →
  all_chars (λ c, P c && Q c) s = true.
Proof.
  induction s as [|c s IH]; simpl; [done|].
  intros [-> Hs]%andb_true_iff [-> Hs']%andb_true_iff. simpl. by apply IH.
Qed.

Lemma ascii_digit_is_decimal c :
  (Py.ord c <? 128) && Py.char_isdigit c = true → Py.is_decimal c = true.
Proof.
  unfold Py.char_isdigit. intros [Hlt Hd]%andb_true_iff.
  apply Z.ltb_lt in Hlt.
  destruct (Py.is_decimal c); [done|]. simpl in Hd.
  apply orb_true_iff in Hd as [Hd|Hd]; [apply orb_true_iff in Hd as [Hd|Hd]|];
    apply Z.eqb_eq in Hd; lia.
Qed.

Lemma decimal_not_space c : Py.is_decimal c = true → Py.is_space c = false.
Proof.
  unfold Py.is_decimal, Py.is_space. intros [H1 H2]%andb_true_iff.
  apply Z.leb_le in H1, H2.
  repeat match goal with
         | |- context [?a <=? ?b] => destruct (Z.leb_spec a b)
         | |- context [?a =? ?b] => destruct (Z.eqb_spec a b)
         end; simpl; try done; lia.
Qed.

Lemma lstrip_decimal s : all_chars Py.is_decimal s = true → Py.lstrip s = s.
Proof.
  destruct s as [|c s]; [done|]. simpl. intros [Hc _]%andb_true_iff.
  by rewrite (decimal_not_space c Hc).
Qed.

Lemma all_chars_rev_app P s acc :
  all_chars P (String.rev_app s acc) = all_chars P s && all_chars P acc.
Proof.
  revert acc. induction s as [|c s IH]; intros acc; simpl; [done|].
  rewrite IH. simpl. by destruct (P c), (all_chars P s).
Qed.

Lemma rev_app_rev_app s acc1 acc2 :
  String.rev_app (String.rev_app s acc1) acc2 = String.rev_app acc1 (s +:+ acc2).
Proof.
  revert acc1 acc2. induction s as [|c s IH]; intros acc1 acc2; simpl; [done|].
  by rewrite IH.
Qed.

Lemma rev_rev s : String.rev (String.rev s) = s.
Proof. unfold String.rev. rewrite rev_app_rev_app. simpl. apply append_empty_r. Qed.

Lemma strip_decimal s : all_chars Py.is_decimal s = true → Py.strip s = s.
Proof.
  intros H. unfold Py.strip. rewrite (lstrip_decimal s H).
  rewrite lstrip_decimal; [apply rev_rev|].
  unfold String.rev. by rewrite all_chars_rev_app, H.
Qed.

Lemma int_digits_decimal s acc b :
  all_chars Py.is_decimal s = true → 0 <= acc → (s ≠ "" ∨ b = true) →
  ∃ n, Py.int_digits acc b s = Some n ∧ 0 <= n.
Proof.
  revert acc b. induction s as [|c s IH]; intros acc b; simpl.
  - intros _ ? [? | ->]; [done|]. eauto.
  - intros [Hc Hs]%andb_true_iff Hacc _.
    assert (Hne : Ascii.eqb c "_" = false).
    { apply Ascii.eqb_neq. intros ->. discriminate. }
    rewrite Hne. unfold Py.digit_val. rewrite Hc.
    apply IH; [done| | by right].
    unfold Py.is_decimal in Hc. apply andb_true_iff in Hc as [?%Z.leb_le _]. lia.
Qed.

Lemma int_decimal s :
  all_chars Py.is_decimal s = true → s ≠ "" → ∃ n, Py.int s = Some n ∧ 0 <= n.
Proof.
  intros H Hne. unfold Py.int. rewrite (strip_decimal s H).
  destruct (int_digits_decimal s 0 false H) as (n & Hn & ?); [lia|by left|].
  destruct s as [|c r]; [done|].
  simpl in H. apply andb_true_iff in H as [Hc _].
  assert (c ≠ "-"%char ∧ c ≠ "+"%char) as [H1 H2] by (split; intros ->; discriminate).
  exists n. split; [|done]. rewrite <- Hn.
  destruct c as [[] [] [] [] [] [] [] []]; try done.
Qed.

(** On a path of ASCII characters [sort_key] returns a key, and the key is
    not negative. *)
Lemma sort_key_ascii filepath :
  ascii_only filepath = true → ∃ k, FileRepository.sort_key filepath = Ok k ∧ 0 <= k.
Proof.
  intros H. unfold FileRepository.sort_key.
  set (last_part := List.hd "" (Py.split "." (Py.last_part
                      (Py.split "_" (Py.basename filepath))))).
  assert (Ha : ascii_only last_part = true).
  { apply all_chars_hd, all_chars_split, all_chars_last, all_chars_split.
    unfold Py.basename. by apply all_chars_last, all_chars_split. }
  destruct (Py.isdigit last_part) eqn:Hd; simpl; [|exists 0; by split].
  destruct (String.length last_part =? 8)%nat; [|exists 0; by split].
  assert (Hdec : all_chars Py.is_decimal last_part = true ∧ last_part ≠ "").
  { unfold Py.isdigit in Hd. destruct last_part as [|c r] eqn:E; [done|].
    split; [|done]. rewrite all_chars_forallb in Hd.
    eapply all_chars_impl; [apply ascii_digit_is_decimal|].
    by apply all_chars_and. }
  destruct Hdec as [Hdec Hne].
  destruct (int_decimal _ Hdec Hne) as (n & -> & ?). eauto.
Qed.

Module LatestAscii.
Import FileRepository.

Lemma keyed_ascii files :
  Forall (λ f, ascii_only f = true) files →
  ∃ ks, keyed files = Ok ks ∧ Forall (λ y, 0 <= fst y) ks.
Proof.
  induction 1 as [|f fs Hf Hfs (ks & E & Hks)]; simpl; [by exists []|].
  destruct (sort_key_ascii f Hf) as (k & -> & Hk). simpl. rewrite E. simpl.
  exists ((k, f) :: ks). split; [done|]. by constructor.
Qed.

(** The lookup over ASCII paths: it raises nothing, and for an instrument
    with files it returns the first file of largest key. *)
Lemma get_latest_file_ascii fm code files :
  fm !! code = Some files → files ≠ [] →
  Forall (λ f, ascii_only f = true) files →
  ∃ k f ks l1 l2,
    keyed files = Ok ks ∧
    get_latest_file fm code = Ok (Some f) ∧ sort_key f = Ok k ∧
    ks = l1 ++ (k, f) :: l2 ∧
    Forall (λ y, fst y < k) l1 ∧ Forall (λ y, fst y <= k) l2.
Proof.
  intros Hfm Hne Ha. destruct (keyed_ascii files Ha) as (ks & Hk & _).
  destruct (LatestFacts.get_latest_file_first_max fm code files ks Hfm Hne Hk)
    as (k & f & l1 & l2 & H1 & H2 & H3 & H4 & H5).
  exists k, f, ks, l1, l2. auto 10.
Qed.

End LatestAscii.

(** [int] strips the ASCII whitespace and U+00A0, not the separator U+001F:
    a year followed by U+001F is no number. *)
Example int_whitespace :
  Py.int " 2024 " = Some 2024 ∧
  Py.int (String (ascii_of_nat 160) "2024") = Some 2024 ∧
  Py.int ("2024" +:+ String (ascii_of_nat 31) "") = None ∧
  Py.int (String (ascii_of_nat 28) "2024") = None ∧
  Py.int "2024.csv" = None.
Proof. repeat split; vm_compute; reflexivity. Qed.

(** ** [atomic_save] *)

Ltac run_io :=
  cbv [atomic_save try_except try_except_OSError bind ret raise lift emit next_fault
       modify_files path_exists to_csv read_csv move_file os_replace os_rename
       os_remove set_files set_file_map repo_add_file repo_remove_file
       repo_get_latest_file];
  cbn [files dirs file_map faults trace fst snd].

Ltac proj_io := cbn [files dirs file_map faults trace fst snd].

Lemma tmp_ne filepath : filepath +:+ ".tmp" ≠ filepath.
Proof.
  intros E. apply (f_equal String.length) in E.
  rewrite length_append in E. simpl in E. lia.
Qed.

(** The cleanup of the handler: afterwards the temporary file is absent, or
    its [os.remove] raised. *)
Lemma cleanup_spec tmp e wa r wb :
  bind (path_exists tmp)
       (λ t, bind (if t then try_except_OSError (os_remove tmp) (ret tt) else ret tt)
                  (λ _, raise e)) wa = (r, wb) →
  r = Raise e (A := unit) ∧
  (∀ q, q ≠ tmp → files wb !! q = files wa !! q) ∧
  (files wb !! tmp = None ∨ ∃ w1, os_remove tmp w1 = (Raise OSError, wb)).
Proof.
  destruct wa as [fs ds fm flts tr]. run_io.
  destruct (fs !! tmp) as [c|] eqn:Etmp.
  - destruct flts as [|[|e0 torn] flts]; cbn [files dirs file_map faults trace];
      rewrite ?Etmp; intros [= <- <-]; cbn [files].
    + split; [done|]. split; [intros q Hq; by rewrite lookup_delete_ne|].
      left. apply lookup_delete_eq.
    + split; [done|]. split; [intros q Hq; by rewrite lookup_delete_ne|].
      left. apply lookup_delete_eq.
    + split; [done|]. split; [done|]. right.
      exists (mkworld fs ds fm (Fault e0 torn :: flts) (tr ++ [EvExists tmp])).
      by run_io.
  - destruct (bool_decide (tmp ∈ ds)).
    + destruct flts as [|[|e0 torn] flts]; cbn [files dirs file_map faults trace];
        rewrite ?Etmp; intros [= <- <-]; cbn [files].
      * split; [done|]. split; [done|]. by left.
      * split; [done|]. split; [done|]. by left.
      * split; [done|]. split; [done|]. by left.
    + intros [= <- <-]. cbn [files]. split; [done|]. split; [done|]. by left.
Qed.

(** The write and the move touch no path but the temporary one when they
    fail. *)
Lemma save_body_raise df filepath w e wa :
  bind (to_csv df (filepath +:+ ".tmp"))
       (λ _, bind (path_exists filepath)
                  (λ ex, if ex then os_replace (filepath +:+ ".tmp") filepath
                         else os_rename (filepath +:+ ".tmp") filepath)) w
  = (Raise e, wa) →
  ∀ q, q ≠ filepath +:+ ".tmp" → files wa !! q = files w !! q.
Proof.
  destruct w as [fs ds fm flts tr]. run_io.
  destruct flts as [|[|e0 torn] flts]; proj_io.
  - rewrite lookup_insert_ne by apply tmp_ne.
    destruct (fs !! filepath); [|destruct (bool_decide _)]; proj_io;
      rewrite lookup_insert_eq; intros [=].
  - rewrite lookup_insert_ne by apply tmp_ne.
    destruct (fs !! filepath) as [c|]; [|destruct (bool_decide _)]; proj_io;
      (destruct flts as [|[|e1 torn1] flts]; proj_io;
       rewrite ?lookup_insert_eq; intros [= <- <-] q Hq; proj_io;
       by rewrite lookup_insert_ne).
  - destruct torn as [junk|]; proj_io; intros [= <- <-] q Hq; proj_io; [|done].
    by rewrite lookup_insert_ne.
Qed.

(** With at most one failing call the temporary file is removed. *)
Lemma atomic_save_single_failure df filepath w e w' :
  (count_faults (faults w) <= 1)%nat →
  atomic_save df filepath w = (Raise e, w') →
  files w' !! (filepath +:+ ".tmp") = None.
Proof.
  intros Hc H.
  destruct w as [fs ds fm flts tr]. revert H. unfold atomic_save. run_io.
  unfold count_faults in Hc. simpl in Hc.
  destruct flts as [|[|e0 torn] flts]; proj_io.
  - rewrite lookup_insert_ne by apply tmp_ne.
    destruct (fs !! filepath); [|destruct (bool_decide _)]; proj_io;
      rewrite lookup_insert_eq; intros ?; simplify_eq.
  - rewrite lookup_insert_ne by apply tmp_ne.
    simpl in Hc.
    destruct (fs !! filepath); [|destruct (bool_decide _)]; proj_io;
      (destruct flts as [|[|e1 torn1] flts]; proj_io;
       rewrite ?lookup_insert_eq; try (intros ?; simplify_eq; fail);
       simpl in Hc;
       destruct flts as [|[|e2 torn2] flts]; proj_io; simpl in Hc; try lia;
       rewrite ?lookup_insert_eq; intros ?; simplify_eq; proj_io;
       apply lookup_delete_eq).
  - simpl in Hc.
    destruct torn as [junk|]; proj_io; rewrite ?lookup_insert_eq.
    + destruct flts as [|[|e1 torn1] flts]; proj_io; simpl in Hc; try lia;
        rewrite ?lookup_insert_eq; intros ?; simplify_eq; proj_io;
        apply lookup_delete_eq.
    + destruct (fs !! (filepath +:+ ".tmp")) eqn:E; [|destruct (bool_decide _)]; proj_io;
        (destruct flts as [|[|e1 torn1] flts]; proj_io; simpl in Hc; try lia;
         rewrite ?E; intros ?; simplify_eq; proj_io;
         rewrite ?lookup_delete_eq; done).
Qed.

(** What a failing write and move leave: the error is that of the first
    failing call, and no path but the temporary one has changed. *)
Lemma write_and_move_raise df filepath w e wa :
  write_and_move df filepath w = (Raise e, wa) →
  first_save_error (faults w) = Some e ∧
  ∀ q, q ≠ filepath +:+ ".tmp" → files wa !! q = files w !! q.
Proof.
  intros H. split; [|by eapply save_body_raise].
  destruct w as [fs ds fm flts tr]. revert H. unfold write_and_move. run_io.
  destruct flts as [|[|e0 torn] flts]; proj_io.
  - rewrite lookup_insert_ne by apply tmp_ne.
    destruct (fs !! filepath); [|destruct (bool_decide _)]; proj_io;
      rewrite lookup_insert_eq; intros [=].
  - rewrite lookup_insert_ne by apply tmp_ne.
    destruct (fs !! filepath) as [c|]; [|destruct (bool_decide _)]; proj_io;
      (destruct flts as [|[|e1 torn1] flts]; proj_io;
       rewrite ?lookup_insert_eq; intros [= <- <-]; done).
  - destruct torn as [junk|]; proj_io; by intros [= <- <-].
Qed.

(** The handler: the temporary file is gone unless its removal fails, and
    then it is as it was. *)
Lemma cleanup_temp tmp e wa r wb :
  bind (path_exists tmp)
       (λ t, bind (if t then try_except_OSError (os_remove tmp) (ret tt) else ret tt)
                  (λ _, raise (A := unit) e)) wa = (r, wb) →
  files wb !! tmp = if next_call_fails (faults wa) then files wa !! tmp else None.
Proof.
  destruct wa as [fs ds fm flts tr]. run_io.
  destruct (fs !! tmp) as [c|] eqn:Etmp.
  - destruct flts as [|[|e0 torn] flts]; cbn [files dirs file_map faults trace];
      rewrite ?Etmp; intros [= <- <-]; cbn [files next_call_fails];
      rewrite ?lookup_delete_eq; done.
  - destruct (bool_decide (tmp ∈ ds)).
    + destruct flts as [|[|e0 torn] flts]; cbn [files dirs file_map faults trace];
        rewrite ?Etmp; intros [= <- <-]; cbn [files next_call_fails]; done.
    + intros [= <- <-]. cbn [files faults]. by destruct (next_call_fails flts).
Qed.

(** C3, amended: when [atomic_save] raises, the error is the one of the
    first failing call, the write or the move; the file at the target path
    and every other file but the temporary one are as they were; the
    temporary file is gone unless the [os.remove] of the handler fails too,
    which the handler passes over: then it stays as the failed write and
    move left it.  It is gone whenever at most one call fails. *)
Theorem atomic_save_failure (df : DataFrame) (filepath : string) (w : world) e w' :
  atomic_save df filepath w = (Raise e, w') →
  let tmp := filepath +:+ ".tmp" in
  ∃ wa, write_and_move df filepath w = (Raise e, wa) ∧
        first_save_error (faults w) = Some e ∧
        files w' !! filepath = files w !! filepath ∧
        (∀ q, q ≠ tmp → files w' !! q = files w !! q) ∧
        files w' !! tmp = (if next_call_fails (faults wa) then files wa !! tmp else None) ∧
        ((count_faults (faults w) <= 1)%nat → files w' !! tmp = None).
Proof.
  intros Hrun tmp. subst tmp.
  assert (Hsingle := λ Hc, atomic_save_single_failure df filepath w e w' Hc Hrun).
  revert Hrun. unfold atomic_save, try_except at 1.
  change (bind (to_csv df (filepath +:+ ".tmp")) _) with (write_and_move df filepath).
  destruct (write_and_move df filepath w) as [[[]|e0] wa] eqn:Eb; [done|].
  intros H.
  pose proof (write_and_move_raise _ _ _ _ _ Eb) as [Hfirst Hframe].
  pose proof (cleanup_temp _ _ _ _ _ H) as Htmp.
  apply cleanup_spec in H as ([= <-] & Hothers & _).
  assert (Hall : ∀ q, q ≠ filepath +:+ ".tmp" → files w' !! q = files w !! q).
  { intros q Hq. rewrite Hothers by done. by apply Hframe. }
  exists wa. split; [done|]. split; [done|].
  split; [apply Hall; intros E; by apply (tmp_ne filepath)|]. repeat split; done.
Qed.

(** C3, as worded, fails when the cleanup fails too: the write leaves a torn
    temporary file and raises [ValueError], [os.remove] of the temporary file
    raises [OSError], the handler passes over it and raises the first error
    again; the torn file stays. *)
Lemma atomic_save_can_leave_temp_file :
  let df := [mkrow "2025-03-20" ["2"]] in
  let filepath := "dq/3700/72030_2024fy_20250320.csv" in
  let w := mkworld ∅ {[ "dq/3700" ]} ∅ [Fault ValueError (Some []); Fault OSError None] [] in
  fst (atomic_save df filepath w) = Raise ValueError ∧
  files (snd (atomic_save df filepath w)) !! (filepath +:+ ".tmp") = Some [] ∧
  (atomic_save_cleans_up df filepath w → False).
Proof.
  intros df filepath w.
  split; [vm_compute; reflexivity|]. split; [vm_compute; reflexivity|].
  intros H.
  destruct (atomic_save df filepath w) as [r w'] eqn:E.
  pose proof (H ValueError w') as H'.
  vm_compute in E. injection E as <- <-.
  destruct (H' eq_refl) as [Habs _]. vm_compute in Habs. discriminate.
Qed.

Lemma atomic_save_failure_witness :
  let w := mkworld {[ "a.csv" := [mkrow "2025-03-19" ["1"]] ]} ∅ ∅ [NoFault; Fault OSError None] [] in
  ∃ w', atomic_save [mkrow "2025-03-20" ["2"]] "a.csv" w = (Raise OSError, w') ∧
        files w' !! "a.csv" = Some [mkrow "2025-03-19" ["1"]] ∧
        files w' !! "a.csv.tmp" = None.
Proof.
  intros w.
  destruct (atomic_save [mkrow "2025-03-20" ["2"]] "a.csv" w) as [r w'] eqn:E.
  assert (Er : r = Raise OSError) by (apply (f_equal fst) in E; vm_compute in E; done).
  subst r. exists w'. split; [done|].
  destruct (atomic_save_failure _ _ _ _ _ E) as (wa & _ & _ & Ht & _ & _ & Hone).
  split; [rewrite Ht; reflexivity|].
  apply Hone. vm_compute. lia.
Defined.

(** ** Locating the last-updated date changes nothing *)

Section Readonly.

Lemma advance_advance k1 evs1 k2 evs2 w :
  advance k2 evs2 (advance k1 evs1 w) = advance (k1 + k2) (evs1 ++ evs2) w.
Proof. unfold advance; simpl. by rewrite drop_drop, app_assoc. Qed.

Lemma advance_with_trace k evs t w :
  advance k evs (with_trace t w) = with_trace (t ++ evs) (advance k [] w).
Proof. done. Qed.

Lemma readonly_ret {A} (a : A) : readonly (ret a).
Proof.
  intros [fs ds fm flts tr]. exists (Ok a), [], 0%nat.
  unfold ret, advance, with_trace; simpl.
  repeat split; intros; by rewrite ?drop_0, ?app_nil_r.
Qed.

Lemma readonly_raise {A} e : readonly (raise (A := A) e).
Proof.
  intros [fs ds fm flts tr]. exists (Raise e), [], 0%nat.
  unfold raise, advance, with_trace; simpl.
  repeat split; intros; by rewrite ?drop_0, ?app_nil_r.
Qed.

Lemma readonly_bind {A B} (m : M A) (k : A → M B) :
  readonly m → (∀ a, readonly (k a)) → readonly (bind m k).
Proof.
  intros Hm Hk w. destruct (Hm w) as (r & evs & n & E & Q & T).
  destruct r as [a|e].
  - destruct (Hk a (advance n evs w)) as (r2 & evs2 & n2 & E2 & Q2 & T2).
    exists r2, (evs ++ evs2), (n + n2)%nat. split; [|split].
    + unfold bind. by rewrite E, E2, advance_advance.
    + by rewrite forallb_app, Q, Q2.
    + intros t. unfold bind. rewrite T.
      specialize (T2 (t ++ evs)).
      change (with_trace (t ++ evs) (advance n evs w)) with (advance n evs (with_trace t w)) in T2.
      by rewrite T2, !advance_advance.
  - exists (Raise e), evs, n. split; [|split; [done|]].
    + unfold bind. by rewrite E.
    + intros t. unfold bind. by rewrite T.
Qed.

Lemma readonly_try_except {A} (m : M A) (h : exn → M A) :
  readonly m → (∀ e, readonly (h e)) → readonly (try_except m h).
Proof.
  intros Hm Hh w. destruct (Hm w) as (r & evs & n & E & Q & T).
  destruct r as [a|e].
  - exists (Ok a), evs, n. split; [|split; [done|]].
    + unfold try_except. by rewrite E.
    + intros t. unfold try_except. by rewrite T.
  - destruct (Hh e (advance n evs w)) as (r2 & evs2 & n2 & E2 & Q2 & T2).
    exists r2, (evs ++ evs2), (n + n2)%nat. split; [|split].
    + unfold try_except. by rewrite E, E2, advance_advance.
    + by rewrite forallb_app, Q, Q2.
    + intros t. unfold try_except. rewrite T.
      specialize (T2 (t ++ evs)).
      change (with_trace (t ++ evs) (advance n evs w)) with (advance n evs (with_trace t w)) in T2.
      by rewrite T2, !advance_advance.
Qed.

Lemma readonly_path_exists p : readonly (path_exists p).
Proof.
  intros [fs ds fm flts tr]. eexists _, [EvExists p], 0%nat.
  unfold path_exists, bind, emit, advance, with_trace; simpl.
  repeat split; intros; by rewrite ?drop_0.
Qed.

Lemma readonly_repo_get_latest_file code : readonly (repo_get_latest_file code).
Proof.
  intros [fs ds fm flts tr]. eexists _, [], 0%nat.
  unfold repo_get_latest_file, advance, with_trace; simpl.
  repeat split; intros; by rewrite ?drop_0, ?app_nil_r.
Qed.

Lemma readonly_read_csv p : readonly (read_csv p).
Proof.
  intros [fs ds fm flts tr].
  destruct flts as [|[|e torn] flts].
  - exists (match fs !! p with Some df => Ok df | None => Raise OSError end), [EvRead p], 0%nat.
    unfold read_csv, bind, emit, next_fault, advance, with_trace; simpl.
    repeat split; intros; rewrite ?drop_0; destruct (fs !! p); reflexivity.
  - exists (match fs !! p with Some df => Ok df | None => Raise OSError end), [EvRead p], 1%nat.
    unfold read_csv, bind, emit, next_fault, advance, with_trace; simpl.
    repeat split; intros; rewrite ?drop_0; destruct (fs !! p); reflexivity.
  - exists (Raise e), [EvRead p], 1%nat.
    unfold read_csv, bind, emit, next_fault, advance, with_trace, raise; simpl.
    repeat split; intros; by rewrite ?drop_0.
Qed.

Lemma readonly_last_updated_date cur : readonly (last_updated_date cur).
Proof.
  unfold last_updated_date.
  destruct cur as [[|a p]|]; try apply readonly_ret.
  apply readonly_try_except; [|intros; apply readonly_ret].
  destruct (3 <=? _)%nat; [apply readonly_ret|].
  apply readonly_try_except; [|intros; apply readonly_ret].
  apply readonly_bind; [apply readonly_read_csv|].
  intros df. destruct (negb _); apply readonly_ret.
Qed.

Lemma readonly_locate code sc dq : readonly (locate code sc dq).
Proof.
  unfold locate.
  apply readonly_bind; [apply readonly_path_exists|]. intros present.
  destruct (negb present); [apply readonly_ret|].
  apply readonly_bind; [apply readonly_repo_get_latest_file|]. intros cur.
  apply readonly_bind; [apply readonly_last_updated_date|]. intros located.
  destruct located as [o|[last|]]; try apply readonly_ret.
  destruct cur as [p|]; [|apply readonly_ret].
  destruct (String.eqb last ""); apply readonly_ret.
Qed.

End Readonly.

(** ** The freshness check *)

Lemma try_except_inv {A} (m : M A) (h : exn → M A) w r w' :
  try_except m h w = (r, w') →
  (∃ a, r = Ok a ∧ m w = (Ok a, w')) ∨ ∃ e w1, m w = (Raise e, w1) ∧ h e w1 = (r, w').
Proof.
  unfold try_except. destruct (m w) as [[a|e] w1].
  - intros [= <- <-]. left. eauto.
  - intros H. right. eauto.
Qed.

Lemma not_ge_lt a b : Py.ge a b = false → Py.lt a b = true.
Proof.
  unfold Py.lt, Py.ge, String.ltb, String.leb.
  rewrite (String.compare_antisym a b).
  by destruct (String.compare b a).
Qed.

(** The update once the last-updated date is found: it goes on from the
    world that locating left. *)
Lemma update_from_located api sort todt (code sc dq target : string) test w p last w1 :
  locate code sc dq w = (Ok (inr (p, last)), w1) →
  update_file_for_code api sort todt code sc dq target test w
  = update_from api sort todt code sc dq target test p last w1.
Proof. intros H. unfold update_file_for_code. by rewrite (bind_run _ _ _ _ _ H). Qed.

Lemma locate_same code sc dq w r w1 :
  locate code sc dq w = (r, w1) →
  files w1 = files w ∧ dirs w1 = dirs w ∧ file_map w1 = file_map w ∧
  ∃ evs, trace w1 = trace w ++ evs ∧ forallb quiet evs = true.
Proof.
  intros H. destruct (readonly_locate code sc dq w) as (r0 & evs & k & E & Q & _).
  rewrite E in H. injection H as _ <-. repeat split; try done. by exists evs.
Qed.

(** C6, amended: when the last-updated date is not before the target, the
    update returns [ALREADY_LATEST] with disk and index as they were and no
    fetch, write, move or removal in the trace.  A run with no new upstream
    data, such as a second run in succession, leaves disk and index as they
    were, whatever the last-updated date; it returns [ALREADY_LATEST]
    exactly when that date is not before the target, and otherwise, for
    valid dates and outside a dry run, [NO_NEW_DATA] after one request. *)
Theorem already_latest_is_idle api sort todt (code sc dq target : string) (test : bool)
    (w : world) (p last : string) (w1 : world) :
  locate code sc dq w = (Ok (inr (p, last)), w1) →
  (Py.ge last target = true →
   update_file_for_code api sort todt code sc dq target test w = (Ok ALREADY_LATEST, w1) ∧
   files w1 = files w ∧ dirs w1 = dirs w ∧ file_map w1 = file_map w ∧
   ∃ evs, trace w1 = trace w ++ evs ∧ forallb quiet evs = true) ∧
  (no_new_data api →
   ∀ r w', update_file_for_code api sort todt code sc dq target test w = (r, w') →
     files w' = files w ∧ dirs w' = dirs w ∧ file_map w' = file_map w ∧
     (r = Ok ALREADY_LATEST ↔ Py.ge last target = true) ∧
     (is_yyyymmdd_from 1000 last → is_yyyymmdd target →
      Py.ge last target = false → test = false →
      r = Ok NO_NEW_DATA ∧
      ∃ f, from_date_str last = Ok f ∧
           trace w' = trace w1 ++ [EvSleep; EvFetch code f target])).
Proof.
  intros Hloc. rewrite (update_from_located _ _ _ _ _ _ _ _ _ _ _ _ Hloc).
  destruct (locate_same _ _ _ _ _ _ Hloc) as (Hfs & Hds & Hfm & Hevs).
  split.
  { intros Hge. unfold update_from. rewrite Hge. done. }
  intros Hno r w'. unfold update_from.
  destruct (Py.ge last target) eqn:Hge.
  { intros [= <- <-]. repeat split; try done. }
  unfold lift at 1, bind at 1.
  destruct (from_date_str last) as [f|e] eqn:Hf.
  2:{ intros [= <- <-]. do 4 (split; [done|]).
      intros Hl Ht _ _.
      destruct (from_date_str_le last target Hl Ht (not_ge_lt _ _ Hge)) as (f & Hf' & _).
      congruence. }
  destruct (Py.gt f target) eqn:Hgt.
  { intros [= <- <-]. do 4 (split; [done|]).
    intros Hl Ht _ _.
    destruct (from_date_str_le last target Hl Ht (not_ge_lt _ _ Hge)) as (f' & Hf' & _ & Hle).
    apply le_not_gt in Hle. congruence. }
  unfold try_except, fetch_and_merge. destruct test.
  { intros [= <- <-]. repeat split; try done. }
  unfold emit at 1, bind at 1, fetch, emit at 1, bind at 1, bind at 1, lift at 1.
  rewrite Hno. cbn [Pd.empty]. intros [= <- <-]. cbn [files dirs file_map trace].
  do 4 (split; [done|]). intros _ _ _ _. split; [done|].
  exists f. split; [done|]. by rewrite <- app_assoc.
Qed.

Lemma already_latest_is_idle_witness :
  let w := mkworld {[ "dq/3700/72030_2024fy_20250325.csv" := [mkrow "2025-03-25" ["4"]] ]}
                   {[ "dq/3700" ]}
                   {[ "72030" := ["dq/3700/72030_2024fy_20250325.csv"] ]} [] [] in
  let w1 := advance 0 [EvExists "dq/3700"] w in
  locate "72030" "3700" "dq" w
  = (Ok (inr ("dq/3700/72030_2024fy_20250325.csv", "20250325")), w1) ∧
  Py.ge "20250325" "20250325" = true ∧
  update_file_for_code (λ _ _ _, Ok []) sort_by_date parse_iso
    "72030" "3700" "dq" "20250325" false w = (Ok ALREADY_LATEST, w1) ∧
  files w1 = files w.
Proof.
  intros w w1.
  assert (Hloc : locate "72030" "3700" "dq" w
                 = (Ok (inr ("dq/3700/72030_2024fy_20250325.csv", "20250325")), w1))
    by (vm_compute; reflexivity).
  split; [exact Hloc|]. split; [reflexivity|].
  destruct (already_latest_is_idle (λ _ _ _, Ok []) sort_by_date parse_iso
              "72030" "3700" "dq" "20250325" false w
              "dq/3700/72030_2024fy_20250325.csv" "20250325" w1 Hloc)
    as [Hidle _].
  destruct (Hidle eq_refl) as (Hup & Hfiles & _).
  split; assumption.
Defined.

(** C6, as worded, fails for the second of two runs when the first one did
    not reach the target.  The first run fetches the rows up to March 24,
    short of the target March 25, and names the file for March 24; the
    second run, with no new upstream data, asks for the rows from March 25
    on, gets none and returns [NO_NEW_DATA], not [ALREADY_LATEST]; the files
    are as the first run left them. *)
Lemma second_run_is_no_new_data :
  let cur := "dq/3700/72030_2024fy_20250320.csv" in
  let old := [mkrow "2025-03-19" ["1"]; mkrow "2025-03-20" ["2"]] in
  let fetched := [mkrow "2025-03-21" ["3"]; mkrow "2025-03-24" ["4"]] in
  let w := mkworld {[ cur := old ]} {[ "dq/3700" ]} {[ "72030" := [cur] ]} [] [] in
  let update api := update_file_for_code api sort_by_date parse_iso
                      "72030" "3700" "dq" "20250325" false in
  let first := update (λ _ _ _, Ok fetched) w in
  let second := update (λ _ _ _, Ok []) (snd first) in
  fst first = Ok UPDATED ∧
  map_to_list (files (snd first))
  = [("dq/3700/72030_2024fy_20250324.csv", old ++ fetched)] ∧
  fst second = Ok NO_NEW_DATA ∧
  map_to_list (files (snd second)) = map_to_list (files (snd first)) ∧
  trace (snd second) = trace (snd first)
    ++ [EvExists "dq/3700"; EvSleep; EvFetch "72030" "20250325" "20250325"] ∧
  (second_run_already_latest (λ _ _ _, Ok fetched) (λ _ _ _, Ok []) sort_by_date parse_iso
     "72030" "3700" "dq" "20250325" w → False).
Proof.
  intros cur old fetched w update first second.
  split; [vm_compute; reflexivity|]. split; [vm_compute; reflexivity|].
  split; [vm_compute; reflexivity|]. split; [vm_compute; reflexivity|].
  split; [vm_compute; reflexivity|].
  intros H.
  destruct (H (λ _ _ _, eq_refl) (fst first) (snd first)) as (w2 & E & _).
  { exact (surjective_pairing first). }
  apply (f_equal fst) in E. vm_compute in E. discriminate.
Qed.

(** ** Exceptions at the boundary of the update *)

(** Once the start of the window is computed, every exception of the fetch,
    the merge and the write becomes an outcome. *)
Lemma update_from_returns api sort todt code sc dq target test p last f w :
  from_date_str last = Ok f →
  ∃ o, fst (update_from api sort todt code sc dq target test p last w) = Ok o.
Proof.
  intros Hf. unfold update_from.
  destruct (Py.ge last target); [by eexists|].
  unfold lift at 1, bind at 1. rewrite Hf.
  destruct (Py.gt f target); [by eexists|].
  unfold try_except.
  destruct (fetch_and_merge _ _ _ _ _ _ _ _ _ _) as [[o|e] w']; by eexists.
Qed.

(** C4: the latest file of the instrument is named for February 30; its
    date field is before the target, [strptime] raises [ValueError] outside
    of the [try], and the update raises instead of returning an outcome. *)
Theorem update_raises_on_impossible_date :
  ∀ api sort todt test,
    fst (update_file_for_code api sort todt "72030" "3700" "dq" "20250325" test
           (mkworld {[ "dq/3700/72030_2024fy_20250230.csv" := [mkrow "2025-02-28" ["1"]] ]}
                    {[ "dq/3700" ]}
                    {[ "72030" := ["dq/3700/72030_2024fy_20250230.csv"] ]} [] []))
    = Raise ValueError.
Proof. intros. vm_compute. reflexivity. Qed.

(** ** The dry run *)

Lemma path_exists_trace p w r w' :
  path_exists p w = (r, w') → trace w' = trace w ++ [EvExists p].
Proof. unfold path_exists, bind, emit; simpl. by intros [= _ <-]. Qed.

Lemma read_csv_trace p w r w' :
  read_csv p w = (r, w') → trace w' = trace w ++ [EvRead p].
Proof.
  unfold read_csv, bind, emit, next_fault, raise; simpl.
  destruct (faults w) as [|[|e torn] flts]; simpl.
  - destruct (files w !! p); by intros [= _ <-].
  - destruct (files w !! p); by intros [= _ <-].
  - by intros [= _ <-].
Qed.

(** What locating adds to the trace when it finds a date: the query for
    the sector directory and, for a file name without date field, the read
    of that file. *)
Lemma locate_events code sc dq w p last w1 :
  locate code sc dq w = (Ok (inr (p, last)), w1) →
  trace w1 = trace w ++ EvExists (Py.join dq sc)
               :: (if (3 <=? length (Py.split "_" (Py.basename p)))%nat then []
                   else [EvRead p]).
Proof.
  unfold locate. intros (present & wA & HA & H)%bind_Ok_inv.
  apply path_exists_trace in HA.
  destruct present; simpl in H; [|discriminate].
  apply bind_Ok_inv in H as (cur & wB & HB & H).
  unfold repo_get_latest_file in HB. injection HB as _ <-.
  apply bind_Ok_inv in H as (located & wC & HC & H).
  destruct located as [o|[last'|]]; [discriminate| |destruct cur; discriminate].
  destruct cur as [p'|]; [|discriminate].
  destruct (String.eqb last' ""); [discriminate|].
  injection H as -> -> ->.
  unfold last_updated_date in HC. destruct p as [|a p]; [discriminate|].
  apply try_except_inv in HC as [(x & [= <-] & HC)|(e & w2 & _ & [=])].
  destruct (3 <=? _)%nat.
  - injection HC as _ <-. by rewrite HA.
  - apply try_except_inv in HC as [(x & [= <-] & HC)|(e & w2 & _ & [=])].
    apply bind_Ok_inv in HC as (df & wD & HD & HC).
    apply read_csv_trace in HD.
    destruct (negb _); injection HC as _ <-; rewrite HD, HA; by rewrite <- app_assoc.
Qed.

(** C7, amended: in a dry run with valid date strings, the last-updated
    date of the year 1000 or later and before the target, the update returns
    [UPDATED] with disk and index as they were; the trace gains the query
    for the sector directory and, only when the latest file has no date
    field in its name, one read of that file; there is no fetch and no
    write. *)
Theorem dry_run_reads_dateless_file_only api sort todt (code sc dq target : string)
    (w : world) (p last : string) (w1 : world) :
  locate code sc dq w = (Ok (inr (p, last)), w1) →
  is_yyyymmdd_from 1000 last → is_yyyymmdd target → Py.lt last target = true →
  update_file_for_code api sort todt code sc dq target true w = (Ok UPDATED, w1) ∧
  files w1 = files w ∧ file_map w1 = file_map w ∧
  trace w1 = trace w ++ EvExists (Py.join dq sc)
               :: (if (3 <=? length (Py.split "_" (Py.basename p)))%nat then []
                   else [EvRead p]).
Proof.
  intros Hloc Hl Ht Hlt.
  destruct (from_date_str_le last target Hl Ht Hlt) as (f & Hf & _ & Hle%le_not_gt).
  split; [|split; [|split]].
  - unfold update_file_for_code. rewrite (bind_run _ _ _ _ _ Hloc).
    unfold update_from. rewrite (lt_not_ge _ _ Hlt).
    unfold lift at 1, bind at 1. by rewrite Hf, Hle.
  - destruct (readonly_locate code sc dq w) as (r & evs & k & E & _).
    rewrite E in Hloc. by injection Hloc as _ <-.
  - destruct (readonly_locate code sc dq w) as (r & evs & k & E & _).
    rewrite E in Hloc. by injection Hloc as _ <-.
  - exact (locate_events _ _ _ _ _ _ _ Hloc).
Qed.

Lemma dry_run_reads_dateless_file_only_witness :
  let w := mkworld {[ "dq/3700/72030_2024fy_20250320.csv" := [mkrow "2025-03-20" ["2"]] ]}
                   {[ "dq/3700" ]}
                   {[ "72030" := ["dq/3700/72030_2024fy_20250320.csv"] ]} [] [] in
  let w1 := advance 0 [EvExists "dq/3700"] w in
  locate "72030" "3700" "dq" w
  = (Ok (inr ("dq/3700/72030_2024fy_20250320.csv", "20250320")), w1) ∧
  is_yyyymmdd_from 1000 "20250320" ∧ is_yyyymmdd "20250325" ∧
  Py.lt "20250320" "20250325" = true ∧
  update_file_for_code (λ _ _ _, Ok []) sort_by_date parse_iso
    "72030" "3700" "dq" "20250325" true w = (Ok UPDATED, w1) ∧
  trace w1 = [EvExists "dq/3700"].
Proof.
  intros w w1.
  assert (H0 : locate "72030" "3700" "dq" w
               = (Ok (inr ("dq/3700/72030_2024fy_20250320.csv", "20250320")), w1))
    by (vm_compute; reflexivity).
  assert (H1 : is_yyyymmdd_from 1000 "20250320").
  { exists (mkdate 2025 3 20). split; [reflexivity|]. split; [simpl; lia|reflexivity]. }
  assert (H2 : is_yyyymmdd "20250325") by (exists (mkdate 2025 3 25); split; reflexivity).
  destruct (dry_run_reads_dateless_file_only (λ _ _ _, Ok []) sort_by_date parse_iso
              "72030" "3700" "dq" "20250325" w
              "dq/3700/72030_2024fy_20250320.csv" "20250320" w1 H0 H1 H2 eq_refl)
    as (Hup & _ & _ & Htr).
  repeat split; try assumption; reflexivity.
Defined.

(** C7, as worded, fails for an instrument whose only file is archived: the
    dry run returns [UPDATED] after reading that file to find the
    last-updated date. *)
Lemma dry_run_reads_archived_file :
  let w := mkworld {[ "dq/3700/72030_2024fy.csv"
                      := [mkrow "2025-03-19" ["1"]; mkrow "2025-03-20" ["2"]] ]}
                   {[ "dq/3700" ]}
                   {[ "72030" := ["dq/3700/72030_2024fy.csv"] ]} [] [] in
  let run := update_file_for_code (λ _ _ _, Ok []) sort_by_date parse_iso
               "72030" "3700" "dq" "20250325" true w in
  fst run = Ok UPDATED ∧
  trace (snd run) = [EvExists "dq/3700"; EvRead "dq/3700/72030_2024fy.csv"] ∧
  (dry_run_without_io (λ _ _ _, Ok []) sort_by_date parse_iso
     "72030" "3700" "dq" "20250325" w → False).
Proof.
  intros w run.
  split; [vm_compute; reflexivity|]. split; [vm_compute; reflexivity|].
  intros H.
  edestruct (H "dq/3700/72030_2024fy.csv" "20250320") as (w' & evs & Hup & Htr & Hq);
    [vm_compute; reflexivity | reflexivity |].
  vm_compute in Hup. injection Hup as <-. simpl in Htr. subst evs.
  vm_compute in Hq. discriminate.
Qed.

(** ** Order of date strings *)

Lemma py_le_refl a : Py.le a a = true.
Proof. apply Is_true_true. change (String.le a a). reflexivity. Qed.

Lemma py_le_trans a b c : Py.le a b = true → Py.le b c = true → Py.le a c = true.
Proof.
  intros H1%Is_true_true H2%Is_true_true. apply Is_true_true.
  change (String.le a c). by etrans.
Qed.

Lemma py_le_antisym a b : Py.le a b = true → Py.le b a = true → a = b.
Proof. apply String.leb_antisym. Qed.

Lemma py_lt_le a b : Py.lt a b = true → Py.le a b = true.
Proof. unfold Py.lt, Py.le, String.ltb, String.leb. by destruct (String.compare a b). Qed.

Lemma py_not_lt_ge a b : Py.lt a b = false → Py.le b a = true.
Proof.
  unfold Py.lt, Py.le, String.ltb, String.leb.
  rewrite (String.compare_antisym a b). by destruct (String.compare b a).
Qed.

(** ** The stable insertion sort is a [sort_values] *)

Lemma py_not_le_lt a b : Py.le a b = false → Py.lt b a = true.
Proof.
  unfold Py.lt, Py.le, String.ltb, String.leb.
  rewrite (String.compare_antisym a b). by destruct (String.compare b a).
Qed.

Lemma insert_by_date_perm r l : Permutation (insert_by_date r l) (r :: l).
Proof.
  induction l as [|x l IH]; simpl; [done|].
  destruct (Py.le (Date r) (Date x)); [done|].
  rewrite IH. apply perm_swap.
Qed.

Lemma insert_by_date_sorted r l :
  StronglySorted date_order l → StronglySorted date_order (insert_by_date r l).
Proof.
  induction 1 as [|x l Hs IH Hx]; simpl; [repeat constructor|].
  destruct (Py.le (Date r) (Date x)) eqn:E.
  - constructor; [by constructor|].
    constructor; [done|].
    eapply Forall_impl; [exact Hx|]. intros y Hy. by eapply py_le_trans.
  - constructor; [done|].
    rewrite (insert_by_date_perm r l). constructor; [|done].
    by apply py_lt_le, py_not_le_lt.
Qed.

(** The sort is stable: rows of equal date keep their order. *)
Example sort_by_date_stable :
  sort_by_date [mkrow "2025-03-21" ["a"]; mkrow "2025-03-20" ["b"]; mkrow "2025-03-21" ["c"]]
  = [mkrow "2025-03-20" ["b"]; mkrow "2025-03-21" ["a"]; mkrow "2025-03-21" ["c"]].
Proof. reflexivity. Qed.

Lemma sort_by_date_sorts : sorts_by_date sort_by_date.
Proof.
  intros df. induction df as [|r df [IHp IHs]]; simpl.
  - split; [done|constructor].
  - split.
    + by rewrite insert_by_date_perm, IHp.
    + by apply insert_by_date_sorted.
Qed.

(** ** [drop_duplicates(keep="last")] *)

Section DropDuplicates.

Lemma existsb_same_date (r : row) (l : DataFrame) :
  existsb (λ r', String.eqb (Date r') (Date r)) l = true ↔ Date r ∈ Date <$> l.
Proof.
  rewrite existsb_exists, list_elem_of_fmap. split.
  - intros (x & Hx%list_elem_of_In & E%String.eqb_eq). eauto.
  - intros (x & E & Hx%list_elem_of_In). exists x. split; [done|].
    by apply String.eqb_eq.
Qed.

Lemma drop_duplicates_last_sub l r : r ∈ Pd.drop_duplicates_last l → r ∈ l.
Proof.
  induction l as [|x l IH]; simpl; [done|].
  destruct (existsb _ l).
  - intros ?. right. auto.
  - intros [->|?]%elem_of_cons; [left|right; auto].
Qed.

Lemma drop_duplicates_last_dates l d :
  d ∈ Date <$> Pd.drop_duplicates_last l ↔ d ∈ Date <$> l.
Proof.
  induction l as [|x l IH]; simpl; [done|].
  destruct (existsb _ l) eqn:E.
  - rewrite IH. apply existsb_same_date in E. rewrite elem_of_cons.
    split; [by right|]. by intros [->|?].
  - simpl. rewrite !elem_of_cons. by rewrite IH.
Qed.

Lemma drop_duplicates_last_NoDup l : NoDup (Date <$> Pd.drop_duplicates_last l).
Proof.
  induction l as [|x l IH]; simpl; [constructor|].
  destruct (existsb _ l) eqn:E; [done|].
  simpl. constructor; [|done].
  rewrite drop_duplicates_last_dates. intros H%existsb_same_date. congruence.
Qed.

(** The rows of the first table survive only on dates that the second does
    not have. *)
Lemma drop_duplicates_last_app a b :
  Pd.drop_duplicates_last (a ++ b) =
  List.filter (λ r, negb (existsb (λ r', String.eqb (Date r') (Date r)) b))
              (Pd.drop_duplicates_last a)
  ++ Pd.drop_duplicates_last b.
Proof.
  induction a as [|x a IH]; simpl; [done|].
  rewrite existsb_app.
  destruct (existsb _ a) eqn:Ea; simpl; [done|].
  destruct (existsb _ b) eqn:Eb; simpl; [done|]. by rewrite IH.
Qed.

Lemma drop_duplicates_last_new_wins a b r :
  r ∈ Pd.drop_duplicates_last (a ++ b) → Date r ∈ Date <$> b → r ∈ b.
Proof.
  rewrite drop_duplicates_last_app, elem_of_app.
  intros [H|H] Hd; [|by apply drop_duplicates_last_sub].
  apply list_elem_of_In, filter_In in H as [_ H].
  apply existsb_same_date in Hd. by rewrite Hd in H.
Qed.

End DropDuplicates.

(** ** The merge *)

Section Merge.

Variable sort_values : DataFrame → DataFrame.
Hypothesis sort_ok : sorts_by_date sort_values.

Lemma merge_elem df r : r ∈ merge sort_values df ↔ r ∈ Pd.drop_duplicates_last df.
Proof. unfold merge. destruct (sort_ok (Pd.drop_duplicates_last df)) as [P _]. by rewrite P. Qed.

Lemma merge_NoDup df : NoDup (Date <$> merge sort_values df).
Proof.
  unfold merge. destruct (sort_ok (Pd.drop_duplicates_last df)) as [P _].
  rewrite P. apply drop_duplicates_last_NoDup.
Qed.

Lemma merge_sorted df : StronglySorted date_order (merge sort_values df).
Proof. unfold merge. by destruct (sort_ok (Pd.drop_duplicates_last df)). Qed.

Lemma merge_dates df d : d ∈ Date <$> merge sort_values df ↔ d ∈ Date <$> df.
Proof.
  unfold merge. destruct (sort_ok (Pd.drop_duplicates_last df)) as [P _].
  rewrite P. apply drop_duplicates_last_dates.
Qed.

End Merge.

(** ** What a successful save and the removal of the old file do *)

Lemma atomic_save_Ok df filepath w w' :
  atomic_save df filepath w = (Ok tt, w') →
  files w' = <[filepath := df]> (delete (filepath +:+ ".tmp") (files w)) ∧
  dirs w' = dirs w ∧ file_map w' = file_map w.
Proof.
  unfold atomic_save. intros [(x & _ & H)|(e & w1 & _ & H)]%try_except_inv.
  - destruct w as [fs ds fm flts tr]. revert H. run_io.
    destruct flts as [|[|e0 torn] flts]; proj_io.
    + rewrite lookup_insert_ne by apply tmp_ne.
      destruct (fs !! filepath); [|destruct (bool_decide _)]; proj_io;
        rewrite lookup_insert_eq; intros ?; simplify_eq; proj_io;
        by rewrite delete_insert_eq.
    + rewrite lookup_insert_ne by apply tmp_ne.
      destruct (fs !! filepath); [|destruct (bool_decide _)]; proj_io;
        (destruct flts as [|[|e1 torn1] flts]; proj_io;
         rewrite ?lookup_insert_eq; intros ?; simplify_eq; proj_io;
         by rewrite delete_insert_eq).
    + destruct torn; proj_io; intros ?; simplify_eq.
  - by apply cleanup_spec in H as ([=] & _).
Qed.

Lemma remove_old_files code cur w r w' :
  remove_old code cur w = (r, w') →
  r = Ok tt ∧ dirs w' = dirs w ∧
  (files w' = files w ∨ files w' = delete cur (files w)).
Proof.
  destruct w as [fs ds fm flts tr]. unfold remove_old. run_io.
  destruct flts as [|[|e0 torn] flts]; proj_io.
  - destruct (fs !! cur); proj_io; intros ?; simplify_eq; proj_io; auto.
  - destruct (fs !! cur); proj_io; intros ?; simplify_eq; proj_io; auto.
  - intros ?; simplify_eq; proj_io; auto.
Qed.

Lemma remove_old_keeps code cur w r w' q :
  remove_old code cur w = (r, w') → q ≠ cur → files w' !! q = files w !! q.
Proof.
  intros (_ & _ & [-> | ->])%remove_old_files Hq; [done|]. by rewrite lookup_delete_ne.
Qed.

Lemma read_csv_Ok p w df w' :
  read_csv p w = (Ok df, w') →
  files w' = files w ∧ dirs w' = dirs w ∧ file_map w' = file_map w ∧
  files w !! p = Some df.
Proof.
  destruct w as [fs ds fm flts tr]. run_io.
  destruct flts as [|[|e torn] flts]; proj_io; try discriminate;
    destruct (fs !! p); intros ?; simplify_eq; done.
Qed.

Lemma normalize_dates_app todt a b ab :
  normalize_dates todt (a ++ b) = Ok ab →
  ∃ a' b', normalize_dates todt a = Ok a' ∧ normalize_dates todt b = Ok b' ∧ ab = a' ++ b'.
Proof.
  revert ab. induction a as [|r a IH]; intros ab; simpl.
  - intros H. by exists [], ab.
  - destruct (todt (Date r)) as [d|]; simpl; [|done].
    destruct (normalize_dates todt (a ++ b)) as [x|] eqn:E; simpl; [|done].
    intros [= <-]. destruct (IH x eq_refl) as (a' & b' & -> & -> & ->).
    simpl. eauto.
Qed.

Lemma normalize_dates_cells todt df df' :
  normalize_dates todt df = Ok df' → normalised todt df df'.
Proof.
  revert df'. induction df as [|r df IH]; intros df'; simpl.
  - intros [= <-]. constructor.
  - destruct (todt (Date r)) as [d|] eqn:Ed; simpl; [|done].
    destruct (normalize_dates todt df) as [x|]; simpl; [|done].
    intros [= <-]. constructor; [|by apply IH]. simpl. eauto.
Qed.

(** ** Runs without faults *)

Lemma atomic_save_run df filepath w :
  faults w = [] →
  ∃ evs, atomic_save df filepath w
         = (Ok tt, mkworld (<[filepath := df]> (delete (filepath +:+ ".tmp") (files w)))
                           (dirs w) (file_map w) [] (trace w ++ evs)).
Proof.
  destruct w as [fs ds fm flts tr]. simpl. intros ->. run_io.
  rewrite lookup_insert_ne by apply tmp_ne.
  destruct (fs !! filepath); [|destruct (bool_decide _)]; proj_io;
    rewrite lookup_insert_eq, delete_insert_eq, <- !app_assoc; by eexists.
Qed.


(** ** The update within a fiscal year *)



(** ** The two partition paths of a rollover differ *)

Section Paths.

Lemma has_char_append c a b : has_char c (a +:+ b) = has_char c a || has_char c b.
Proof.
  induction a as [|x a IH]; [done|].
  rewrite append_String. simpl. by rewrite IH, orb_assoc.
Qed.

Lemma pretty_N_char_not_f k : Ascii.eqb (pretty_N_char k) "f" = false.
Proof. unfold pretty_N_char. by repeat case_match. Qed.

Lemma pretty_N_go_no_f x s :
  has_char "f" s = false → has_char "f" (pretty_N_go x s) = false.
Proof.
  revert s. induction (N.lt_wf_0 x) as [x _ IH]; intros s Hs.
  assert (x = 0 ∨ 0 < x)%N as [->|Hx] by lia; [by rewrite pretty_N_go_0|].
  rewrite pretty_N_go_step by done. apply IH.
  - by apply N.div_lt.
  - simpl. by rewrite pretty_N_char_not_f.
Qed.

Lemma pretty_Z_no_f (z : Z) : has_char "f" (pretty z) = false.
Proof.
  destruct z as [|p|p]; [done|..].
  - unfold pretty, pretty_Z, pretty, pretty_positive, pretty, pretty_N.
    case_decide; [done|]. by apply pretty_N_go_no_f.
  - unfold pretty, pretty_Z. rewrite has_char_append. simpl.
    unfold pretty, pretty_positive, pretty, pretty_N.
    case_decide; [done|]. by apply pretty_N_go_no_f.
Qed.

(** Two strings cut at their first [c] agree on both sides. *)
Lemma append_cut c a b r1 r2 :
  has_char c a = false → has_char c b = false →
  a +:+ String c r1 = b +:+ String c r2 → a = b ∧ r1 = r2.
Proof.
  revert b. induction a as [|x a IH]; intros [|y b]; simpl.
  - intros _ _. rewrite !append_empty_l. by intros [= ->].
  - intros _ [Hy _]%orb_false_iff. rewrite append_empty_l, append_String.
    intros [= -> _]. by rewrite Ascii.eqb_refl in Hy.
  - intros [Hx _]%orb_false_iff _. rewrite append_empty_l, append_String.
    intros [= -> _]. by rewrite Ascii.eqb_refl in Hx.
  - intros [_ Ha]%orb_false_iff [_ Hb]%orb_false_iff. rewrite !append_String.
    intros [= -> H]. by destruct (IH b Ha Hb H) as [-> ->].
Qed.

Lemma startswith_slash_common code x y :
  Py.startswith "/" (code +:+ "_" +:+ x) = Py.startswith "/" (code +:+ "_" +:+ y).
Proof. destruct code as [|c code]; [done|]. by rewrite !append_String. Qed.

Lemma join_inj_common dir code x y :
  Py.join dir (code +:+ "_" +:+ x) = Py.join dir (code +:+ "_" +:+ y) → x = y.
Proof.
  unfold Py.join. rewrite (startswith_slash_common code x y).
  destruct (Py.startswith "/" _).
  - by intros ?%(inj (String.app code))%(inj (String.app "_")).
  - destruct (_ || _).
    + by intros ?%(inj (String.app dir))%(inj (String.app code))%(inj (String.app "_")).
    + rewrite <- !(append_assoc dir "/").
      by intros ?%(inj (String.app _))%(inj (String.app code))%(inj (String.app "_")).
Qed.

Lemma archive_ne_live dir code fy fy' plain :
  Py.join dir (archive_filename code fy) ≠ Py.join dir (live_filename code fy' plain).
Proof.
  unfold archive_filename, live_filename. intros E%join_inj_common.
  change (pretty fy +:+ String "f" "y.csv"
          = pretty fy' +:+ String "f" ("y_" +:+ plain +:+ ".csv")) in E.
  by apply append_cut in E as [_ [=]]; try apply pretty_Z_no_f.
Qed.

Lemma csv_ne_tmp p q :
  Py.endswith ".csv" p = true → p ≠ q +:+ ".tmp".
Proof.
  intros H ->. apply endswith_csv_not_tmp in H. by rewrite endswith_tmp_append in H.
Qed.

Lemma archive_path_csv dir code fy :
  Py.endswith ".csv" (Py.join dir (archive_filename code fy)) = true.
Proof.
  apply endswith_join, endswith_spec. exists (code +:+ "_" +:+ pretty fy +:+ "fy").
  unfold archive_filename. by rewrite !append_assoc.
Qed.

Lemma live_path_csv dir code fy plain :
  Py.endswith ".csv" (Py.join dir (live_filename code fy plain)) = true.
Proof.
  apply endswith_join, endswith_spec.
  exists (code +:+ "_" +:+ pretty fy +:+ "fy_" +:+ plain).
  unfold live_filename. by rewrite !append_assoc.
Qed.

End Paths.

(** ** Dates in file names *)

Section DateNames.

Lemma digit_char_decimal k : 0 <= k <= 9 → Py.is_decimal (Py.digit_char k) = true.
Proof.
  intros Hk. pose proof (digit_val_digit_char k Hk) as H.
  unfold Py.digit_val in H. by destruct (Py.is_decimal _).
Qed.

Lemma has_char_zpad c w n : Py.is_decimal c = false → has_char c (Py.zpad w n) = false.
Proof.
  intros Hc. induction w as [|w IH]; [done|]. simpl. rewrite IH, orb_false_r.
  apply Ascii.eqb_neq. intros E.
  rewrite <- E, digit_char_decimal in Hc; [done|].
  pose proof (Z.mod_pos_bound (n / 10 ^ Z.of_nat w) 10). lia.
Qed.

Lemma has_char_yyyymmdd_plain c d :
  Py.is_decimal c = false → has_char c (yyyymmdd None d) = false.
Proof.
  intros Hc. unfold yyyymmdd, sep_string.
  rewrite !has_char_append, !has_char_zpad by done. done.
Qed.

Lemma replace_go_dash new x s :
  Py.replace_go "-" new 0 (String x s) =
  if Ascii.eqb x "-" then new +:+ Py.replace_go "-" new 0 s
  else String x (Py.replace_go "-" new 0 s).
Proof.
  rewrite (Ascii.eqb_sym x). cbn -[Ascii.eqb String.append].
  by destruct (Ascii.eqb "-" x).
Qed.

Lemma replace_dash_none s : has_char "-" s = false → Py.replace "-" "" s = s.
Proof.
  unfold Py.replace. induction s as [|x s IH]; [done|]. rewrite replace_go_dash. simpl.
  intros [Hx Hs]%orb_false_iff. rewrite Hx, IH; done.
Qed.

Lemma replace_dash_app a b :
  has_char "-" a = false →
  Py.replace "-" "" (a +:+ String "-" b) = a +:+ Py.replace "-" "" b.
Proof.
  unfold Py.replace. intros Ha. induction a as [|x a IH].
  - rewrite !append_empty_l, replace_go_dash. simpl. by rewrite append_empty_l.
  - simpl in Ha. apply orb_false_iff in Ha as [Hx Ha].
    rewrite !append_String, replace_go_dash, Hx. by rewrite IH.
Qed.

Lemma replace_yyyymmdd d :
  Py.replace "-" "" (yyyymmdd (Some "-"%char) d) = yyyymmdd None d.
Proof.
  unfold yyyymmdd, sep_string. rewrite !append_empty_l.
  change (Py.zpad 4 (year d) +:+ "-" +:+ Py.zpad 2 (month d) +:+ "-" +:+ Py.zpad 2 (day d))
    with (Py.zpad 4 (year d) +:+ String "-" (Py.zpad 2 (month d) +:+ String "-" (Py.zpad 2 (day d)))).
  rewrite replace_dash_app by (by apply has_char_zpad).
  rewrite replace_dash_app by (by apply has_char_zpad).
  rewrite replace_dash_none by (by apply has_char_zpad). done.
Qed.

Lemma yyyymmdd_nonempty sep d : yyyymmdd sep d ≠ "".
Proof.
  unfold yyyymmdd. intros E%(f_equal String.length).
  rewrite !length_append in E. simpl in E. lia.
Qed.

End DateNames.

(** ** The latest fetched date *)

Lemma str_max_ge_l a b : Py.le a (Pd.str_max a b) = true.
Proof.
  unfold Pd.str_max. destruct (Py.lt a b) eqn:E; [by apply py_lt_le|apply py_le_refl].
Qed.

Lemma str_max_ge_r a b : Py.le b (Pd.str_max a b) = true.
Proof.
  unfold Pd.str_max. destruct (Py.lt a b) eqn:E; [apply py_le_refl|by apply py_not_lt_ge].
Qed.

Lemma fold_str_max_spec (t : DataFrame) acc :
  let m := fold_left (λ acc r', Pd.str_max acc (Date r')) t acc in
  (m = acc ∨ m ∈ Date <$> t) ∧ Py.le acc m = true ∧
  ∀ d, d ∈ Date <$> t → Py.le d m = true.
Proof.
  revert acc. induction t as [|r t IH]; intros acc; simpl.
  - split; [by left|]. split; [apply py_le_refl|]. by intros d ?%elem_of_nil.
  - destruct (IH (Pd.str_max acc (Date r))) as (Hm & Hacc & Hall).
    split; [|split].
    + destruct Hm as [-> | Hm]; [|right; by right].
      unfold Pd.str_max. destruct (Py.lt acc (Date r)); [right; left|left]; done.
    + eapply py_le_trans; [apply str_max_ge_l|exact Hacc].
    + intros d [->|Hd]%elem_of_cons; [|by apply Hall].
      eapply py_le_trans; [apply str_max_ge_r|exact Hacc].
Qed.

Lemma max_date_spec df :
  df ≠ [] →
  Pd.max_date df ∈ Date <$> df ∧ ∀ d, d ∈ Date <$> df → Py.le d (Pd.max_date df) = true.
Proof.
  destruct df as [|r t]; [done|]. intros _. simpl.
  destruct (fold_str_max_spec t (Date r)) as (Hm & Hacc & Hall). split.
  - destruct Hm as [-> | Hm]; [left|by right].
  - by intros d [->|Hd]%elem_of_cons; [|apply Hall].
Qed.

Lemma last_date_sorted df :
  StronglySorted date_order df → df ≠ [] →
  List.last df (mkrow "" []) ∈ df ∧
  ∀ d, d ∈ Date <$> df → Py.le d (Pd.last_date df) = true.
Proof.
  unfold Pd.last_date.
  induction 1 as [|r l Hs IH Hr]; [done|]. intros _.
  destruct l as [|r2 l].
  - split; [left|]. intros d Hd. simpl in Hd.
    apply list_elem_of_singleton in Hd as ->. apply py_le_refl.
  - destruct IH as [Hin Hall]; [done|].
    change (List.last (r :: r2 :: l) (mkrow "" [])) with (List.last (r2 :: l) (mkrow "" [])).
    split; [by right|].
    intros d [->|Hd]%elem_of_cons; [|by apply Hall].
    rewrite Forall_forall in Hr. by apply Hr.
Qed.

Lemma last_date_sort_values sort_values df :
  sorts_by_date sort_values → df ≠ [] →
  Pd.last_date (sort_values df) = Pd.max_date df ∧
  List.last (sort_values df) (mkrow "" []) ∈ df.
Proof.
  intros Hsort Hne. destruct (Hsort df) as [P S].
  assert (Hne' : sort_values df ≠ []).
  { intros E. rewrite E in P. by apply Permutation_nil in P. }
  destruct (last_date_sorted _ S Hne') as [Hin Hall].
  destruct (max_date_spec df Hne) as [Min Mall].
  assert (Hin' : List.last (sort_values df) (mkrow "" []) ∈ df).
  { apply list_elem_of_In. eapply Permutation_in; [exact P|]. by apply list_elem_of_In. }
  split; [|done].
  apply py_le_antisym.
  - apply Mall. apply list_elem_of_fmap. eauto.
  - apply Hall. apply list_elem_of_fmap in Min as (r & -> & Hr).
    apply list_elem_of_fmap. exists r. split; [done|].
    apply list_elem_of_In. eapply Permutation_in; [symmetry; exact P|].
    by apply list_elem_of_In.
Qed.

(** ** The rollover *)

Lemma normalize_dates_iso todt df :
  (∀ r, r ∈ df → ∃ d, Date r = strftime (Some "-"%char) d ∧ todt (Date r) = Ok d) →
  normalize_dates todt df = Ok df.
Proof.
  induction df as [|r df IH]; intros H; simpl; [done|].
  destruct (H r) as (d & Hd & Ht); [left|].
  rewrite Ht. simpl. rewrite IH by (intros; apply H; by right). simpl.
  rewrite <- Hd. by destruct r.
Qed.


Lemma empty_false df : df ≠ [] → Pd.empty df = false.
Proof. by destruct df. Qed.












(** * Further properties

    ** The scan, exactly *)

Section ScanExact.
Import FileRepository.

Lemma split_nonempty c s : Py.split c s ≠ [].
Proof. destruct s as [|a s]; [done|]. simpl. destruct (Ascii.eqb a c); [done|]. by destruct (Py.split c s). Qed.

Lemma split_length_has_char c s :
  (2 <=? length (Py.split c s))%nat = has_char c s.
Proof.
  induction s as [|a s IH]; [done|]. cbn [Py.split has_char].
  pose proof (split_nonempty c s).
  destruct (Ascii.eqb a c); simpl.
  - by destruct (Py.split c s).
  - rewrite <- IH. destruct (Py.split c s) as [|h [|h' t]]; done.
Qed.

Lemma indexed_default fm code p : indexed fm code p ↔ p ∈ default [] (fm !! code).
Proof.
  unfold indexed. destruct (fm !! code) as [l|]; simpl.
  - split; [by intros (? & [= <-] & ?)|eauto].
  - split; [by intros (? & [=] & _)|by intros ?%elem_of_nil].
Qed.

Lemma indexed_scan_file root filename fm code p :
  indexed (scan_file root filename fm) code p ↔
  indexed fm code p ∨ scans root filename code p.
Proof.
  rewrite !indexed_default. unfold scan_file, scans.
  rewrite split_length_has_char.
  destruct (Py.endswith ".csv" filename); [|intuition congruence].
  destruct (has_char "_" filename); [|intuition congruence].
  destruct (decide (List.hd "" (Py.split "_" filename) = code)) as [<-|Hne].
  - rewrite lookup_insert_eq. simpl. rewrite elem_of_app, list_elem_of_singleton. tauto.
  - rewrite lookup_insert_ne by done. intuition congruence.
Qed.

Lemma indexed_scan_entry fm e code p :
  indexed (scan_entry fm e) code p ↔
  indexed fm code p ∨ ∃ filename, filename ∈ snd e ∧ scans (fst (fst e)) filename code p.
Proof.
  unfold scan_entry. destruct e as [[root ds] fs]; simpl.
  revert fm. induction fs as [|f fs IH]; intros fm; simpl.
  - split; [auto|]. intros [?|(f & ?%elem_of_nil & _)]; done.
  - rewrite IH, indexed_scan_file. setoid_rewrite elem_of_cons. split.
    + intros [[?|?]|(g & ? & ?)]; eauto 6.
    + intros [?|(g & [->|?] & ?)]; eauto 6.
Qed.

Lemma indexed_fold_scan entries fm code p :
  indexed (fold_left scan_entry entries fm) code p ↔
  indexed fm code p ∨
  ∃ e filename, e ∈ entries ∧ filename ∈ snd e ∧ scans (fst (fst e)) filename code p.
Proof.
  revert fm. induction entries as [|e es IH]; intros fm; simpl.
  - split; [auto|]. intros [?|(e & f & ?%elem_of_nil & _)]; done.
  - rewrite IH, indexed_scan_entry. setoid_rewrite elem_of_cons. split.
    + intros [[?|(g & ? & ?)]|(e' & g & ? & ? & ?)]; eauto 8.
    + intros [?|(e' & g & [->|?] & ? & ?)]; eauto 8.
Qed.

Lemma no_empty_scan_file root filename fm :
  no_empty_list fm → no_empty_list (scan_file root filename fm).
Proof.
  intros H. unfold scan_file. destruct (Py.endswith _ _); [|done].
  destruct (2 <=? _)%nat; [|done]. intros code.
  destruct (decide (List.hd "" (Py.split "_" filename) = code)) as [<-|Hne].
  - rewrite lookup_insert_eq. intros [= E]. by apply app_nil in E as [_ [=]].
  - rewrite lookup_insert_ne by done. apply H.
Qed.

Lemma no_empty_fold_scan entries fm :
  no_empty_list fm → no_empty_list (fold_left scan_entry entries fm).
Proof.
  revert fm. induction entries as [|e es IH]; intros fm H; simpl; [done|].
  apply IH. unfold scan_entry. destruct e as [[root ds] fs]; simpl. clear IH.
  revert fm H. induction fs as [|f fs IH]; intros fm H; simpl; [done|].
  by apply IH, no_empty_scan_file.
Qed.

(** X1: the index that the scan builds lists a path under a code exactly
    when the walk meets a file whose name ends in [.csv] and has an
    underscore, the code being what precedes the first underscore and the path
    the joined one; no code is listed with an empty list. *)
Theorem scan_indexes_exactly (root_dir : string) (t : tree) (code p : string) :
  (indexed (_scan_files root_dir t) code p ↔
   ∃ root ds fs filename,
     (root, ds, fs) ∈ walk root_dir t ∧ filename ∈ fs ∧ scans root filename code p) ∧
  _scan_files root_dir t !! code ≠ Some [].
Proof.
  split.
  - unfold _scan_files, scan_entries. rewrite indexed_fold_scan. split.
    + intros [(l & H & _)|([[root ds] fs] & f & ? & ? & ?)]; [by rewrite lookup_empty in H|].
      by exists root, ds, fs, f.
    + intros (root & ds & fs & f & ? & ? & ?). right. by exists (root, ds, fs), f.
  - apply no_empty_fold_scan. intros c. by rewrite lookup_empty.
Qed.

End ScanExact.

(** ** Changes of the index *)

Section IndexUpdates.
Import FileRepository.

Lemma indexed_listed fm code p : indexed fm code p ↔ p ∈ listed fm code.
Proof. apply indexed_default. Qed.

Lemma listed_add_file fm code p c :
  listed (add_file fm code p) c =
  if decide (c = code)
  then (if decide (p ∈ listed fm code) then listed fm code else listed fm code ++ [p])
  else listed fm c.
Proof.
  unfold listed, add_file. destruct (decide (c = code)) as [->|Hne].
  - rewrite bool_decide_decide. destruct (decide _); by rewrite lookup_insert_eq.
  - destruct (bool_decide _); by rewrite lookup_insert_ne.
Qed.

(** X2: [add_file] lists the path under the code and lists nothing else
    anew; the paths already listed keep their places, the other codes keep
    their lists, and adding the same path again changes nothing. *)
Theorem add_file_lists_once (fm : gmap string (list string)) (code p : string) :
  (∀ c q, indexed (add_file fm code p) c q ↔ indexed fm c q ∨ (c = code ∧ q = p)) ∧
  (∃ rest, listed (add_file fm code p) code = listed fm code ++ rest) ∧
  (∀ c, c ≠ code → add_file fm code p !! c = fm !! c) ∧
  add_file (add_file fm code p) code p = add_file fm code p.
Proof.
  split; [|split; [|split]].
  - intros c q. rewrite !indexed_listed, listed_add_file.
    destruct (decide (c = code)) as [->|Hne]; [|intuition congruence].
    destruct (decide (p ∈ listed fm code)) as [Hin|Hin].
    + split; [auto|]. by intros [?|[_ ->]].
    + rewrite elem_of_app, list_elem_of_singleton. intuition congruence.
  - rewrite listed_add_file, decide_True by done.
    destruct (decide _); [exists []; by rewrite app_nil_r|by exists [p]].
  - intros c Hne. unfold add_file. destruct (bool_decide _); by rewrite lookup_insert_ne.
  - unfold add_file at 1. fold (listed (add_file fm code p) code).
    rewrite listed_add_file, decide_True by done.
    destruct (decide (p ∈ listed fm code)) as [Hin|Hin].
    + rewrite bool_decide_true by done. unfold add_file. fold (listed fm code).
      rewrite bool_decide_true by done. by rewrite insert_insert_eq.
    + rewrite bool_decide_true by (apply elem_of_app; right; apply list_elem_of_here).
      unfold add_file. fold (listed fm code).
      rewrite bool_decide_false by done. by rewrite insert_insert_eq.
Qed.

Lemma list_remove_spec p l :
  p ∈ l → ∃ l1 l2, l = l1 ++ p :: l2 ∧ (p ∉ l1) ∧ list_remove p l = l1 ++ l2.
Proof.
  induction l as [|y l IH]; [by intros ?%elem_of_nil|]. simpl.
  destruct (String.eqb_spec y p) as [->|Hne].
  - intros _. exists [], l. split; [done|]. split; [apply not_elem_of_nil|done].
  - intros [?|Hin]%elem_of_cons; [congruence|].
    destruct (IH Hin) as (l1 & l2 & -> & Hn & ->).
    exists (y :: l1), l2. split; [done|]. split; [|done].
    intros [?|?]%elem_of_cons; congruence.
Qed.

(** X3: [remove_file] leaves the other codes alone, changes nothing when the
    path is not listed under the code, and otherwise takes the first
    occurrence of the path out of the list and nothing else. *)
Theorem remove_file_takes_first (fm : gmap string (list string)) (code p : string) :
  (∀ c, c ≠ code → remove_file fm code p !! c = fm !! c) ∧
  (¬ indexed fm code p → remove_file fm code p = fm) ∧
  (indexed fm code p →
   ∃ l1 l2, fm !! code = Some (l1 ++ p :: l2) ∧ (p ∉ l1) ∧
            remove_file fm code p !! code = Some (l1 ++ l2)).
Proof.
  unfold remove_file, indexed. split; [|split].
  - intros c Hne. destruct (fm !! code); [|done].
    destruct (bool_decide _); [by rewrite lookup_insert_ne|done].
  - intros Hn. destruct (fm !! code) as [l|] eqn:E; [|done].
    rewrite bool_decide_false; [done|]. intros Hin. apply Hn. eauto.
  - intros (l & E & Hin). rewrite E, bool_decide_true by done.
    destruct (list_remove_spec p l Hin) as (l1 & l2 & -> & Hn & ->).
    exists l1, l2. by rewrite lookup_insert_eq.
Qed.

(** X4: an index without repeated paths stays so under [add_file] and
    [remove_file]; after [remove_file] the path is not listed any more, and
    removing a path that was added and not listed before gives the lists of
    before. *)
Theorem index_keeps_no_duplicates (fm : gmap string (list string)) (code p : string) :
  index_nodup fm →
  index_nodup (add_file fm code p) ∧ index_nodup (remove_file fm code p) ∧
  ¬ indexed (remove_file fm code p) code p ∧
  (¬ indexed fm code p →
   ∀ c, listed (remove_file (add_file fm code p) code p) c = listed fm c).
Proof.
  intros Hnd.
  assert (Hadd : index_nodup (add_file fm code p)).
  { intros c l. unfold add_file. case_bool_decide as Hin.
    - destruct (decide (c = code)) as [->|Hne].
      + rewrite lookup_insert_eq. intros [= <-].
        destruct (fm !! code) as [l0|] eqn:E; simpl; [by eapply Hnd|constructor].
      + rewrite lookup_insert_ne by done. apply Hnd.
    - destruct (decide (c = code)) as [->|Hne].
      + rewrite lookup_insert_eq. intros [= <-].
        apply NoDup_app. split; [|split].
        * destruct (fm !! code) as [l0|] eqn:E; simpl; [by eapply Hnd|constructor].
        * intros x Hx ->%list_elem_of_singleton. done.
        * apply NoDup_singleton.
      + rewrite lookup_insert_ne by done. apply Hnd. }
  assert (Hrm : ∀ fm', index_nodup fm' →
            index_nodup (remove_file fm' code p) ∧ ¬ indexed (remove_file fm' code p) code p).
  { intros fm' Hnd'. destruct (remove_file_takes_first fm' code p) as (Ho & Hno & Hyes).
    destruct (fm' !! code) as [l|] eqn:E.
    - destruct (decide (p ∈ l)) as [Hin|Hin].
      + destruct Hyes as (l1 & l2 & E1 & Hn1 & E2); [by exists l|].
        assert (Hl : NoDup (l1 ++ p :: l2)) by (eapply Hnd'; by rewrite <- E1).
        apply NoDup_app in Hl as (H1 & H12 & H2). apply NoDup_cons in H2 as [Hp2 H2].
        split.
        * intros c l'. destruct (decide (c = code)) as [->|Hne].
          -- rewrite E2. intros [= <-]. apply NoDup_app. split; [done|]. split; [|done].
             intros x Hx Hx2. apply (H12 x Hx). by apply elem_of_cons; right.
          -- rewrite Ho by done. apply Hnd'.
        * intros (l' & El' & Hin'). rewrite E2 in El'. injection El' as <-.
          apply elem_of_app in Hin' as [?|?]; done.
      + rewrite Hno; [split; [done|]|]; intros (l' & El' & Hin'); congruence.
    - rewrite Hno; [split; [done|]|]; intros (l' & El' & Hin'); congruence. }
  split; [done|]. split; [apply Hrm, Hnd|]. split; [apply Hrm, Hnd|].
  intros Hn c. destruct (remove_file_takes_first (add_file fm code p) code p) as (Ho & _ & Hyes).
  destruct (add_file_lists_once fm code p) as (Hmem & _ & Hoa & _).
  destruct (decide (c = code)) as [->|Hne].
  - destruct Hyes as (l1 & l2 & E1 & Hn1 & E2); [apply Hmem; auto|].
    unfold listed at 1. rewrite E2. simpl.
    assert (El : listed (add_file fm code p) code = listed fm code ++ [p]).
    { rewrite listed_add_file, decide_True by done.
      rewrite decide_False; [done|]. by rewrite <- indexed_listed. }
    unfold listed at 1 in El. rewrite E1 in El. simpl in El.
    assert (Hl2 : l2 = []).
    { destruct l2 as [|x l2] using rev_ind; [done|].
      rewrite app_comm_cons, app_assoc in El. apply app_inj_tail in El as [El ->].
      exfalso. apply Hn, indexed_listed. rewrite <- El.
      apply elem_of_app; right. apply list_elem_of_here. }
    subst l2. rewrite app_nil_r. by apply app_inj_tail in El as [-> _].
  - unfold listed. by rewrite Ho, Hoa.
Qed.

Lemma index_keeps_no_duplicates_witness :
  let fm : gmap string (list string) :=
    {[ "72030" := ["dq/3700/72030_2024fy.csv"; "dq/3700/72030_2025fy_20250403.csv"] ]} in
  index_nodup (add_file fm "72030" "dq/3700/72030_2025fy_20250404.csv") ∧
  index_nodup (remove_file fm "72030" "dq/3700/72030_2024fy.csv") ∧
  ¬ indexed (remove_file fm "72030" "dq/3700/72030_2024fy.csv") "72030"
      "dq/3700/72030_2024fy.csv".
Proof.
  intros fm.
  assert (Hnd : index_nodup fm).
  { intros code l [_ <-]%lookup_singleton_Some. apply NoDup_ListNoDup.
    repeat constructor; simpl; intros H; decompose [or] H; done. }
  destruct (index_keeps_no_duplicates fm "72030" "dq/3700/72030_2025fy_20250404.csv" Hnd)
    as (H1 & _).
  destruct (index_keeps_no_duplicates fm "72030" "dq/3700/72030_2024fy.csv" Hnd)
    as (_ & H2 & H3 & _).
  auto.
Defined.

Lemma first_max_last ks k (p : string) :
  Forall (λ y, fst y < k) ks → first_max (ks ++ [(k, p)]) = Some (k, p).
Proof.
  induction 1 as [|x ks Hx _ IH]; simpl; [done|]. rewrite IH.
  simpl. by rewrite (proj2 (Z.ltb_lt _ _) Hx).
Qed.

Lemma keyed_app l1 l2 ks1 ks2 :
  keyed l1 = Ok ks1 → keyed l2 = Ok ks2 → keyed (l1 ++ l2) = Ok (ks1 ++ ks2).
Proof.
  revert ks1. induction l1 as [|f l1 IH]; intros ks1; simpl.
  - by intros [= <-].
  - destruct (sort_key f) as [k|]; simpl; [|done].
    destruct (keyed l1) as [ks|]; simpl; [|done].
    intros [= <-] H2. by rewrite (IH ks eq_refl H2).
Qed.

Lemma keyed_below l k :
  Forall (λ f, ∃ k', sort_key f = Ok k' ∧ k' < k) l →
  ∃ ks, keyed l = Ok ks ∧ Forall (λ y, fst y < k) ks.
Proof.
  induction 1 as [|f l (k' & Hk & Hlt) _ (ks & E & Hks)]; simpl; [by exists []|].
  rewrite Hk, E. simpl. exists ((k', f) :: ks). split; [done|]. by constructor.
Qed.

Lemma latest_of_app_last fm code l p k :
  fm !! code = Some (l ++ [p]) → sort_key p = Ok k →
  Forall (λ f, ∃ k', sort_key f = Ok k' ∧ k' < k) l →
  get_latest_file fm code = Ok (Some p).
Proof.
  intros Hfm Hk Hl. destruct (keyed_below l k Hl) as (ks & E & Hks).
  unfold get_latest_file. rewrite Hfm.
  assert (Ek : keyed (l ++ [p]) = Ok (ks ++ [(k, p)])).
  { apply keyed_app; [done|]. simpl. by rewrite Hk. }
  destruct (l ++ [p]) as [|f0 fs] eqn:El; [by destruct l|].
  rewrite Ek. simpl. by rewrite LatestFacts.head_sorted_desc, first_max_last.
Qed.

(** X5: when the key of a path is larger than the key of every path listed
    under the code, [get_latest_file] after [add_file] of that path returns
    it. *)
Theorem get_latest_file_after_add (fm : gmap string (list string)) (code p : string) (k : Z) :
  sort_key p = Ok k →
  Forall (λ f, ∃ k', sort_key f = Ok k' ∧ k' < k) (listed fm code) →
  get_latest_file (add_file fm code p) code = Ok (Some p).
Proof.
  intros Hk Hl. apply latest_of_app_last with (l := listed fm code) (k := k); [|done..].
  unfold add_file. fold (listed fm code). rewrite bool_decide_false; [by rewrite lookup_insert_eq|].
  intros Hin. rewrite Forall_forall in Hl.
  destruct (Hl p Hin) as (k' & Hk' & Hlt).
  rewrite Hk in Hk'. injection Hk' as <-. lia.
Qed.

Lemma get_latest_file_after_add_witness :
  get_latest_file
    (add_file {[ "72030" := ["dq/3700/72030_2024fy.csv";
                             "dq/3700/72030_2025fy_20250403.csv"] ]}
       "72030" "dq/3700/72030_2025fy_20250404.csv") "72030"
  = Ok (Some "dq/3700/72030_2025fy_20250404.csv").
Proof.
  apply (get_latest_file_after_add _ _ _ 20250404).
  - vm_compute. reflexivity.
  - unfold listed. rewrite lookup_singleton_eq. simpl.
    repeat constructor.
    + exists 0. split; [vm_compute; reflexivity|lia].
    + exists 20250403. split; [vm_compute; reflexivity|lia].
Defined.

End IndexUpdates.

(** ** The latest file by date *)

Section DatePriority.
Import FileRepository.

Lemma int_digits_value s acc b :
  all_chars Py.is_decimal s = true → (s ≠ "" ∨ b = true) →
  Py.int_digits acc b s = Py.digits_val acc s.
Proof.
  revert acc b. induction s as [|c s IH]; intros acc b; simpl.
  - intros _ [?| ->]; done.
  - intros [Hc Hs]%andb_true_iff _.
    assert (Hne : Ascii.eqb c "_" = false).
    { apply Ascii.eqb_neq. intros ->. discriminate. }
    rewrite Hne. unfold Py.digit_val. rewrite Hc. apply IH; [done|by right].
Qed.

Lemma int_value s :
  all_chars Py.is_decimal s = true → s ≠ "" → Py.int s = Py.digits_val 0 s.
Proof.
  intros H Hne. unfold Py.int. rewrite (strip_decimal s H).
  rewrite <- (int_digits_value s 0 false H) by (by left).
  destruct s as [|c r]; [done|].
  simpl in H. apply andb_true_iff in H as [Hc _].
  destruct c as [[] [] [] [] [] [] [] []]; try done.
Qed.

Lemma decimal_isdigit s :
  s ≠ "" → all_chars Py.is_decimal s = true → Py.isdigit s = true.
Proof.
  intros Hne H. unfold Py.isdigit. destruct s as [|c r]; [done|].
  rewrite all_chars_forallb. eapply all_chars_impl; [|exact H].
  intros x Hx. unfold Py.char_isdigit. by rewrite Hx.
Qed.

Lemma sort_key_priority filepath :
  ascii_only filepath = true → sort_key filepath = Ok (date_priority filepath).
Proof.
  intros H. unfold sort_key, date_priority, date_field.
  set (d := List.hd "" (Py.split "." (Py.last_part (Py.split "_" (Py.basename filepath))))).
  assert (Ha : ascii_only d = true).
  { apply all_chars_hd, all_chars_split, all_chars_last, all_chars_split.
    unfold Py.basename. by apply all_chars_last, all_chars_split. }
  destruct (Py.isdigit d) eqn:Hd; simpl.
  - assert (Hdec : all_chars Py.is_decimal d = true ∧ d ≠ "").
    { unfold Py.isdigit in Hd. destruct d as [|c r] eqn:E; [done|].
      split; [|done]. rewrite all_chars_forallb in Hd.
      eapply all_chars_impl; [apply ascii_digit_is_decimal|].
      by apply all_chars_and. }
    destruct Hdec as [Hdec Hne]. rewrite Hdec. simpl.
    destruct (String.length d =? 8)%nat; [|done].
    rewrite (int_value d Hdec Hne).
    destruct (int_decimal d Hdec Hne) as (n & Hn & _).
    rewrite (int_value d Hdec Hne) in Hn. by rewrite Hn.
  - destruct (all_chars Py.is_decimal d) eqn:Hdec; [|done]. simpl.
    destruct d as [|c r] eqn:E; [done|].
    rewrite decimal_isdigit in Hd; done.
Qed.

(** X24: on paths of ASCII characters [get_latest_file] raises nothing and
    returns, for a code with files, the first file of largest date priority:
    the number of the eight-digit date field of the name, zero for a name
    without one; so a dated live file comes before an archived one. *)
Theorem latest_file_by_date_priority (fm : gmap string (list string)) (code : string)
    (files : list string) :
  fm !! code = Some files → files ≠ [] →
  Forall (λ f, ascii_only f = true) files →
  ∃ f l1 l2,
    get_latest_file fm code = Ok (Some f) ∧ files = l1 ++ f :: l2 ∧
    0 <= date_priority f ∧
    Forall (λ g, date_priority g < date_priority f) l1 ∧
    Forall (λ g, date_priority g <= date_priority f) l2.
Proof.
  intros Hfm Hne Ha.
  destruct (LatestAscii.get_latest_file_ascii fm code files Hfm Hne Ha)
    as (k & f & ks & l1 & l2 & Hk & Hg & Hkf & Hks & H1 & H2).
  pose proof (LatestFacts.keyed_snd _ _ Hk) as Hsnd.
  pose proof (LatestFacts.keyed_fst _ _ Hk) as Hfst.
  assert (Hpri : ∀ y, y ∈ ks → fst y = date_priority (snd y)).
  { intros y Hy. rewrite Forall_forall in Hfst. specialize (Hfst y Hy).
    assert (Hay : ascii_only (snd y) = true).
    { rewrite Forall_forall in Ha. apply Ha. rewrite <- Hsnd. by apply list_elem_of_fmap_2. }
    rewrite (sort_key_priority _ Hay) in Hfst. by injection Hfst as <-. }
  assert (Hkp : k = date_priority f).
  { apply (Hpri (k, f)). rewrite Hks. apply elem_of_app. right. apply list_elem_of_here. }
  exists f, (snd <$> l1), (snd <$> l2). split; [done|]. split.
  { by rewrite <- Hsnd, Hks, fmap_app. }
  split.
  { destruct (sort_key_ascii f) as (k' & Hk' & ?).
    - rewrite Forall_forall in Ha. apply Ha. rewrite <- Hsnd, Hks, fmap_app.
      apply elem_of_app. right. apply list_elem_of_here.
    - rewrite Hkf in Hk'. injection Hk' as <-. lia. }
  split.
  - apply Forall_fmap, Forall_forall. intros y Hy. simpl.
    rewrite Forall_forall in H1. specialize (H1 y Hy). simpl in H1.
    rewrite <- Hkp, <- (Hpri y); [done|]. rewrite Hks. apply elem_of_app. by left.
  - apply Forall_fmap, Forall_forall. intros y Hy. simpl.
    rewrite Forall_forall in H2. specialize (H2 y Hy). simpl in H2.
    rewrite <- Hkp, <- (Hpri y); [done|]. rewrite Hks. apply elem_of_app. right.
    by apply list_elem_of_further.
Qed.

Lemma latest_file_by_date_priority_witness :
  let files := ["dq/3700/72030_2024fy.csv"; "dq/3700/72030_2025fy_20250115.csv";
                "dq/3700/72030_2025fy_backup.csv"] in
  ∃ f l1 l2,
    get_latest_file {[ "72030" := files ]} "72030" = Ok (Some f) ∧ files = l1 ++ f :: l2 ∧
    0 <= date_priority f ∧
    Forall (λ g, date_priority g < date_priority f) l1 ∧
    Forall (λ g, date_priority g <= date_priority f) l2.
Proof.
  intros files. apply latest_file_by_date_priority.
  - apply lookup_singleton_eq.
  - discriminate.
  - repeat constructor.
Defined.

Example date_priority_examples :
  date_priority "dq/3700/72030_2024fy.csv" = 0 ∧
  date_priority "dq/3700/72030_2025fy_20250115.csv" = 20250115 ∧
  date_priority "dq/3700/72030_2025fy_backup.csv" = 0.
Proof. repeat split; vm_compute; reflexivity. Qed.

End DatePriority.

(** ** [atomic_save], further *)

Ltac close_trace :=
  eexists; split; [rewrite <- !app_assoc; simpl; reflexivity|];
  split; [match goal with H : ∀ evs, _ → Forall _ evs |- _ => apply H end; repeat constructor|];
  split; intros Hin;
  first [ by (left; eauto)
        | by (right; eapply bool_decide_eq_true_1)
        | (intros [[? ?]|?]; first [congruence | by eapply bool_decide_eq_false_1])
        | exfalso; repeat (apply elem_of_cons in Hin as [Hin|Hin]; [discriminate|]);
          by apply elem_of_nil in Hin ].


(** X6: without a failing call [atomic_save] returns; whenever it returns,
    the file at the path holds the table, there is no temporary file, every
    other file, the directories and the index are as before, and the next
    read of the path gives the table back. *)
Theorem atomic_save_then_read (df : DataFrame) (filepath : string) (w : world) :
  (faults w = [] → ∃ w', atomic_save df filepath w = (Ok tt, w')) ∧
  ∀ w', atomic_save df filepath w = (Ok tt, w') →
    files w' !! filepath = Some df ∧ files w' !! (filepath +:+ ".tmp") = None ∧
    (∀ q, q ≠ filepath → q ≠ filepath +:+ ".tmp" → files w' !! q = files w !! q) ∧
    dirs w' = dirs w ∧ file_map w' = file_map w ∧
    (faults w' = [] → fst (read_csv filepath w') = Ok df).
Proof.
  split.
  - intros Hf. destruct (atomic_save_run df filepath w Hf) as (evs & E). eauto.
  - intros w' H. apply atomic_save_Ok in H as (Hfs & Hd & Hm).
    assert (Hp : files w' !! filepath = Some df) by (by rewrite Hfs, lookup_insert_eq).
    split; [done|]. split.
    { rewrite Hfs, lookup_insert_ne by (intros E; by apply (tmp_ne filepath)).
      apply lookup_delete_eq. }
    split.
    { intros q H1 H2. by rewrite Hfs, lookup_insert_ne, lookup_delete_ne. }
    split; [done|]. split; [done|].
    intros Hf. destruct w' as [fs ds fm flts tr]. simpl in *. subst flts.
    run_io. by rewrite Hp.
Qed.

(** X7: in every run of [atomic_save], failing or not, the first call is the
    write of the temporary file, and the calls after it are existence
    queries, the replace or rename of the temporary file onto the path and
    the removal of the temporary file: the path itself is never written or
    removed.  [os.replace] is called only when something exists at the path,
    [os.rename] only when nothing does. *)
Theorem atomic_save_goes_through_temp (df : DataFrame) (filepath : string) (w : world)
    r w' :
  atomic_save df filepath w = (r, w') →
  ∃ evs, trace w' = trace w ++ EvWrite (filepath +:+ ".tmp") :: evs ∧
         Forall (save_event filepath) evs ∧
         (EvReplace (filepath +:+ ".tmp") filepath ∈ evs → exists_at filepath w) ∧
         (EvRename (filepath +:+ ".tmp") filepath ∈ evs → ¬ exists_at filepath w).
Proof.
  assert (Hne := tmp_ne filepath).
  assert (Hev : ∀ evs, Forall (λ ev, ev ∈ [EvExists filepath; EvExists (filepath +:+ ".tmp"); EvReplace (filepath +:+ ".tmp") filepath; EvRename (filepath +:+ ".tmp") filepath; EvRemove (filepath +:+ ".tmp")]) evs → Forall (save_event filepath) evs).
  { intros evs H. eapply Forall_impl; [exact H|]. intros ev Hin. unfold save_event. simpl.
    repeat (apply elem_of_cons in Hin as [->|Hin]; [tauto|]). by apply elem_of_nil in Hin. }
  destruct w as [fs ds fm flts tr]. unfold atomic_save, exists_at. run_io.
  destruct flts as [|[|e0 torn] flts]; proj_io.
  - rewrite lookup_insert_ne by done.
    destruct (fs !! filepath) eqn:Ep; [|destruct (bool_decide _) eqn:Ed]; proj_io;
      rewrite lookup_insert_eq; intros ?; simplify_eq; proj_io; close_trace.
  - rewrite lookup_insert_ne by done.
    destruct (fs !! filepath) eqn:Ep; [|destruct (bool_decide _) eqn:Ed]; proj_io;
      (destruct flts as [|[|e1 torn1] flts]; proj_io;
       rewrite ?lookup_insert_eq; try (intros ?; simplify_eq; proj_io; close_trace; fail);
       destruct flts as [|[|e2 torn2] flts]; proj_io;
       rewrite ?lookup_insert_eq; intros ?; simplify_eq; proj_io; close_trace).
  - destruct torn as [junk|]; proj_io; rewrite ?lookup_insert_eq.
    + destruct flts as [|[|e1 torn1] flts]; proj_io;
        rewrite ?lookup_insert_eq; intros ?; simplify_eq; proj_io; close_trace.
    + destruct (fs !! (filepath +:+ ".tmp")) eqn:E; [|destruct (bool_decide _)]; proj_io;
        (destruct flts as [|[|e1 torn1] flts]; proj_io;
         rewrite ?E; intros ?; simplify_eq; proj_io; close_trace).
Qed.

Lemma atomic_save_goes_through_temp_witness :
  let w := mkworld {[ "a.csv" := [mkrow "2025-03-19" ["1"]] ]} ∅ ∅ [] [] in
  ∃ evs, trace (snd (atomic_save [mkrow "2025-03-20" ["2"]] "a.csv" w))
         = EvWrite "a.csv.tmp" :: evs ∧
         Forall (save_event "a.csv") evs ∧ exists_at "a.csv" w.
Proof.
  intros w.
  destruct (atomic_save [mkrow "2025-03-20" ["2"]] "a.csv" w) as [r w'] eqn:E.
  destruct (atomic_save_goes_through_temp _ _ _ _ _ E) as (evs & Ht & Hall & Hrep & _).
  exists evs. split; [exact Ht|]. split; [exact Hall|]. apply Hrep.
  apply (f_equal (λ x, trace (snd x))) in E. simpl in E. rewrite Ht in E.
  vm_compute in E. injection E as <-. apply list_elem_of_In. simpl. auto.
Defined.

(** ** The outcomes of [update_file_for_code] *)

Section Outcomes.

Variable api : string → string → string → result DataFrame.
Variable sort : DataFrame → DataFrame.
Variable todt : string → result date.

Lemma readonly_same_store {A} (m : M A) w r w' :
  readonly m → m w = (r, w') →
  same_store w w' ∧ ∃ evs, trace w' = trace w ++ evs ∧ forallb quiet evs = true.
Proof.
  intros Hm E. destruct (Hm w) as (r0 & evs & k & E0 & Hq & _).
  rewrite E in E0. injection E0 as -> ->. split; [done|]. by exists evs.
Qed.

Lemma quiet_no_write evs : forallb quiet evs = true → Forall no_write evs.
Proof.
  rewrite forallb_forall. intros H. apply Forall_forall. intros ev Hin%list_elem_of_In.
  specialize (H ev Hin). unfold quiet in H. unfold no_write.
  apply negb_true_iff, orb_false_iff in H. tauto.
Qed.

(** The date up to which the archive goes is found or not; the lookup
    returns no outcome of its own and raises nothing. *)
Lemma last_updated_date_inr cur w r w' :
  last_updated_date cur w = (r, w') → ∃ x, r = Ok (inr x).
Proof.
  unfold last_updated_date. destruct cur as [[|a p]|]; try (intros [= <- _]; eauto; fail).
  destruct (3 <=? _)%nat.
  - intros [= <- _]. eauto.
  - intros [(x & -> & H)|(e & w1 & H & _)]%try_except_inv.
    + apply try_except_inv in H as [(y & [= <-] & H)|(e & w1 & _ & [= <- _])]; [|eauto].
      apply bind_Ok_inv in H as (df & w2 & _ & H).
      destruct (negb _); injection H as <- _; eauto.
    + exfalso. unfold try_except in H.
      destruct (bind _ _ w) as [[?|?] ?]; discriminate.
Qed.

(** Where locating stops the update, the outcome is [DIR_NOT_FOUND] exactly
    when nothing exists at the path of the sector directory, and
    [FILE_NOT_FOUND] otherwise. *)
Lemma locate_inl code sc dq w o w' :
  locate code sc dq w = (Ok (inl o), w') →
  (o = DIR_NOT_FOUND ∧ ¬ exists_at (Py.join dq sc) w) ∨
  (o = FILE_NOT_FOUND ∧ exists_at (Py.join dq sc) w).
Proof.
  unfold locate. intros (present & wA & HA & H)%bind_Ok_inv.
  assert (Hp : if present then exists_at (Py.join dq sc) w else ¬ exists_at (Py.join dq sc) w).
  { unfold path_exists, bind, emit in HA. simpl in HA. injection HA as <- _.
    unfold exists_at. destruct (files w !! Py.join dq sc) eqn:E.
    - left. eauto.
    - case_bool_decide; [by right|]. intros [[? ?]|?]; done. }
  destruct present; simpl in H.
  - right. split; [|done].
    apply bind_Ok_inv in H as (cur & wB & HB & H).
    apply bind_Ok_inv in H as (located & wC & HC & H).
    apply last_updated_date_inr in HC as (x & [= ->]).
    destruct x as [last|]; [destruct cur as [p|]|].
    + destruct (String.eqb last ""); [by injection H as <- _|discriminate].
    + by injection H as <- _.
    + destruct cur; by injection H as <- _.
  - left. by injection H as <- _.
Qed.

Lemma locate_inr_exists code sc dq w x w' :
  locate code sc dq w = (Ok (inr x), w') → exists_at (Py.join dq sc) w.
Proof.
  unfold locate. intros (present & wA & HA & H)%bind_Ok_inv.
  destruct present; simpl in H; [|discriminate].
  unfold path_exists, bind, emit in HA. simpl in HA. injection HA as HA _.
  unfold exists_at. destruct (files w !! Py.join dq sc) eqn:E; [left; eauto|].
  right. by eapply bool_decide_eq_true_1.
Qed.

(** The body of the [try] returns [NO_NEW_DATA] only after the pause and
    the request, with nothing else done. *)
Lemma fetch_and_merge_no_new_data code dir p from_date target test w w' :
  fetch_and_merge api sort todt code dir p from_date target test w = (Ok NO_NEW_DATA, w') →
  test = false ∧ w' = advance 0 [EvSleep; EvFetch code from_date target] w.
Proof.
  unfold fetch_and_merge. destruct test; [discriminate|]. split; [done|].
  apply bind_Ok_inv in H as ([] & w1 & H1 & H).
  apply bind_Ok_inv in H as (fetched & w2 & H2 & H).
  unfold emit in H1. injection H1 as <-.
  unfold fetch, bind, emit, lift in H2. simpl in H2. injection H2 as _ <-.
  destruct (Pd.empty fetched).
  - injection H as <-. unfold advance. simpl. by rewrite drop_0, <- app_assoc.
  - apply bind_Ok_inv in H as (df_old & w3 & _ & H).
    apply bind_Ok_inv in H as (latest & w4 & _ & H).
    apply bind_Ok_inv in H as (fy_part & w5 & _ & H).
    apply bind_Ok_inv in H as (? & w6 & _ & H). discriminate.
Qed.

Lemma update_from_outcome code sc dq target test p last w o w' :
  update_from api sort todt code sc dq target test p last w = (Ok o, w') →
  o = ALREADY_LATEST ∨ o = DATE_CALC_ERROR ∨ o = UPDATED ∨ o = NO_NEW_DATA ∨ o = ERROR.
Proof.
  unfold update_from. destruct (Py.ge last target); [intros [= <- _]; auto|].
  intros (f & w1 & _ & H)%bind_Ok_inv.
  destruct (Py.gt f target); [injection H as <- _; auto|].
  apply try_except_inv in H as [(o' & [= <-] & H)|(e & w2 & _ & [= <- _])]; [|auto 6].
  apply fetch_and_merge_outcome in H as [->| ->]; auto 6.
Qed.

(** X8: the update of one instrument never returns [FILENAME_FORMAT_ERROR]:
    nothing in the [try] of lines 245 to 265 raises past its inner handler. *)
Theorem update_never_filename_format_error (code sc dq target : string) (test : bool)
    (w : world) :
  fst (update_file_for_code api sort todt code sc dq target test w)
  ≠ Ok FILENAME_FORMAT_ERROR.
Proof.
  destruct (update_file_for_code _ _ _ _ _ _ _ _ w) as [r w'] eqn:E. simpl. intros ->.
  unfold update_file_for_code in E.
  apply bind_Ok_inv in E as (located & w1 & HL & E).
  destruct located as [o|[p last]].
  - injection E as -> _. apply locate_inl in HL as [[? _]|[? _]]; discriminate.
  - apply update_from_outcome in E. intuition discriminate.
Qed.

(** X9: the update returns [DIR_NOT_FOUND] exactly when nothing exists at
    the path of the sector directory; it has then done nothing but ask for
    it: the index is not consulted. *)
Theorem dir_not_found_iff_no_directory (code sc dq target : string) (test : bool)
    (w w' : world) :
  update_file_for_code api sort todt code sc dq target test w = (Ok DIR_NOT_FOUND, w')
  ↔ ¬ exists_at (Py.join dq sc) w ∧ w' = advance 0 [EvExists (Py.join dq sc)] w.
Proof.
  split.
  - intros E. unfold update_file_for_code in E.
    apply bind_Ok_inv in E as (located & w1 & HL & E).
    destruct located as [o|[p last]].
    + injection E as -> ->. pose proof HL as [[_ Hn]|[? _]]%locate_inl; [|discriminate].
      split; [done|]. revert HL. unfold locate, path_exists, bind, emit, ret, exists_at in *.
      simpl. destruct (files w !! Py.join dq sc) eqn:Ef; [exfalso; apply Hn; eauto|].
      case_bool_decide; [tauto|]. simpl. intros [= <-]. unfold advance. by rewrite drop_0.
    + apply update_from_outcome in E. intuition discriminate.
  - intros [Hn ->]. unfold update_file_for_code, locate, path_exists, bind, emit, ret, exists_at in *.
    simpl. destruct (files w !! Py.join dq sc) eqn:Ef; [exfalso; apply Hn; eauto|].
    case_bool_decide; [tauto|]. simpl. unfold advance. by rewrite drop_0.
Qed.

(** X10: in a dry run, and in every run that ends otherwise than in
    [UPDATED] or [ERROR], an exception included, files, directories and index
    are as before and nothing was written, moved or removed. *)
Theorem only_updates_change_the_archive (code sc dq target : string) (test : bool)
    (w : world) r w' :
  update_file_for_code api sort todt code sc dq target test w = (r, w') →
  test = true ∨ (r ≠ Ok UPDATED ∧ r ≠ Ok ERROR) →
  same_store w w' ∧ ∃ evs, trace w' = trace w ++ evs ∧ Forall no_write evs.
Proof.
  intros E Hr. unfold update_file_for_code in E.
  unfold bind in E. destruct (locate code sc dq w) as [[located|e] w1] eqn:HL.
  2:{ injection E as <- <-.
      destruct (readonly_same_store _ _ _ _ (readonly_locate code sc dq) HL) as (? & evs & ? & ?).
      split; [done|]. exists evs. split; [done|]. by apply quiet_no_write. }
  destruct (readonly_same_store _ _ _ _ (readonly_locate code sc dq) HL)
    as ((Hf1 & Hd1 & Hm1) & evs1 & Ht1 & Hq1%quiet_no_write).
  assert (Hstay : ∀ evs2, Forall no_write evs2 →
            w' = advance 0 evs2 w1 →
            same_store w w' ∧ ∃ evs, trace w' = trace w ++ evs ∧ Forall no_write evs).
  { intros evs2 H2 ->. split; [done|]. exists (evs1 ++ evs2). simpl.
    rewrite Ht1, <- app_assoc. split; [done|]. by apply Forall_app. }
  assert (Hsame : w' = w1 →
            same_store w w' ∧ ∃ evs, trace w' = trace w ++ evs ∧ Forall no_write evs).
  { intros ->. apply (Hstay []); [constructor|]. unfold advance.
    destruct w1; simpl. by rewrite drop_0, app_nil_r. }
  destruct located as [o|[p last]].
  { injection E as <- <-. by apply Hsame. }
  unfold update_from in E. destruct (Py.ge last target); [injection E as <- <-; by apply Hsame|].
  unfold lift at 1, bind at 1 in E. destruct (from_date_str last) as [f|e].
  2:{ injection E as <- <-. by apply Hsame. }
  destruct (Py.gt f target); [injection E as <- <-; by apply Hsame|].
  apply try_except_inv in E as [(o & -> & E)|(e & w2 & E & [= <- _])].
  - destruct test.
    + unfold fetch_and_merge in E. injection E as _ <-. by apply Hsame.
    + destruct Hr as [?|[Hu _]]; [done|].
      destruct (fetch_and_merge_outcome _ _ _ _ _ _ _ _ _ _ _ _ E) as [->| ->]; [done|].
      apply fetch_and_merge_no_new_data in E as [_ ->].
      apply (Hstay [EvSleep; EvFetch code f target]); [|done]. by repeat constructor.
  - destruct Hr as [->|[_ ?]]; [|done].
    unfold fetch_and_merge in E. discriminate.
Qed.

End Outcomes.



Section Emits.

Context (P : event → Prop).

Lemma emits_ret {A} (a : A) : emits P (ret a).
Proof. intros w r w' [= _ <-]. exists []. by rewrite app_nil_r. Qed.

Lemma emits_raise {A} e : emits P (raise (A := A) e).
Proof. intros w r w' [= _ <-]. exists []. by rewrite app_nil_r. Qed.

Lemma emits_lift {A} (x : result A) : emits P (lift x).
Proof. intros w r w' [= _ <-]. exists []. by rewrite app_nil_r. Qed.

Lemma emits_bind {A B} (m : M A) (k : A → M B) :
  emits P m → (∀ a, emits P (k a)) → emits P (bind m k).
Proof.
  intros Hm Hk w r w'. unfold bind. destruct (m w) as [[a|e] w1] eqn:E.
  - intros E2. destruct (Hm _ _ _ E) as (evs1 & T1 & F1).
    destruct (Hk _ _ _ _ E2) as (evs2 & T2 & F2).
    exists (evs1 ++ evs2). rewrite T2, T1, app_assoc. split; [done|]. by apply Forall_app.
  - intros [= <- <-]. by apply (Hm _ _ _ E).
Qed.

Lemma emits_try_except {A} (m : M A) (h : exn → M A) :
  emits P m → (∀ e, emits P (h e)) → emits P (try_except m h).
Proof.
  intros Hm Hh w r w'. unfold try_except. destruct (m w) as [[a|e] w1] eqn:E.
  - intros [= <- <-]. by apply (Hm _ _ _ E).
  - intros E2. destruct (Hm _ _ _ E) as (evs1 & T1 & F1).
    destruct (Hh _ _ _ _ E2) as (evs2 & T2 & F2).
    exists (evs1 ++ evs2). rewrite T2, T1, app_assoc. split; [done|]. by apply Forall_app.
Qed.

Lemma emits_try_except_OSError {A} (m h : M A) :
  emits P m → emits P h → emits P (try_except_OSError m h).
Proof.
  intros Hm Hh. apply emits_try_except; [done|]. intros []; try apply emits_raise. done.
Qed.

Lemma emits_emit ev : P ev → emits P (emit ev).
Proof. intros H w r w' [= _ <-]. exists [ev]. split; [done|]. by constructor. Qed.

Lemma emits_silent {A} (m : M A) :
  (∀ w, trace (snd (m w)) = trace w) → emits P m.
Proof.
  intros H w r w' E. exists []. rewrite app_nil_r. specialize (H w). by rewrite E in H.
Qed.

Lemma emits_next_fault : emits P next_fault.
Proof. apply emits_silent. intros w. unfold next_fault. by destruct (faults w). Qed.

Lemma emits_modify_files f : emits P (modify_files f).
Proof. by apply emits_silent. Qed.

Lemma emits_repo_add_file code p : emits P (repo_add_file code p).
Proof. by apply emits_silent. Qed.

Lemma emits_repo_remove_file code p : emits P (repo_remove_file code p).
Proof. by apply emits_silent. Qed.

Lemma emits_repo_get_latest_file code : emits P (repo_get_latest_file code).
Proof. by apply emits_silent. Qed.

Lemma emits_path_exists p : P (EvExists p) → emits P (path_exists p).
Proof.
  intros H. apply emits_bind; [by apply emits_emit|]. intros _. by apply emits_silent.
Qed.

Lemma emits_to_csv df p : P (EvWrite p) → emits P (to_csv df p).
Proof.
  intros H. apply emits_bind; [by apply emits_emit|]. intros _.
  apply emits_bind; [apply emits_next_fault|]. intros [|e [junk|]].
  - apply emits_modify_files.
  - apply emits_bind; [apply emits_modify_files|]. intros _. apply emits_raise.
  - apply emits_bind; [apply emits_ret|]. intros _. apply emits_raise.
Qed.

Lemma emits_read_csv p : P (EvRead p) → emits P (read_csv p).
Proof.
  intros H. apply emits_bind; [by apply emits_emit|]. intros _.
  apply emits_bind; [apply emits_next_fault|]. intros [|e torn].
  - apply emits_silent. intros w. by destruct (files w !! p).
  - apply emits_raise.
Qed.

Lemma emits_move_file src dst : emits P (move_file src dst).
Proof.
  apply emits_bind; [apply emits_next_fault|]. intros [|e torn].
  - apply emits_silent. intros w. by destruct (files w !! src).
  - apply emits_raise.
Qed.

Lemma emits_os_replace src dst : P (EvReplace src dst) → emits P (os_replace src dst).
Proof. intros H. apply emits_bind; [by apply emits_emit|]. intros _. apply emits_move_file. Qed.

Lemma emits_os_rename src dst : P (EvRename src dst) → emits P (os_rename src dst).
Proof. intros H. apply emits_bind; [by apply emits_emit|]. intros _. apply emits_move_file. Qed.

Lemma emits_os_remove p : P (EvRemove p) → emits P (os_remove p).
Proof.
  intros H. apply emits_bind; [by apply emits_emit|]. intros _.
  apply emits_bind; [apply emits_next_fault|]. intros [|e torn].
  - apply emits_silent. intros w. by destruct (files w !! p).
  - apply emits_raise.
Qed.

(** What the disk calls add to the trace satisfies [P] when every event of
    the disk does. *)
Hypothesis disk : ∀ ev, is_fetch ev = false → ev ≠ EvSleep → P ev.

Lemma emits_atomic_save df p : emits P (atomic_save df p).
Proof.
  apply emits_try_except.
  - apply emits_bind; [by apply emits_to_csv, disk|]. intros _.
    apply emits_bind; [by apply emits_path_exists, disk|]. intros [|].
    + by apply emits_os_replace, disk.
    + by apply emits_os_rename, disk.
  - intros e. apply emits_bind; [by apply emits_path_exists, disk|]. intros t.
    apply emits_bind; [|intros _; apply emits_raise].
    destruct t; [|apply emits_ret].
    apply emits_try_except_OSError; [by apply emits_os_remove, disk|apply emits_ret].
Qed.

Lemma emits_remove_old code cur : emits P (remove_old code cur).
Proof.
  apply emits_try_except_OSError; [|apply emits_ret].
  apply emits_bind; [by apply emits_os_remove, disk|]. intros _. apply emits_repo_remove_file.
Qed.

Lemma emits_rollover sort todt code dir cur df_old df_new latest cfy nfy :
  emits P (rollover sort todt code dir cur df_old df_new latest cfy nfy).
Proof.
  unfold rollover. apply emits_bind; [apply emits_lift|]. intros start.
  apply emits_bind; [apply emits_atomic_save|]. intros _.
  apply emits_bind; [destruct (negb _); [apply emits_remove_old|apply emits_ret]|]. intros _.
  apply emits_bind; [apply emits_repo_add_file|]. intros _.
  destruct (negb _); [|apply emits_ret].
  apply emits_bind; [apply emits_lift|]. intros df_next.
  apply emits_bind; [apply emits_atomic_save|]. intros _. apply emits_repo_add_file.
Qed.

Lemma emits_normal_update sort todt code dir cur df_old df_new latest cfy :
  emits P (normal_update sort todt code dir cur df_old df_new latest cfy).
Proof.
  unfold normal_update. apply emits_bind; [apply emits_lift|]. intros dated.
  apply emits_bind; [apply emits_atomic_save|]. intros _.
  apply emits_bind; [destruct (negb _); [apply emits_remove_old|apply emits_ret]|]. intros _.
  apply emits_repo_add_file.
Qed.

Lemma emits_last_updated_date cur : emits P (last_updated_date cur).
Proof.
  unfold last_updated_date. destruct cur as [[|a p]|]; try apply emits_ret.
  apply emits_try_except; [|intros; apply emits_ret].
  destruct (3 <=? _)%nat; [apply emits_ret|].
  apply emits_try_except; [|intros; apply emits_ret].
  apply emits_bind; [by apply emits_read_csv, disk|]. intros df.
  destruct (negb _); apply emits_ret.
Qed.

Lemma emits_locate code sc dq : emits P (locate code sc dq).
Proof.
  unfold locate. apply emits_bind; [by apply emits_path_exists, disk|]. intros present.
  destruct (negb present); [apply emits_ret|].
  apply emits_bind; [apply emits_repo_get_latest_file|]. intros cur.
  apply emits_bind; [apply emits_last_updated_date|]. intros located.
  destruct located as [o|[last|]]; try apply emits_ret.
  destruct cur as [p|]; [|apply emits_ret].
  destruct (String.eqb last ""); apply emits_ret.
Qed.

End Emits.

Section FetchDiscipline.

Variable api : string → string → string → result DataFrame.
Variable sort : DataFrame → DataFrame.
Variable todt : string → result date.

(** What follows the request in the body of the [try] requests nothing. *)
Lemma fetch_and_merge_events code dir p from_date target test w r w' :
  fetch_and_merge api sort todt code dir p from_date target test w = (r, w') →
  (test = true ∧ w' = w) ∨
  (test = false ∧
   ∃ post, trace w' = trace w ++ EvSleep :: EvFetch code from_date target :: post ∧
           Forall no_fetch post).
Proof.
  unfold fetch_and_merge. destruct test; [intros [= _ <-]; by left|]. right. split; [done|].
  revert H. unfold emit at 1, bind at 1. unfold fetch, emit at 1, bind at 1, bind at 1, lift at 1.
  cbn [files dirs file_map faults trace].
  set (w2 := mkworld _ _ _ _ _).
  assert (T2 : trace w2 = trace w ++ [EvSleep; EvFetch code from_date target])
    by (simpl; by rewrite <- app_assoc).
  destruct (api code from_date target) as [fetched|e].
  2:{ intros [= _ <-]. exists []. by rewrite T2. }
  destruct (Pd.empty fetched); [intros [= _ <-]; exists []; by rewrite T2|].
  intros E.
  assert (Hrest : ∃ post, trace w' = trace w2 ++ post ∧ Forall no_fetch post).
  { revert E. apply emits_bind; [by apply emits_read_csv|]. intros df_old.
    apply emits_bind; [apply emits_lift|]. intros latest.
    apply emits_bind; [destruct (Py.split _ _) as [|? [|? ?]]; first [apply emits_raise|apply emits_ret]|].
    intros fy_part.
    apply emits_bind; [|intros; apply emits_ret].
    destruct (_ <? _).
    - apply emits_rollover. by intros [].
    - apply emits_normal_update. by intros []. }
  destruct Hrest as (post & T & F). exists post. split; [|done].
  rewrite T, T2, <- app_assoc. done.
Qed.

(** X11: a run of the update makes at most one request to the API; the
    request comes right after the pause, never in a dry run, for the
    instrument and the window from the day after the last-updated date to
    the target, the start not after the end in string order. *)
Theorem one_request_after_the_pause (code sc dq target : string) (test : bool)
    (w : world) r w' :
  update_file_for_code api sort todt code sc dq target test w = (r, w') →
  ∃ evs, trace w' = trace w ++ evs ∧
    (Forall no_fetch evs ∨
     ∃ pre post p last from_date w1,
       locate code sc dq w = (Ok (inr (p, last)), w1) ∧
       from_date_str last = Ok from_date ∧
       Py.ge last target = false ∧ Py.gt from_date target = false ∧ test = false ∧
       evs = pre ++ EvSleep :: EvFetch code from_date target :: post ∧
       Forall no_fetch pre ∧ Forall no_fetch post).
Proof.
  intros E. unfold update_file_for_code in E.
  unfold bind in E. destruct (locate code sc dq w) as [[located|e] w1] eqn:HL.
  2:{ injection E as <- <-.
      destruct (emits_locate no_fetch (λ ev H _, H) _ _ _ _ _ _ HL) as (evs & T & F). eauto. }
  destruct (emits_locate no_fetch (λ ev H _, H) _ _ _ _ _ _ HL) as (pre & T & F).
  match goal with |- ?G => assert (Hsame : w' = w1 → G) by (intros ->; eauto) end.
  destruct located as [o|[p last]]; [injection E as _ <-; by apply Hsame|].
  unfold update_from in E.
  destruct (Py.ge last target) eqn:Hge; [injection E as _ <-; by apply Hsame|].
  unfold lift at 1, bind at 1 in E. destruct (from_date_str last) as [f|e] eqn:Hf.
  2:{ injection E as _ <-. by apply Hsame. }
  destruct (Py.gt f target) eqn:Hgt; [injection E as _ <-; by apply Hsame|].
  assert (Hfm : ∃ r2, fetch_and_merge api sort todt code (Py.join dq sc) p f target test w1
                      = (r2, w')).
  { apply try_except_inv in E as [(o & _ & E)|(e & w2 & E & [= _ <-])]; eauto. }
  destruct Hfm as (r2 & Hfm).
  apply fetch_and_merge_events in Hfm as [[_ ->]|(-> & post & T2 & F2)]; [by apply Hsame|].
  exists (pre ++ EvSleep :: EvFetch code f target :: post). split.
  - by rewrite T2, T, <- app_assoc.
  - right. exists pre, post, p, last, f, w1. done.
Qed.

End FetchDiscipline.


Lemma only_updates_change_the_archive_witness :
  let cur := "dq/3700/72030_2024fy_20250320.csv" in
  let w := mkworld {[ cur := [mkrow "2025-03-20" ["2"]] ]} {[ "dq/3700" ]}
                   {[ "72030" := [cur] ]} [] [] in
  let run := update_file_for_code (λ _ _ _, Ok []) sort_by_date parse_iso
               "72030" "3700" "dq" "20250325" false w in
  fst run = Ok NO_NEW_DATA ∧ same_store w (snd run) ∧
  ∃ evs, trace (snd run) = trace w ++ evs ∧ Forall no_write evs.
Proof.
  intros cur w run. destruct run as [r w'] eqn:E.
  assert (Er : r = Ok NO_NEW_DATA).
  { apply (f_equal fst) in E. vm_compute in E. by subst r. }
  split; [done|].
  apply (only_updates_change_the_archive _ _ _ _ _ _ _ _ _ _ _ E).
  right. subst r. split; discriminate.
Defined.

Lemma one_request_after_the_pause_witness :
  let cur := "dq/3700/72030_2024fy_20250320.csv" in
  let w := mkworld {[ cur := [mkrow "2025-03-20" ["2"]] ]} {[ "dq/3700" ]}
                   {[ "72030" := [cur] ]} [] [] in
  let run := update_file_for_code (λ _ _ _, Ok []) sort_by_date parse_iso
               "72030" "3700" "dq" "20250325" false w in
  ∃ evs, trace (snd run) = trace w ++ evs ∧
    (Forall no_fetch evs ∨
     ∃ pre post p last from_date w1,
       locate "72030" "3700" "dq" w = (Ok (inr (p, last)), w1) ∧
       from_date_str last = Ok from_date ∧
       Py.ge last "20250325" = false ∧ Py.gt from_date "20250325" = false ∧ false = false ∧
       evs = pre ++ EvSleep :: EvFetch "72030" from_date "20250325" :: post ∧
       Forall no_fetch pre ∧ Forall no_fetch post).
Proof.
  intros cur w run. destruct run as [r w'] eqn:E.
  exact (one_request_after_the_pause _ _ _ _ _ _ _ _ _ _ _ E).
Defined.

(** ** No date is lost *)

Lemma atomic_save_frame df p w r w' :
  atomic_save df p w = (r, w') →
  (∀ q, q ≠ p → q ≠ p +:+ ".tmp" → files w' !! q = files w !! q) ∧
  ((r = Ok tt ∧ files w' !! p = Some df) ∨
   ((∃ e, r = Raise e) ∧ files w' !! p = files w !! p)).
Proof.
  destruct r as [[]|e]; intros H.
  - apply atomic_save_Ok in H as (Hfs & _ & _). split.
    + intros q H1 H2. by rewrite Hfs, lookup_insert_ne, lookup_delete_ne.
    + left. split; [done|]. by rewrite Hfs, lookup_insert_eq.
  - revert H. unfold atomic_save, try_except at 1.
    match goal with |- context [match ?m w with _ => _ end] =>
      destruct (m w) as [[[]|e0] wa] eqn:Eb end; [done|].
    intros H. pose proof (save_body_raise _ _ _ _ _ Eb) as Hframe.
    apply cleanup_spec in H as (_ & Hothers & _).
    assert (Hall : ∀ q, q ≠ p +:+ ".tmp" → files w' !! q = files w !! q).
    { intros q Hq. rewrite Hothers by done. by apply Hframe. }
    split; [intros q _ Hq; by apply Hall|]. right. split; [eauto|].
    apply Hall. intros E. by apply (tmp_ne p).
Qed.

Section Survive.

Variable api : string → string → string → result DataFrame.
Variable sort : DataFrame → DataFrame.
Variable todt : string → result date.
Hypothesis sort_ok : sorts_by_date sort.

Lemma normal_update_keeps_dates code dir cur df_old df_new latest fy w r w' :
  Py.endswith ".csv" cur = true →
  normal_update sort todt code dir cur df_old df_new latest fy w = (r, w') →
  files w' !! cur = files w !! cur ∨
  ∃ q saved old', normalize_dates todt df_old = Ok old' ∧ files w' !! q = Some saved ∧
                  ∀ d, d ∈ Date <$> old' → d ∈ Date <$> saved.
Proof.
  intros Hcsv. unfold normal_update. unfold lift at 1, bind at 1.
  destruct (normalize_dates todt (Pd.concat df_old df_new)) as [dated|e] eqn:Hn;
    [|intros [= _ <-]; by left].
  apply normalize_dates_app in Hn as (old' & new' & Ho & Hnw & ->).
  set (newp := Py.join dir (live_filename code fy (Py.replace "-" "" latest))).
  unfold bind at 1. destruct (atomic_save _ newp w) as [[[]|e] w1] eqn:E1.
  2:{ intros [= _ <-]. left.
      apply atomic_save_frame in E1 as (Hfr & [[[=] _]|[_ Hp]]).
      destruct (decide (cur = newp)) as [->|Hne]; [done|].
      apply Hfr; [done|]. by apply csv_ne_tmp. }
  apply atomic_save_frame in E1 as (Hfr & [[_ Hp]|[[e [=]] _]]).
  intros H. right. exists newp, (merge sort (old' ++ new')), old'.
  split; [done|]. split.
  - unfold bind at 1 in H.
    destruct (String.eqb_spec newp cur) as [Ec|Ec]; simpl in H.
    + unfold repo_add_file in H. injection H as _ <-. done.
    + destruct (remove_old code cur w1) as [r1 w2] eqn:E2.
      pose proof (remove_old_keeps _ _ _ _ _ newp E2 Ec) as Hk.
      apply remove_old_files in E2 as (-> & _). unfold repo_add_file in H.
      injection H as _ <-. simpl. by rewrite Hk.
  - intros d Hd. apply merge_dates; [done|]. rewrite fmap_app, elem_of_app. by left.
Qed.

Lemma rollover_keeps_dates code dir cur df_old df_new latest cfy nfy w r w' :
  Py.endswith ".csv" cur = true →
  rollover sort todt code dir cur df_old df_new latest cfy nfy w = (r, w') →
  files w' !! cur = files w !! cur ∨
  ∃ q saved, files w' !! q = Some saved ∧ ∀ d, d ∈ Date <$> df_old → d ∈ Date <$> saved.
Proof.
  intros Hcsv. unfold rollover. unfold lift at 1, bind at 1.
  destruct (datetime nfy 4 1) as [start|e]; [|intros [= _ <-]; by left].
  set (part := Pd.select _ df_new). set (next := Pd.select _ df_new).
  set (upd := if negb (Pd.empty part) then _ else _).
  set (arch := Py.join dir (archive_filename code cfy)).
  set (newp := Py.join dir (live_filename code nfy (Py.replace "-" "" latest))).
  assert (Hupd : ∀ d, d ∈ Date <$> df_old → d ∈ Date <$> upd).
  { intros d Hd. unfold upd. destruct (negb _); [|done].
    apply merge_dates; [done|]. unfold Pd.concat. rewrite fmap_app, elem_of_app. by left. }
  unfold bind at 1. destruct (atomic_save upd arch w) as [[[]|e] w1] eqn:E1.
  2:{ intros [= _ <-]. left.
      apply atomic_save_frame in E1 as (Hfr & [[[=] _]|[_ Hp]]).
      destruct (decide (cur = arch)) as [->|Hne]; [done|].
      apply Hfr; [done|]. by apply csv_ne_tmp. }
  apply atomic_save_frame in E1 as (_ & [[_ Hp]|[[e [=]] _]]).
  intros H. right. exists arch, upd. split; [|done].
  unfold bind at 1 in H.
  assert (H2 : ∃ w2, files w2 !! arch = Some upd ∧
             (let* _ := repo_add_file code arch in
              if negb (Pd.empty next) then
                let* df_next := lift (normalize_dates todt next) in
                let* _ := atomic_save df_next newp in repo_add_file code newp
              else ret tt) w2 = (r, w')).
  { destruct (String.eqb_spec cur arch) as [Ec|Ec]; simpl in H.
    - exists w1. done.
    - destruct (remove_old code cur w1) as [r1 w2] eqn:E2.
      assert (Ec' : arch ≠ cur) by congruence.
      pose proof (remove_old_keeps _ _ _ _ _ arch E2 Ec') as Hk.
      apply remove_old_files in E2 as (-> & _). exists w2. by rewrite Hk. }
  clear H. destruct H2 as (w2 & Hp2 & H).
  unfold repo_add_file at 1, bind at 1 in H.
  destruct (negb (Pd.empty next)); [|injection H as _ <-; done].
  unfold lift at 1, bind at 1 in H.
  destruct (normalize_dates todt next) as [df_next|e]; [|injection H as _ <-; done].
  unfold bind at 1 in H.
  match type of H with context [atomic_save df_next newp ?w3] =>
    destruct (atomic_save df_next newp w3) as [r3 w4] eqn:E3 end.
  apply atomic_save_frame in E3 as (Hfr & _).
  assert (Hp4 : files w4 !! arch = Some upd).
  { rewrite Hfr; [done|apply archive_ne_live|apply csv_ne_tmp, archive_path_csv]. }
  destruct r3 as [[]|e]; [|by injection H as _ <-].
  unfold repo_add_file in H. by injection H as _ <-.
Qed.

Lemma normalised_date_kept df df' saved :
  normalised todt df df' → (∀ d, d ∈ Date <$> df' → d ∈ Date <$> saved) →
  Forall (date_kept todt saved) df.
Proof.
  induction 1 as [|r r' df df' (_ & d & Hd & Hr) _ IH]; intros Hs; [constructor|].
  constructor.
  - right. exists d. split; [done|]. apply Hs. rewrite <- Hr. simpl. apply list_elem_of_here.
  - apply IH. intros x Hx. apply Hs. simpl. by apply list_elem_of_further.
Qed.

(** X12: whatever call of the fetch, the merge and the writes fails, the
    dates of the current file survive on disk: after the run the file is as
    it was, or some file holds a table with every date of the old one, as it
    stood or parsed and written again as [%Y-%m-%d].  The old file is removed
    only after the table that replaces it is in place. *)
Theorem old_dates_survive_every_failure (code dir cur from_date target : string)
    (test : bool) (old : DataFrame) (w : world) r w' :
  Py.endswith ".csv" cur = true → files w !! cur = Some old →
  fetch_and_merge api sort todt code dir cur from_date target test w = (r, w') →
  files w' !! cur = Some old ∨
  ∃ q saved, files w' !! q = Some saved ∧ Forall (date_kept todt saved) old.
Proof.
  intros Hcsv Hold. unfold fetch_and_merge. destruct test; [intros [= _ <-]; by left|].
  unfold emit at 1, bind at 1. unfold fetch, emit at 1, bind at 1, bind at 1, lift at 1.
  cbn [files dirs file_map faults trace].
  set (w2 := mkworld _ _ _ _ _).
  assert (Hold2 : files w2 !! cur = Some old) by done. clearbody w2.
  destruct (api code from_date target) as [fetched|e]; [|intros [= _ <-]; by left].
  destruct (Pd.empty fetched); [intros [= _ <-]; by left|].
  unfold bind at 1. destruct (read_csv cur w2) as [[df_old|e] w3] eqn:Er.
  2:{ intros [= _ <-]. left.
      destruct (readonly_same_store _ _ _ _ (readonly_read_csv cur) Er) as ((-> & _) & _).
      done. }
  apply read_csv_Ok in Er as (Hf3 & _ & _ & Hdf). rewrite Hold2 in Hdf. injection Hdf as <-.
  assert (Hold3 : files w3 !! cur = Some old) by (by rewrite Hf3). clear Hf3.
  unfold lift at 1, bind at 1.
  destruct (strptime _ _) as [latest|e]; [|intros [= _ <-]; by left].
  unfold bind at 1.
  destruct (Py.split "_" (Py.basename cur)) as [|? [|fy_part ?]];
    try (intros [= _ <-]; by left).
  unfold ret at 1. unfold bind at 1.
  match goal with |- context [if ?c then rollover ?a ?b ?c1 ?d ?e1 ?f ?g ?h ?i ?j else _] =>
    destruct c end.
  - match goal with |- context [rollover ?a ?b ?c1 ?d ?e1 ?f ?g ?h ?i ?j w3] =>
      destruct (rollover a b c1 d e1 f g h i j w3) as [r4 w4] eqn:E4 end.
    apply rollover_keeps_dates in E4 as [Hk|(q & saved & Hq & Hd)]; [| |done].
    + intros H. left. rewrite <- Hold3, <- Hk. destruct r4; by injection H as _ <-.
    + intros H. right. exists q, saved.
      split; [destruct r4; by injection H as _ <-|].
      apply Forall_forall. intros x Hx. left. apply Hd. by apply list_elem_of_fmap_2.
  - match goal with |- context [normal_update ?a ?b ?c1 ?d ?e1 ?f ?g ?h ?i w3] =>
      destruct (normal_update a b c1 d e1 f g h i w3) as [r4 w4] eqn:E4 end.
    apply normal_update_keeps_dates in E4 as [Hk|(q & saved & old' & Hn & Hq & Hd)]; [| |done].
    + intros H. left. rewrite <- Hold3, <- Hk. destruct r4; by injection H as _ <-.
    + intros H. right. exists q, saved.
      split; [destruct r4; by injection H as _ <-|].
      eapply normalised_date_kept; [by apply normalize_dates_cells|done].
Qed.

End Survive.

Lemma old_dates_survive_every_failure_witness :
  let cur := "dq/3700/72030_2024fy_20250320.csv" in
  let old := [mkrow "2025-03-19" ["1"]; mkrow "2025-03-20" ["2"]] in
  let w := mkworld {[ cur := old ]} {[ "dq/3700" ]} {[ "72030" := [cur] ]}
                   [NoFault; NoFault; Fault OSError None] [] in
  let run := fetch_and_merge (λ _ _ _, Ok [mkrow "2025-03-21" ["3"]]) sort_by_date parse_iso
               "72030" "dq/3700" cur "20250321" "20250321" false w in
  fst run = Raise OSError ∧
  (files (snd run) !! cur = Some old ∨
   ∃ q saved, files (snd run) !! q = Some saved ∧ Forall (date_kept parse_iso saved) old).
Proof.
  intros cur old w run. split; [vm_compute; reflexivity|].
  destruct run as [r w'] eqn:E.
  apply (old_dates_survive_every_failure
           (λ _ _ _, Ok [mkrow "2025-03-21" ["3"]]) sort_by_date parse_iso sort_by_date_sorts
           "72030" "dq/3700" cur "20250321" "20250321" false old w r w').
  - vm_compute. reflexivity.
  - vm_compute. reflexivity.
  - exact E.
Defined.

(** ** [get_latest_business_day] *)

Section CalendarFacts.

Lemma is_leap_cases y : is_leap y = true ∨ is_leap y = false.
Proof. destruct (is_leap y); auto. Qed.

Lemma days_before_year_succ y :
  days_before_year (y + 1) = days_before_year y + 365 + (if is_leap y then 1 else 0).
Proof.
  unfold days_before_year, is_leap.
  replace (y + 1 - 1) with y by lia.
  destruct (Z.eqb_spec (y mod 4) 0), (Z.eqb_spec (y mod 100) 0), (Z.eqb_spec (y mod 400) 0);
    simpl; Z.div_mod_to_equations; lia.
Qed.

Lemma month_cases m : 1 <= m <= 12 →
  m = 1 ∨ m = 2 ∨ m = 3 ∨ m = 4 ∨ m = 5 ∨ m = 6 ∨ m = 7 ∨ m = 8 ∨ m = 9 ∨ m = 10 ∨
  m = 11 ∨ m = 12.
Proof. lia. Qed.

Lemma days_before_month_succ y m : 1 <= m < 12 →
  days_before_month y (m + 1) = days_before_month y m + days_in_month y m.
Proof.
  intros Hm. unfold days_before_month, days_in_month.
  destruct (month_cases m ltac:(lia)) as [H|H];
    repeat (destruct H as [->|H]); try subst m; try lia;
    destruct (is_leap y); reflexivity.
Qed.

Lemma toordinal_pos d : valid d = true → 1 <= toordinal d.
Proof.
  intros Hv. pose proof (valid_bounds _ Hv) as (Hy & Hm & Hd).
  unfold toordinal, days_before_year, days_before_month.
  assert (0 <= DAYS_BEFORE_MONTH (month d)).
  { destruct (month_cases (month d) Hm) as [H|H];
      repeat (destruct H as [->|H]); try rewrite H; done. }
  destruct (_ && _); Z.div_mod_to_equations; lia.
Qed.

(** Going back one day: the ordinal goes down by one; only January 1 of
    year 1 has no day before it. *)
Lemma sub_one_day_spec d :
  valid d = true → 1 < toordinal d →
  ∃ d', sub_one_day d = Ok d' ∧ valid d' = true ∧ toordinal d' = toordinal d - 1.
Proof.
  intros Hv Ho. pose proof (valid_bounds _ Hv) as (Hy & Hm & Hd).
  unfold sub_one_day. destruct d as [y m dd]; simpl in *.
  destruct (Z.ltb_spec 1 dd).
  - eexists. split; [done|]. split.
    + unfold valid in *; simpl in *. 
      repeat (apply andb_prop in Hv as [Hv ?]).
      repeat (apply andb_true_intro; split); try done; apply Z.leb_le; lia.
    + unfold toordinal; simpl. lia.
  - assert (dd = 1) as -> by lia. destruct (Z.ltb_spec 1 m).
    + eexists. split; [done|].
      pose proof (days_in_month_bounds y (m - 1)) as Hb.
      split.
      * unfold valid; simpl.
        repeat (apply andb_true_intro; split); apply Z.leb_le; lia.
      * unfold toordinal; simpl.
        pose proof (days_before_month_succ y (m - 1)) as E.
        replace (m - 1 + 1) with m in E by lia. rewrite E by lia. lia.
    + assert (m = 1) as -> by lia.
      destruct (Z.ltb_spec 1 y).
      * eexists. split; [done|]. split.
        -- unfold valid, days_in_month; simpl.
           repeat (apply andb_true_intro; split); try done; apply Z.leb_le; lia.
        -- unfold toordinal; simpl.
           pose proof (days_before_year_succ (y - 1)) as E.
           replace (y - 1 + 1) with y in E by lia. rewrite E.
           unfold days_before_month. simpl.
           change (DAYS_BEFORE_MONTH 12) with 334. change (DAYS_BEFORE_MONTH 1) with 0.
           destruct (is_leap (y - 1)); lia.
      * assert (y = 1) as -> by lia. unfold toordinal in Ho. simpl in Ho.
        vm_compute in Ho. done.
Qed.

Lemma sub_days_spec n d :
  valid d = true → Z.of_nat n < toordinal d →
  ∃ d', sub_days n d = Ok d' ∧ valid d' = true ∧ toordinal d' = toordinal d - Z.of_nat n.
Proof.
  revert d. induction n as [|n IH]; intros d Hv Ho; simpl.
  - exists d. split; [done|]. split; [done|]. lia.
  - destruct (sub_one_day_spec d Hv) as (d1 & -> & Hv1 & Ho1); [lia|]. simpl.
    destruct (IH d1 Hv1) as (d' & -> & Hv' & Ho'); [lia|].
    exists d'. split; [done|]. split; [done|]. lia.
Qed.

Lemma year_gt_1_ordinal d : valid d = true → 1 < year d → 365 < toordinal d.
Proof.
  intros Hv Hy. pose proof (valid_bounds _ Hv) as (_ & Hm & Hd).
  unfold toordinal, days_before_year, days_before_month.
  assert (0 <= DAYS_BEFORE_MONTH (month d)).
  { destruct (month_cases (month d) Hm) as [H|H];
      repeat (destruct H as [->|H]); try rewrite H; done. }
  destruct (_ && _); Z.div_mod_to_equations; lia.
Qed.

(** The loop back to a weekday ends within two steps, on the day itself
    when it is a weekday, one day back on a Saturday and two on a Sunday,
    and never goes before the first day. *)
Lemma back_to_weekday_spec fuel d :
  valid d = true → (2 <= fuel)%nat →
  ∃ d', back_to_weekday fuel d = Some (Ok d') ∧ valid d' = true ∧
        weekday d' < 5 ∧ toordinal d' = toordinal d - Z.max 0 (weekday d - 4) ∧
        ((weekday d < 5 ∧ d' = d) ∨
         (weekday d = 5 ∧ sub_one_day d = Ok d') ∨
         (weekday d = 6 ∧ ∃ d1, sub_one_day d = Ok d1 ∧ sub_one_day d1 = Ok d')).
Proof.
  intros Hv Hfuel. destruct fuel as [|[|fuel]]; try lia. simpl.
  pose proof (toordinal_pos d Hv) as Hpos.
  destruct (Z.leb_spec 5 (weekday d)) as [H5|H5].
  2:{ exists d. repeat split; try done; try lia. by left. }
  destruct (sub_one_day_spec d Hv) as (d1 & E1 & Hv1 & Ho1).
  { unfold weekday in H5. destruct (decide (toordinal d = 1)) as [E|E]; [|lia].
    rewrite E in H5. vm_compute in H5. done. }
  rewrite E1.
  pose proof (toordinal_pos d1 Hv1) as Hpos1.
  destruct (Z.leb_spec 5 (weekday d1)) as [H51|H51].
  2:{ assert (weekday d = 5)
        by (unfold weekday in *; rewrite Ho1 in *; Z.div_mod_to_equations; lia).
      exists d1. repeat split; try done; try lia. right. by left. }
  destruct (sub_one_day_spec d1 Hv1) as (d2 & E2 & Hv2 & Ho2).
  { unfold weekday in H51. destruct (decide (toordinal d1 = 1)) as [E|E]; [|lia].
    rewrite E in H51. vm_compute in H51. done. }
  rewrite E2.
  assert (H52 : weekday d2 < 5).
  { unfold weekday in *. rewrite Ho2, Ho1. rewrite Ho1 in H51.
    Z.div_mod_to_equations. lia. }
  assert (H6 : weekday d = 6).
  { unfold weekday in *. rewrite Ho1 in *. Z.div_mod_to_equations. lia. }
  assert (Ho : toordinal d2 = toordinal d - Z.max 0 (weekday d - 4)) by lia.
  destruct fuel as [|fuel]; simpl;
    (destruct (Z.leb_spec 5 (weekday d2)); [lia|]);
    exists d2; do 4 (split; [done|]); right; right; eauto.
Qed.

End CalendarFacts.

Lemma insert_cal_desc_perm r l : Permutation (insert_cal_desc r l) (r :: l).
Proof.
  induction l as [|x l IH]; simpl; [done|].
  destruct (Py.le (cal_Date x) (cal_Date r)); [done|].
  rewrite IH. apply perm_swap.
Qed.

Lemma insert_cal_desc_sorted r l :
  StronglySorted cal_order_desc l → StronglySorted cal_order_desc (insert_cal_desc r l).
Proof.
  induction 1 as [|x l Hs IH Hx]; simpl; [repeat constructor|].
  destruct (Py.le (cal_Date x) (cal_Date r)) eqn:E.
  - constructor; [by constructor|].
    constructor; [done|].
    eapply Forall_impl; [exact Hx|]. intros y Hy. unfold cal_order_desc, Py.ge in *.
    by eapply py_le_trans.
  - constructor; [done|].
    rewrite (insert_cal_desc_perm r l). constructor; [|done].
    by apply py_lt_le, py_not_le_lt.
Qed.

Lemma sort_cal_desc_sorts : sorts_desc sort_cal_desc.
Proof.
  intros l. induction l as [|r l [IHp IHs]]; simpl.
  - split; [done|constructor].
  - split.
    + by rewrite insert_cal_desc_perm, IHp.
    + by apply insert_cal_desc_sorted.
Qed.

Section BusinessDayFacts.

Variable api : string → string → result calendar.
Variable sort : list cal_row → list cal_row.

Lemma get_latest_business_day_window fuel now hour minute f14 target :
  sub_days 14 now = Ok f14 → target_date now hour minute = Ok target →
  get_latest_business_day api sort fuel now hour minute =
  match latest_in_calendar api sort (strftime None f14) (strftime None target) with
  | Ok s => Some (Ok s)
  | Raise _ =>
      match back_to_weekday fuel now with
      | Some (Ok d) => Some (Ok (strftime None d))
      | Some (Raise e) => Some (Raise e)
      | None => None
      end
  end.
Proof.
  intros H14 Ht. unfold get_latest_business_day. unfold target_date in Ht.
  by rewrite Ht, H14.
Qed.

Lemma window_exists now hour minute :
  valid now = true → 1 < year now →
  ∃ f14 target, sub_days 14 now = Ok f14 ∧ target_date now hour minute = Ok target.
Proof.
  intros Hv Hy. pose proof (year_gt_1_ordinal now Hv Hy) as Ho.
  destruct (sub_days_spec 14 now Hv) as (f14 & H14 & _); [simpl; lia|].
  exists f14. unfold target_date. destruct (before_1830 hour minute); [|eauto].
  destruct (sub_one_day_spec now Hv) as (t & Ht & _); [lia|]. eauto.
Qed.

(** X13: at every date after year 1 and every time of day, whatever the
    calendar request does, [get_latest_business_day] returns a string and
    raises nothing; the loop back to a weekday needs two iterations at
    most. *)
Theorem business_day_always_found (fuel : nat) (now : date) (hour minute : Z) :
  valid now = true → 1 < year now → (2 <= fuel)%nat →
  ∃ s, get_latest_business_day api sort fuel now hour minute = Some (Ok s).
Proof.
  intros Hv Hy Hfuel.
  destruct (window_exists now hour minute Hv Hy) as (f14 & target & H14 & Ht).
  rewrite (get_latest_business_day_window _ _ _ _ _ _ H14 Ht).
  destruct (latest_in_calendar _ _ _ _); [eauto|].
  destruct (back_to_weekday_spec fuel now Hv Hfuel) as (d & -> & _). eauto.
Qed.

(** X14: when the calendar request fails or shows no business day,
    [get_latest_business_day] returns, as [%Y%m%d], the last day from Monday
    to Friday that is not after today, whatever the time: today itself on a
    weekday, the day before on a Saturday and two days before on a Sunday;
    every day after it up to today is a Saturday or a Sunday. *)
Theorem fallback_is_last_weekday (fuel : nat) (now : date) (hour minute : Z)
    (f14 target : date) :
  valid now = true → (2 <= fuel)%nat →
  sub_days 14 now = Ok f14 → target_date now hour minute = Ok target →
  no_business_day api (strftime None f14) (strftime None target) →
  ∃ d, get_latest_business_day api sort fuel now hour minute = Some (Ok (strftime None d)) ∧
       valid d = true ∧ weekday d < 5 ∧
       ((weekday now < 5 ∧ d = now) ∨
        (weekday now = 5 ∧ sub_one_day now = Ok d) ∨
        (weekday now = 6 ∧ ∃ d1, sub_one_day now = Ok d1 ∧ sub_one_day d1 = Ok d)) ∧
       toordinal d = toordinal now - Z.max 0 (weekday now - 4) ∧
       (∀ d', toordinal d < toordinal d' <= toordinal now → 5 <= weekday d').
Proof.
  intros Hv Hfuel H14 Ht Hno.
  rewrite (get_latest_business_day_window _ _ _ _ _ _ H14 Ht).
  assert (Hr : ∃ e, latest_in_calendar api sort (strftime None f14) (strftime None target)
                    = Raise e).
  { unfold latest_in_calendar. destruct Hno as [[e ->]|(cal & -> & Hb)]; simpl; [eauto|].
    destruct (cal_rows cal); [eauto|]. rewrite Hb. eauto. }
  destruct Hr as [e ->].
  destruct (back_to_weekday_spec fuel now Hv Hfuel) as (d & -> & Hvd & Hwd & Ho & Hsame).
  exists d. do 5 (split; [done|]).
  intros d' Hd'. clear Hsame. unfold weekday in *. Z.div_mod_to_equations. lia.
Qed.

(** X15: when the calendar requested for the window from fourteen days ago
    to the target date (today from 18:30 on, yesterday before) has business
    days (rows with [HolidayDivision] "1", all rows when the column is
    missing), [get_latest_business_day] returns the largest [Date] among
    them, dashes removed. *)
Theorem latest_business_day_from_calendar (fuel : nat) (now : date) (hour minute : Z)
    (f14 target : date) (cal : calendar) :
  sorts_desc sort →
  sub_days 14 now = Ok f14 → target_date now hour minute = Ok target →
  api (strftime None f14) (strftime None target) = Ok cal →
  business_days cal ≠ [] →
  ∃ r, r ∈ business_days cal ∧
       (∀ r', r' ∈ business_days cal → Py.le (cal_Date r') (cal_Date r) = true) ∧
       get_latest_business_day api sort fuel now hour minute
       = Some (Ok (Py.replace "-" "" (cal_Date r))).
Proof.
  intros Hsort H14 Ht Hapi Hne.
  rewrite (get_latest_business_day_window _ _ _ _ _ _ H14 Ht).
  unfold latest_in_calendar. rewrite Hapi. simpl.
  assert (Hrows : cal_rows cal ≠ []).
  { intros E. apply Hne. unfold business_days. rewrite E. by destruct (has_HolidayDivision cal). }
  destruct (cal_rows cal) as [|r0 rows] eqn:Er; [done|]. clear Hrows.
  destruct (business_days cal) as [|b bs] eqn:Eb; [done|].
  destruct (Hsort (b :: bs)) as [Hp Hs].
  destruct (sort (b :: bs)) as [|r rest] eqn:Es.
  { apply Permutation_nil in Hp. done. }
  exists r. split; [|split; [|done]].
  - rewrite <- Hp. apply list_elem_of_here.
  - intros r' Hr'. rewrite <- Hp in Hr'. apply elem_of_cons in Hr' as [->|Hr'].
    + apply py_le_refl.
    + apply StronglySorted_inv in Hs as [_ Hall].
      rewrite Forall_forall in Hall. by apply Hall.
Qed.

End BusinessDayFacts.

Lemma business_day_always_found_witness :
  ∃ s, get_latest_business_day (λ _ _, Raise RuntimeError) sort_cal_desc 2
         (mkdate 2025 3 23) 10 0 = Some (Ok s).
Proof.
  apply business_day_always_found; [vm_compute; reflexivity|simpl; lia|lia].
Defined.

Lemma fallback_is_last_weekday_witness :
  let now := mkdate 2025 3 22 in
  ∃ d, get_latest_business_day (λ _ _, Ok (mkcalendar true [])) sort_cal_desc 2
         now 10 0 = Some (Ok (strftime None d)) ∧
       valid d = true ∧ weekday d < 5 ∧
       ((weekday now < 5 ∧ d = now) ∨
        (weekday now = 5 ∧ sub_one_day now = Ok d) ∨
        (weekday now = 6 ∧ ∃ d1, sub_one_day now = Ok d1 ∧ sub_one_day d1 = Ok d)) ∧
       toordinal d = toordinal now - Z.max 0 (weekday now - 4) ∧
       (∀ d', toordinal d < toordinal d' <= toordinal now → 5 <= weekday d').
Proof.
  intros now.
  apply (fallback_is_last_weekday _ _ 2 now 10 0 (mkdate 2025 3 8) (mkdate 2025 3 21)).
  - vm_compute. reflexivity.
  - lia.
  - vm_compute. reflexivity.
  - vm_compute. reflexivity.
  - right. exists (mkcalendar true []). split; reflexivity.
Defined.

Lemma latest_business_day_from_calendar_witness :
  let cal := mkcalendar true [mkcal "2025-03-19" "1"; mkcal "2025-03-21" "1";
                              mkcal "2025-03-22" "0"; mkcal "2025-03-20" "1"] in
  ∃ r, r ∈ business_days cal ∧
       (∀ r', r' ∈ business_days cal → Py.le (cal_Date r') (cal_Date r) = true) ∧
       get_latest_business_day (λ _ _, Ok cal) sort_cal_desc 0 (mkdate 2025 3 23) 10 0
       = Some (Ok (Py.replace "-" "" (cal_Date r))).
Proof.
  intros cal.
  apply (latest_business_day_from_calendar (λ _ _, Ok cal) sort_cal_desc 0
           (mkdate 2025 3 23) 10 0 (mkdate 2025 3 9) (mkdate 2025 3 22) cal).
  - apply sort_cal_desc_sorts.
  - vm_compute. reflexivity.
  - vm_compute. reflexivity.
  - reflexivity.
  - vm_compute. discriminate.
Defined.

Example latest_business_day_example :
  get_latest_business_day
    (λ _ _, Ok (mkcalendar true [mkcal "2025-03-19" "1"; mkcal "2025-03-21" "1";
                                 mkcal "2025-03-22" "0"; mkcal "2025-03-20" "1"]))
    sort_cal_desc 0 (mkdate 2025 3 23) 10 0
  = Some (Ok "20250321").
Proof. vm_compute. reflexivity. Qed.

(** From a Saturday and from a Sunday the fallback is the Friday before,
    not the Thursday; on a Monday it is the day itself. *)
Example fallback_example :
  weekday (mkdate 2025 3 22) = 5 ∧
  get_latest_business_day (λ _ _, Raise RuntimeError) sort_cal_desc 2 (mkdate 2025 3 22) 10 0
  = Some (Ok "20250321") ∧
  get_latest_business_day (λ _ _, Raise RuntimeError) sort_cal_desc 2 (mkdate 2025 3 23) 10 0
  = Some (Ok "20250321") ∧
  get_latest_business_day (λ _ _, Raise RuntimeError) sort_cal_desc 2 (mkdate 2025 3 24) 10 0
  = Some (Ok "20250324").
Proof. repeat split; vm_compute; reflexivity. Qed.

(** ** [update_topix_data] *)

Section Preserves.

Context (R : world → world → Prop) `{!Reflexive R} `{!Transitive R}.

Lemma preserves_ret {A} (a : A) : preserves R (ret a).
Proof. by intros w r w' [= _ <-]. Qed.

Lemma preserves_raise {A} e : preserves R (raise (A := A) e).
Proof. by intros w r w' [= _ <-]. Qed.

Lemma preserves_lift {A} (x : result A) : preserves R (lift x).
Proof. by intros w r w' [= _ <-]. Qed.

Lemma preserves_bind {A B} (m : M A) (k : A → M B) :
  preserves R m → (∀ a, preserves R (k a)) → preserves R (bind m k).
Proof.
  intros Hm Hk w r w'. unfold bind. destruct (m w) as [[a|e] w1] eqn:E.
  - intros E2. etrans; [by eapply Hm|by eapply Hk].
  - intros [= <- <-]. by eapply Hm.
Qed.

Lemma preserves_try_except {A} (m : M A) (h : exn → M A) :
  preserves R m → (∀ e, preserves R (h e)) → preserves R (try_except m h).
Proof.
  intros Hm Hh w r w'. unfold try_except. destruct (m w) as [[a|e] w1] eqn:E.
  - intros [= <- <-]. by eapply Hm.
  - intros E2. etrans; [by eapply Hm|by eapply Hh].
Qed.

End Preserves.

#[local] Instance same_files_refl : Reflexive same_files.
Proof. by intros w. Qed.

#[local] Instance same_files_trans : Transitive same_files.
Proof. intros w1 w2 w3 [H1 H2] [H3 H4]. split; congruence. Qed.

#[local] Instance same_but_refl p : Reflexive (same_but p).
Proof. by intros w. Qed.

#[local] Instance same_but_trans p : Transitive (same_but p).
Proof.
  intros w1 w2 w3 [H1 H2] [H3 H4]. split; [congruence|].
  intros q Hq Ht. by rewrite H4, H2.
Qed.

Lemma same_files_but p w w' : same_files w w' → same_but p w w'.
Proof. intros [H1 H2]. split; [done|]. intros q _ _. by rewrite H1. Qed.

Lemma preserves_readonly {A} (m : M A) : readonly m → preserves same_files m.
Proof.
  intros Hm w r w' E. destruct (readonly_same_store _ _ _ _ Hm E) as ((? & _ & ?) & _).
  by split.
Qed.

Lemma preserves_makedirs p : preserves same_files (makedirs p).
Proof.
  intros [fs ds fm flts tr] r w'. unfold makedirs, bind, next_fault, raise; simpl.
  destruct flts as [|[|e torn] flts]; by intros [= _ <-].
Qed.

Lemma atomic_save_index df filepath w r w' :
  atomic_save df filepath w = (r, w') → file_map w' = file_map w ∧ dirs w' = dirs w.
Proof.
  assert (Hne := tmp_ne filepath).
  destruct w as [fs ds fm flts tr]. unfold atomic_save. run_io.
  destruct flts as [|[|e0 torn] flts]; proj_io.
  - rewrite lookup_insert_ne by done.
    destruct (fs !! filepath) eqn:Ep; [|destruct (bool_decide _) eqn:Ed]; proj_io;
      rewrite lookup_insert_eq; intros ?; simplify_eq; done.
  - rewrite lookup_insert_ne by done.
    destruct (fs !! filepath) eqn:Ep; [|destruct (bool_decide _) eqn:Ed]; proj_io;
      (destruct flts as [|[|e1 torn1] flts]; proj_io;
       rewrite ?lookup_insert_eq; try (intros ?; simplify_eq; done);
       destruct flts as [|[|e2 torn2] flts]; proj_io;
       rewrite ?lookup_insert_eq; intros ?; simplify_eq; done).
  - destruct torn as [junk|]; proj_io; rewrite ?lookup_insert_eq.
    + destruct flts as [|[|e1 torn1] flts]; proj_io;
        rewrite ?lookup_insert_eq; intros ?; simplify_eq; done.
    + destruct (fs !! (filepath +:+ ".tmp")) eqn:E; [|destruct (bool_decide _)]; proj_io;
        (destruct flts as [|[|e1 torn1] flts]; proj_io;
         rewrite ?E; intros ?; simplify_eq; done).
Qed.

Section TopixFacts.

Variable api : option string → string → result DataFrame.
Variable sort : DataFrame → DataFrame.
Variable todt : string → result date.
Variable root : string.

Lemma readonly_topix_existing p : readonly (topix_existing p).
Proof.
  unfold topix_existing.
  apply readonly_bind; [apply readonly_path_exists|]. intros present.
  destruct present; [|apply readonly_ret].
  apply readonly_try_except; [|intros; apply readonly_ret].
  apply readonly_bind; [apply readonly_read_csv|]. intros df.
  destruct (negb _); apply readonly_ret.
Qed.

Lemma topix_existing_Ok p w r w' :
  topix_existing p w = (r, w') → ∃ x, r = Ok x.
Proof.
  unfold topix_existing, bind at 1. destruct (path_exists p w) as [[present|e] w1] eqn:E1.
  2:{ unfold path_exists, bind, emit in E1. simpl in E1. discriminate. }
  destruct present; [|intros [= <- _]; eauto].
  intros [(x & -> & _)|(e & w2 & _ & [= <- _])]%try_except_inv; eauto.
Qed.

(** The table that is found is the one of the file, or empty when nothing
    is there or the read fails; the last date is that of the table. *)
Lemma topix_existing_tied p w last df_old w' :
  topix_existing p w = (Ok (last, df_old), w') →
  last = topix_last_date df_old ∧
  (files w !! p = Some df_old ∨
   (df_old = [] ∧ (files w !! p = None ∨ (0 < count_faults (faults w))%nat))).
Proof.
  destruct w as [fs ds fm flts tr]. unfold topix_existing, topix_last_date. run_io.
  destruct (fs !! p) as [c|] eqn:Ep.
  - destruct flts as [|[|e torn] flts]; proj_io; rewrite ?Ep;
      try destruct c; cbn [negb Pd.empty]; intros ?; simplify_eq.
    all: split; [done|].
    all: first [by left | right; split; [done|]; right; unfold count_faults; simpl; lia].
  - destruct (bool_decide (p ∈ ds)).
    + destruct flts as [|[|e torn] flts]; proj_io; rewrite ?Ep;
        intros ?; simplify_eq.
      all: split; [done|].
      all: right; split; [done|]; by left.
    + intros ?; simplify_eq. split; [done|]. right. split; [done|]. by left.
Qed.

Lemma makedirs_faults p w w' :
  makedirs p w = (Ok tt, w') → count_faults (faults w') = count_faults (faults w).
Proof.
  destruct w as [fs ds fm flts tr]. unfold makedirs, bind, next_fault, raise; simpl.
  destruct flts as [|[|e torn] flts]; intros [= <-]; done.
Qed.

Lemma path_exists_faults p w r w' : path_exists p w = (r, w') → faults w' = faults w.
Proof. unfold path_exists, bind, emit; simpl. by intros [= _ <-]. Qed.

(** The body of the [try] leaves files and index alone up to the save, and
    saves only in a run that is no dry run, after a request that gave rows:
    the request starts the day after the last date of the table that is
    there, and the table saved combines that table and the rows. *)
Lemma update_topix_body_cases target test w r w' :
  update_topix_body api sort todt root target test w = (r, w') →
  same_files w w' ∨
  ∃ w3 f df_old df_new df,
    same_files w w3 ∧ test = false ∧
    (files w !! get_topix_file_path root = Some df_old ∨
     (df_old = [] ∧ (files w !! get_topix_file_path root = None ∨
                     (0 < count_faults (faults w))%nat))) ∧
    topix_request_from (topix_last_date df_old) f ∧
    api f target = Ok df_new ∧ df_new ≠ [] ∧
    topix_combined sort todt df_old df_new = Ok df ∧
    atomic_save df (get_topix_file_path root) w3 = (r, w').
Proof.
  intros E. unfold update_topix_body in E.
  set (topix := get_topix_file_path root) in *.
  unfold bind at 1 in E.
  destruct (path_exists (get_indices_dir root) w) as [[present|e] w1] eqn:E1.
  2:{ unfold path_exists, bind, emit in E1. simpl in E1. discriminate. }
  apply (preserves_readonly _ (readonly_path_exists _)) in E1 as S1.
  apply path_exists_faults in E1 as F1.
  unfold bind at 1 in E.
  destruct ((if negb present then makedirs (get_indices_dir root) else ret tt) w1)
    as [[[]|e] w2] eqn:E2.
  2:{ injection E as _ <-. left. destruct present; simpl in E2; [discriminate|].
      apply preserves_makedirs in E2 as S2. by etrans. }
  assert (S2 : same_files w w2).
  { etrans; [exact S1|]. destruct present; simpl in E2.
    - by injection E2 as <-.
    - by apply preserves_makedirs in E2. }
  assert (F2 : count_faults (faults w2) = count_faults (faults w)).
  { rewrite <- F1. destruct present; simpl in E2.
    - by injection E2 as <-.
    - by apply makedirs_faults in E2. }
  clear E1 E2 S1 F1 w1.
  unfold bind at 1 in E.
  destruct (topix_existing topix w2) as [[[last df_old]|e] w3] eqn:E3.
  2:{ apply topix_existing_Ok in E3 as (? & [=]). }
  apply (preserves_readonly _ (readonly_topix_existing _)) in E3 as S3.
  apply topix_existing_tied in E3 as [-> Hold].
  assert (Hold' : files w !! topix = Some df_old ∨
                  (df_old = [] ∧ (files w !! topix = None ∨
                                  (0 < count_faults (faults w))%nat))).
  { destruct S2 as [Hfs _]. rewrite Hfs, F2 in Hold.
    destruct Hold as [?|[? [?|?]]]; auto. }
  assert (S : same_files w w3) by (by etrans). clear S2 S3 Hold F2 w2.
  cbn [fst snd] in E. unfold topix_fetch_and_save in E.
  set (last := topix_last_date df_old) in *.
  destruct (match last with Some s => _ | None => false end);
    [injection E as _ <-; by left|].
  unfold bind at 1 in E.
  destruct ((match last with
             | Some "" | None => ret None
             | Some _ => _ end) w3) as [[f|e] w4] eqn:E4.
  2:{ injection E as _ <-. left.
      destruct last as [[|a s]|]; try discriminate.
      unfold bind, lift in E4. destruct (from_date_str _); [discriminate|].
      by injection E4 as _ <-. }
  assert (w4 = w3 ∧ topix_request_from last f) as [-> Hreq].
  { destruct last as [[|a s]|]; try (by injection E4 as <- <-).
    unfold bind, lift, ret in E4. destruct (from_date_str _) as [fd|] eqn:Ef; [|discriminate].
    injection E4 as <- <-. split; [done|]. simpl. eauto. }
  clear E4.
  destruct test; [injection E as _ <-; by left|].
  unfold lift at 1, bind at 1 in E.
  destruct (api f target) as [df_new|e] eqn:Ea; [|injection E as _ <-; by left].
  destruct (Pd.empty df_new) eqn:Ee; [injection E as _ <-; by left|].
  unfold lift at 1, bind at 1 in E.
  destruct (topix_combined sort todt df_old df_new) as [df|e] eqn:Ec;
    [|injection E as _ <-; by left].
  right. exists w3, f, df_old, df_new, df. repeat split; try done; try apply S.
  by destruct df_new.
Qed.

(** X16: [update_topix_data] raises nothing, whatever fails; it leaves the
    index and every file but the index table and its temporary file alone;
    afterwards the index table is as it was or, in a run that is no dry run,
    the table combined from the table that was there (none when nothing is
    there or a call fails) and the rows, not none, that the API gave for
    the request from the day after the last date of that table. *)
Theorem topix_update_never_raises (target : string) (test : bool) (w : world) r w' :
  update_topix_data api sort todt root target test w = (r, w') →
  let topix := get_topix_file_path root in
  r = Ok tt ∧ file_map w' = file_map w ∧
  (∀ q, q ≠ topix → q ≠ topix +:+ ".tmp" → files w' !! q = files w !! q) ∧
  (files w' !! topix = files w !! topix ∨
   ∃ f df_old df_new df,
     test = false ∧
     (files w !! topix = Some df_old ∨
      (df_old = [] ∧ (files w !! topix = None ∨ (0 < count_faults (faults w))%nat))) ∧
     topix_request_from (topix_last_date df_old) f ∧
     api f target = Ok df_new ∧ df_new ≠ [] ∧
     topix_combined sort todt df_old df_new = Ok df ∧ files w' !! topix = Some df).
Proof.
  intros E topix. subst topix.
  assert (Hr : r = Ok tt).
  { apply try_except_inv in E as [(x & -> & _)|(e & w1 & _ & [= <- _])]; [by destruct x|done]. }
  split; [done|].
  assert (Hbody : ∃ r0, update_topix_body api sort todt root target test w = (r0, w')).
  { apply try_except_inv in E as [(x & _ & E)|(e & w1 & E & [= _ <-])]; eauto. }
  clear E. destruct Hbody as (r0 & E).
  apply update_topix_body_cases in E
    as [[Hf Hm]|(w3 & f & df_old & df_new & df & [Hf Hm] & Ht & Hold & Hreq & Ha & Hne & Hc & E)].
  { rewrite Hf. auto. }
  pose proof (atomic_save_index _ _ _ _ _ E) as [Hm' _].
  apply atomic_save_frame in E as (Hfr & Hres).
  split; [congruence|]. split.
  - intros q H1 H2. rewrite Hfr by done. by rewrite Hf.
  - destruct Hres as [[_ Hp]|[_ Hp]].
    + right. by exists f, df_old, df_new, df.
    + left. by rewrite Hp, Hf.
Qed.

Lemma path_prefixes_whole pre p :
  pre +:+ p ≠ "" → pre +:+ p ∈ path_prefixes pre p.
Proof.
  revert pre. induction p as [|c p IH]; intros pre Hne; simpl.
  - rewrite append_empty_r in *. destruct (String.eqb_spec pre ""); [done|].
    apply list_elem_of_here.
  - apply elem_of_app. right.
    replace (pre +:+ String c p) with ((pre +:+ String c "") +:+ p)
      by (by rewrite append_assoc).
    apply IH. rewrite append_assoc. simpl. by destruct pre.
Qed.

Lemma join_nonempty a b : b ≠ "" → Py.join a b ≠ "".
Proof.
  intros Hb. unfold Py.join. destruct (Py.startswith "/" b); [done|].
  destruct (_ || _); destruct a, b; done.
Qed.

(** X17: a dry run of [update_topix_data] does not depend on what the API
    would answer and changes neither files nor index; it does make the
    directory of the index tables when that is missing and no call fails. *)
Theorem topix_dry_run_requests_nothing (api' : option string → string → result DataFrame)
    (target : string) (w : world) :
  let run := update_topix_data api sort todt root target true w in
  update_topix_data api' sort todt root target true w = run ∧
  same_files w (snd run) ∧
  (faults w = [] → exists_at (get_indices_dir root) (snd run)).
Proof.
  intros run. split; [reflexivity|].
  destruct run as [r w'] eqn:E. subst run. simpl. split.
  - apply try_except_inv in E as [(x & _ & E)|(e & w1 & E & [= _ <-])];
      apply update_topix_body_cases in E as [S|(? & ? & ? & ? & ? & _ & [=] & _)]; done.
  - intros Hf. revert E. unfold update_topix_data, update_topix_body, try_except, bind at 1.
    destruct (path_exists (get_indices_dir root) w) as [[present|e] w1] eqn:E1.
    2:{ unfold path_exists, bind, emit in E1. simpl in E1. discriminate. }
    assert (Hw1 : faults w1 = [] ∧
                  if present then exists_at (get_indices_dir root) w1 else True).
    { unfold path_exists, bind, emit in E1. simpl in E1. injection E1 as <- <-.
      split; [done|]. unfold exists_at. simpl.
      destruct (files w !! get_indices_dir root); [left; eauto|].
      case_bool_decide; [by right|done]. }
    destruct Hw1 as [Hf1 Hex1]. clear E1.
    unfold bind at 1.
    assert (Hmk : ∃ w2, (if negb present then makedirs (get_indices_dir root) else ret tt) w1
                        = (Ok tt, w2) ∧ exists_at (get_indices_dir root) w2).
    { destruct present; simpl; [by exists w1|].
      destruct w1 as [fs ds fm flts tr]. simpl in Hf1. subst flts.
      unfold makedirs, bind, next_fault. simpl. eexists. split; [done|].
      right. simpl. apply elem_of_union. left. apply elem_of_list_to_set.
      apply (path_prefixes_whole "" (get_indices_dir root)).
      rewrite append_empty_l. by apply join_nonempty. }
    destruct Hmk as (w2 & -> & Hex2).
    match goal with |- context [bind ?m ?k w2] => set (rest := bind m k) end.
    assert (Hro : readonly rest).
    { unfold rest. apply readonly_bind; [apply readonly_topix_existing|]. intros existing.
      unfold topix_fetch_and_save.
      destruct (match existing.1 with Some s => _ | None => false end); [apply readonly_ret|].
      apply readonly_bind; [|intros; apply readonly_ret].
      destruct (existing.1) as [[|a s]|]; try apply readonly_ret.
      apply readonly_bind; [|intros; apply readonly_ret].
      intros w0. exists (from_date_str (String a s)), [], 0%nat.
      unfold lift, advance, with_trace. destruct w0; simpl.
      repeat split; intros; by rewrite ?drop_0, ?app_nil_r. }
    destruct (rest w2) as [r2 w3] eqn:E3.
    destruct (readonly_same_store _ _ _ _ Hro E3) as ((Hfs & Hds & _) & _).
    assert (Hex3 : exists_at (get_indices_dir root) w3).
    { unfold exists_at. by rewrite Hfs, Hds. }
    destruct r2; by intros [= _ <-].
Qed.

Hypothesis sort_ok : sorts_by_date sort.

(** Without a failing call, the directory is there after the first two
    steps and the files are as before. *)
Lemma topix_prefix_run target test w :
  faults w = [] ∨ exists_at (get_indices_dir root) w →
  ∃ w2, faults w2 = faults w ∧ files w2 = files w ∧ dirs w ⊆ dirs w2 ∧
        update_topix_body api sort todt root target test w
        = (let* existing := topix_existing (get_topix_file_path root) in
           topix_fetch_and_save api sort todt (get_topix_file_path root)
             (fst existing) (snd existing) target test) w2.
Proof.
  intros H. destruct w as [fs ds fm flts tr].
  unfold update_topix_body, bind at 1, path_exists, emit, bind at 1. cbn [fst snd files dirs].
  destruct (match fs !! get_indices_dir root with
            | Some _ => true
            | None => bool_decide (get_indices_dir root ∈ ds)
            end) eqn:Ep; cbn [negb].
  - unfold ret at 1, bind at 1. eexists. split; [|split; [|split]]; [| | |reflexivity]; done.
  - destruct H as [Hf|[[x Hx]|Hd]]; simpl in *.
    + subst flts. unfold makedirs, bind at 2, next_fault, bind at 1. simpl.
      eexists. split; [|split; [|split]]; [| | |reflexivity]; simpl; [done..|].
      apply union_subseteq_r.
    + by rewrite Hx in Ep.
    + destruct (fs !! get_indices_dir root); [done|]. by rewrite bool_decide_true in Ep.
Qed.

Lemma topix_existing_old p old w :
  faults w = [] → files w !! p = Some old → old ≠ [] →
  ∃ w3, topix_existing p w
        = (Ok (Some (if has_char "-" (Pd.max_date old)
                     then Py.replace "-" "" (Pd.max_date old) else Pd.max_date old), old), w3) ∧
        faults w3 = [] ∧ files w3 = files w.
Proof.
  intros Hf Hp Hne. destruct w as [fs ds fm flts tr]. simpl in *. subst flts.
  unfold topix_existing. run_io. rewrite Hp. proj_io. rewrite Hp.
  destruct old; [done|]. simpl. eauto.
Qed.

Lemma topix_existing_none p w :
  (faults w = [] ∧ (files w !! p = None ∨ files w !! p = Some [])) ∨
  (exists_at p w ∧ ∃ e torn, faults w = [Fault e torn]) →
  ∃ w3, topix_existing p w = (Ok (None, []), w3) ∧ faults w3 = [] ∧ files w3 = files w.
Proof.
  destruct w as [fs ds fm flts tr]. unfold exists_at. simpl.
  intros [[-> Hp]|[Hex (e & torn & ->)]]; unfold topix_existing; run_io.
  - destruct Hp as [Hp|Hp]; rewrite Hp; proj_io.
    + destruct (bool_decide _); proj_io; rewrite ?Hp; eauto.
    + rewrite Hp. simpl. eauto.
  - destruct Hex as [[x Hx]|Hd].
    + rewrite Hx. proj_io. eauto.
    + destruct (fs !! p); proj_io; [eauto|]. rewrite bool_decide_true by done. proj_io. eauto.
Qed.

Lemma topix_save_run df w :
  faults w = [] →
  ∃ w', atomic_save df (get_topix_file_path root) w = (Ok tt, w') ∧
        files w' !! get_topix_file_path root = Some df.
Proof.
  intros H. destruct (atomic_save_run df (get_topix_file_path root) w H) as (evs & E).
  eexists. split; [exact E|]. simpl. by rewrite lookup_insert_eq.
Qed.


(** X19: when nothing is at the path, the table there is empty, or its read
    fails, the request has no start date and the saved table is the fetched
    rows with normalised dates, sorted: nothing of an unreadable old file is
    kept, and rows of the same date all stay. *)
Theorem topix_starts_from_request_alone (target : string) (new new' : DataFrame) (w : world) :
  let topix := get_topix_file_path root in
  no_table (get_indices_dir root) topix w →
  api None target = Ok new → new ≠ [] → normalize_dates todt new = Ok new' →
  ∃ w', update_topix_data api sort todt root target false w = (Ok tt, w') ∧
        files w' !! topix = Some (sort new') ∧
        Permutation (sort new') new' ∧ StronglySorted date_order (sort new').
Proof.
  intros topix Hno Hapi Hnew Hnorm. subst topix.
  assert (Hpre : faults w = [] ∨ exists_at (get_indices_dir root) w).
  { destruct Hno as [[? _]|[? _]]; auto. }
  unfold update_topix_data, try_except.
  destruct (topix_prefix_run target false w Hpre) as (w2 & Hf2 & Hfs2 & Hds2 & ->).
  destruct (topix_existing_none (get_topix_file_path root) w2) as (w3 & E3 & Hf3 & Hfs3).
  { rewrite Hf2, Hfs2. destruct Hno as [?|(_ & Hex & ?)]; [by left|right].
    split; [|done]. unfold exists_at in *. rewrite Hfs2.
    destruct Hex as [?|?]; [by left|right]. by apply Hds2. }
  rewrite (bind_run _ _ _ _ _ E3). cbn [fst snd].
  unfold topix_fetch_and_save. unfold ret at 1, bind at 1.
  unfold lift at 1, bind at 1. rewrite Hapi. rewrite (empty_false _ Hnew).
  unfold lift at 1, bind at 1, topix_combined. rewrite Hnorm. cbn [rbind Pd.empty negb].
  destruct (topix_save_run (sort new') w3 Hf3) as (w' & -> & Hp).
  exists w'. split; [done|]. split; [done|]. apply sort_ok.
Qed.

End TopixFacts.

Lemma topix_update_never_raises_witness :
  let topix := "/proj/jqdb/indices/topix_daily.csv" in
  let old := [mkrow "2025-03-19" ["1"]; mkrow "2025-03-20" ["2"]] in
  let w := mkworld {[ topix := old ]} {[ "/proj/jqdb/indices" ]} ∅
                   [NoFault; NoFault; Fault OSError None] [] in
  let run := update_topix_data (λ _ _, Ok [mkrow "2025-03-21" ["3"]]) sort_by_date parse_iso
               "/proj" "20250321" false w in
  fst run = Ok tt ∧ file_map (snd run) = file_map w ∧
  files (snd run) !! topix = Some old.
Proof.
  intros topix old w run. destruct run as [r w'] eqn:E.
  destruct (topix_update_never_raises _ _ _ _ _ _ _ _ _ E) as (Hr & Hm & _ & _).
  split; [done|]. split; [done|].
  apply (f_equal snd) in E. simpl in E. subst w'. vm_compute. reflexivity.
Defined.


Lemma topix_starts_from_request_alone_witness :
  let topix := "/proj/jqdb/indices/topix_daily.csv" in
  let new := [mkrow "2025-03-21" ["3"]; mkrow "2025-03-20" ["2"]; mkrow "2025-03-21" ["3b"]] in
  let w := mkworld ∅ ∅ ∅ [] [] in
  ∃ w', update_topix_data (λ _ _, Ok new) sort_by_date parse_iso "/proj" "20250321" false w
        = (Ok tt, w') ∧
        files w' !! topix = Some (sort_by_date new) ∧
        Permutation (sort_by_date new) new.
Proof.
  intros topix new w.
  destruct (topix_starts_from_request_alone (λ _ _, Ok new) sort_by_date parse_iso "/proj"
              sort_by_date_sorts "20250321" new new w)
    as (w' & E & Hp & Hperm & _).
  - left. split; [reflexivity|]. left. vm_compute. reflexivity.
  - reflexivity.
  - discriminate.
  - vm_compute. reflexivity.
  - exists w'. auto.
Defined.

(** ** The loop of [main] *)

Section MainLoop.

Variable api : string → string → string → result DataFrame.
Variable sort : DataFrame → DataFrame.
Variable todt : string → result date.

Lemma counted_count o c : counted (count o c) = counted c + 1.
Proof. unfold counted. destruct o; simpl; lia. Qed.

Lemma counters_le_count o c : counters_le c (count o c).
Proof. unfold counters_le. destruct o; simpl; lia. Qed.

Lemma updated_error_count o c :
  count_updated (count o c) + count_error (count o c)
  <= count_updated c + count_error c + 1.
Proof. destruct o; simpl; lia. Qed.

(** X20: when the loop of [main] ends without an exception, the three
    counters have gone up by one for each row visited, none has gone down,
    and but for a dry run every row of the table was visited. *)
Theorem main_loop_counts_every_row (dq target : string) (test : bool) (i : Z)
    (rows : list listed_row) (c c' : counters) (w w' : world) :
  main_loop api sort todt dq target test i rows c w = (Ok c', w') →
  ∃ n : nat, (n <= length rows)%nat ∧ counted c' = counted c + Z.of_nat n ∧
             (test = false → n = length rows) ∧ counters_le c c'.
Proof.
  revert i c w. induction rows as [|row rows IH]; intros i c w; simpl.
  - intros [= <- _]. exists 0%nat. unfold counters_le. repeat split; lia.
  - destruct (in_target_markets (MarketCodeName row)); simpl.
    + destruct (test && (10 <=? i)) eqn:Et.
      * intros [= <- _]. exists 0%nat. unfold counters_le.
        repeat split; try lia. intros ->. done.
      * intros (o & w1 & _ & H)%bind_Ok_inv.
        destruct (IH _ _ _ H) as (n & Hn & Hc & Ht & Hle).
        exists (S n). rewrite counted_count in Hc.
        pose proof (counters_le_count o c). unfold counters_le in *.
        repeat split; try lia. intros Hf. by rewrite (Ht Hf).
    + intros H. destruct (IH _ _ _ H) as (n & Hn & Hc & Ht & Hle).
      exists (S n). unfold counted, counters_le in *. simpl in *.
      repeat split; try lia. intros Hf. by rewrite (Ht Hf).
Qed.

(** X21: in a dry run started at row 0 the loop counts at most ten updates
    and errors: it stops at the first row of a target market whose position
    is 10 or more. *)
Theorem dry_run_stops_at_ten (dq target : string) (i : Z) (rows : list listed_row)
    (c c' : counters) (w w' : world) :
  main_loop api sort todt dq target true i rows c w = (Ok c', w') → 0 <= i →
  count_updated c' + count_error c' <= count_updated c + count_error c + Z.max 0 (10 - i).
Proof.
  revert i c w. induction rows as [|row rows IH]; intros i c w; simpl.
  - intros [= <- _]. lia.
  - destruct (in_target_markets (MarketCodeName row)); simpl.
    + destruct (Z.leb_spec 10 i) as [Hge|Hlt].
      * intros [= <- _]. lia.
      * intros (o & w1 & _ & H)%bind_Ok_inv Hi.
        specialize (IH _ _ _ H ltac:(lia)).
        pose proof (updated_error_count o c). lia.
    + intros H Hi. specialize (IH _ _ _ H ltac:(lia)). simpl in IH. lia.
Qed.

Lemma count_skip_more o n c : count o (skip_more n c) = skip_more n (count o c).
Proof. destruct o; unfold skip_more; simpl; f_equal; lia. Qed.

Lemma skip_more_0 c : skip_more 0 c = c.
Proof. destruct c. unfold skip_more. simpl. f_equal. lia. Qed.

Lemma skip_more_add n m c : skip_more n (skip_more m c) = skip_more (m + n) c.
Proof. unfold skip_more. simpl. f_equal. lia. Qed.

(** X22: but for a dry run, rows of other markets than Prime, Standard and
    Growth only add to the skipped count: the loop ends, result, counters and
    world, as the loop over the rows of the three markets alone with that
    many more skipped. *)
Theorem other_markets_are_only_counted (dq target : string) (i j : Z)
    (rows : list listed_row) (c : counters) (w : world) :
  let targets := List.filter (λ row, in_target_markets (MarketCodeName row)) rows in
  main_loop api sort todt dq target false i rows c w
  = main_loop api sort todt dq target false j targets
      (skip_more (Z.of_nat (length rows) - Z.of_nat (length targets)) c) w.
Proof.
  simpl. revert i j c w. induction rows as [|row rows IH]; intros i j c w.
  - simpl. by rewrite skip_more_0.
  - cbn [main_loop List.filter].
    destruct (in_target_markets (MarketCodeName row)) eqn:Em;
      cbn [negb andb length main_loop]; rewrite ?Em; cbn [negb andb].
    + unfold bind. destruct (update_file_for_code _ _ _ _ _ _ _ _ w) as [[o|e] w1]; [|done].
      rewrite (IH (i + 1) (j + 1)). rewrite count_skip_more. do 2 f_equal. lia.
    + rewrite (IH (i + 1) j).
      change (mkcounters (count_updated c) (count_skipped c + 1) (count_error c))
        with (skip_more 1 c).
      rewrite skip_more_add. do 2 f_equal. lia.
Qed.

End MainLoop.

Lemma main_loop_counts_every_row_witness :
  let rows := [mklisted "72030" "3700" (Some "プライム"); mklisted "13010" "0050" (Some "TOKYO PRO Market")] in
  let run := main_loop (λ _ _ _, Ok []) sort_by_date parse_iso "dq" "20250325" false 0 rows
               (mkcounters 0 0 0) (mkworld ∅ ∅ ∅ [] []) in
  ∃ c', fst run = Ok c' ∧ counted c' = 2.
Proof.
  intros rows run. destruct run as [r w'] eqn:E.
  assert (Hr : ∃ c', r = Ok c').
  { apply (f_equal fst) in E. vm_compute in E. subst r. eauto. }
  destruct Hr as [c' ->]. exists c'. split; [done|].
  destruct (main_loop_counts_every_row _ _ _ _ _ _ _ _ _ _ _ _ E) as (n & _ & Hc & Ht & _).
  rewrite Hc, (Ht eq_refl). reflexivity.
Defined.

Lemma dry_run_stops_at_ten_witness :
  let rows := repeat (mklisted "72030" "3700" (Some "プライム")) 12 in
  let run := main_loop (λ _ _ _, Ok []) sort_by_date parse_iso "dq" "20250325" true 0 rows
               (mkcounters 0 0 0)
               (mkworld ∅ {[ "dq/3700" ]}
                  {[ "72030" := ["dq/3700/72030_2024fy_20250320.csv"] ]} [] []) in
  ∃ c', fst run = Ok c' ∧ count_updated c' + count_error c' <= 10.
Proof.
  intros rows run. destruct run as [r w'] eqn:E.
  assert (Hr : ∃ c', r = Ok c').
  { apply (f_equal fst) in E. vm_compute in E. subst r. eauto. }
  destruct Hr as [c' ->]. exists c'. split; [done|].
  pose proof (dry_run_stops_at_ten _ _ _ _ _ _ _ _ _ _ _ E ltac:(lia)) as H.
  simpl in H. lia.
Defined.

Example dry_run_ten_of_twelve :
  fst (main_loop (λ _ _ _, Ok []) sort_by_date parse_iso "dq" "20250325" true 0
         (repeat (mklisted "72030" "3700" (Some "プライム")) 12)
         (mkcounters 0 0 0)
         (mkworld ∅ {[ "dq/3700" ]}
            {[ "72030" := ["dq/3700/72030_2024fy_20250320.csv"] ]} [] []))
  = Ok (mkcounters 10 0 0).
Proof. vm_compute. reflexivity. Qed.

(** ** Running the update twice *)

Section FileNames.

Lemma split_app c a b :
  Py.split c (a +:+ String c b) = Py.split c a ++ Py.split c b.
Proof.
  induction a as [|x a IH].
  - rewrite append_empty_l. simpl. by rewrite Ascii.eqb_refl.
  - rewrite append_String. simpl. rewrite IH.
    pose proof (split_nonempty c a).
    destruct (Ascii.eqb x c); [done|]. by destruct (Py.split c a).
Qed.

Lemma split_no_sep c s : has_char c s = false → Py.split c s = [s].
Proof.
  induction s as [|x s IH]; [done|]. simpl.
  intros [Hx Hs]%orb_false_iff. rewrite Hx, IH; done.
Qed.

Lemma last_part_app l1 l2 : l2 ≠ [] → Py.last_part (l1 ++ l2) = Py.last_part l2.
Proof.
  intros Hne. unfold Py.last_part. induction l1 as [|x l1 IH]; [done|].
  simpl. destruct (l1 ++ l2) eqn:E; [by apply app_eq_nil in E as [_ ?]|done].
Qed.

Lemma last_part_cons x l : l ≠ [] → Py.last_part (x :: l) = Py.last_part l.
Proof. intros H. by destruct l. Qed.

(** Appending text without separator extends the last part. *)
Lemma last_part_split_tail c a t :
  has_char c t = false →
  Py.last_part (Py.split c (a +:+ t)) = Py.last_part (Py.split c a) +:+ t.
Proof.
  intros Ht. induction a as [|x a IH].
  - rewrite append_empty_l, split_no_sep by done. simpl. by rewrite append_empty_l.
  - rewrite append_String. simpl.
    pose proof (split_nonempty c a) as H1. pose proof (split_nonempty c (a +:+ t)) as H2.
    destruct (Ascii.eqb x c).
    + by rewrite !last_part_cons, IH.
    + destruct (Py.split c (a +:+ t)) as [|h [|h' tl]] eqn:E1; [done|..];
        destruct (Py.split c a) as [|g [|g' tl']] eqn:E2; try done.
      * unfold Py.last_part in *; simpl in *. rewrite IH. by rewrite append_String.
      * exfalso.
        pose proof (split_length_has_char c (a +:+ t)) as La.
        pose proof (split_length_has_char c a) as Lb.
        rewrite E1 in La. rewrite E2 in Lb. simpl in La, Lb.
        rewrite has_char_append, <- Lb in La. done.
      * exfalso.
        pose proof (split_length_has_char c (a +:+ t)) as La.
        pose proof (split_length_has_char c a) as Lb.
        rewrite E1 in La. rewrite E2 in Lb. simpl in La, Lb.
        rewrite has_char_append, <- Lb, Ht in La. done.
Qed.

Lemma pretty_N_char_not_slash k : Ascii.eqb (pretty_N_char k) "/" = false.
Proof. unfold pretty_N_char. by repeat case_match. Qed.

Lemma pretty_N_go_no_slash x s :
  has_char "/" s = false → has_char "/" (pretty_N_go x s) = false.
Proof.
  revert s. induction (N.lt_wf_0 x) as [x _ IH]; intros s Hs.
  assert (x = 0 ∨ 0 < x)%N as [->|Hx] by lia; [by rewrite pretty_N_go_0|].
  rewrite pretty_N_go_step by done. apply IH.
  - by apply N.div_lt.
  - simpl. by rewrite pretty_N_char_not_slash.
Qed.

Lemma pretty_Z_no_slash (z : Z) : has_char "/" (pretty z) = false.
Proof.
  destruct z as [|p|p]; [done|..].
  - unfold pretty, pretty_Z, pretty, pretty_positive, pretty, pretty_N.
    case_decide; [done|]. by apply pretty_N_go_no_slash.
  - unfold pretty, pretty_Z. rewrite has_char_append. simpl.
    unfold pretty, pretty_positive, pretty, pretty_N.
    case_decide; [done|]. by apply pretty_N_go_no_slash.
Qed.

(** The name of a live file, read back: three parts or more, the last
    field being the date. *)
Lemma live_path_fields dir code fy plain :
  has_char "/" plain = false → has_char "_" plain = false → has_char "." plain = false →
  let parts := Py.split "_" (Py.basename (Py.join dir (live_filename code fy plain))) in
  (3 <=? length parts)%nat = true ∧
  List.hd "" (Py.split "." (Py.last_part parts)) = plain.
Proof.
  intros Hs Hu Hd parts. subst parts.
  destruct (join_suffix dir (live_filename code fy plain)) as [pre ->].
  unfold live_filename, Py.basename.
  set (tail := pretty fy +:+ "fy_" +:+ plain +:+ ".csv").
  assert (Htail : has_char "/" tail = false).
  { unfold tail. rewrite !has_char_append, pretty_Z_no_slash, Hs. reflexivity. }
  assert (E : pre +:+ code +:+ "_" +:+ tail = ((pre +:+ code) +:+ "_") +:+ tail)
    by (by rewrite !append_assoc).
  rewrite E. clear E.
  rewrite (last_part_split_tail "/" ((pre +:+ code) +:+ "_") tail Htail).
  rewrite (last_part_split_tail "/" (pre +:+ code) "_" eq_refl).
  set (B := Py.last_part (Py.split "/" (pre +:+ code))).
  assert (E : (B +:+ "_") +:+ tail
              = B +:+ String "_" ((pretty fy +:+ "fy") +:+ String "_" (plain +:+ ".csv")))
    by (unfold tail; rewrite !append_assoc; done).
  rewrite E. clear E.
  rewrite split_app, split_app.
  assert (Hp : Py.split "_" (plain +:+ ".csv") = [plain +:+ ".csv"]).
  { apply split_no_sep. rewrite has_char_append, Hu. reflexivity. }
  rewrite Hp. split.
  - pose proof (split_nonempty "_" B). pose proof (split_nonempty "_" (pretty fy +:+ "fy")).
    destruct (Py.split "_" B), (Py.split "_" (pretty fy +:+ "fy")); try done.
    apply Nat.leb_le. rewrite !length_app. simpl. lia.
  - rewrite app_assoc, last_part_app by done. unfold Py.last_part. simpl.
    change (plain +:+ ".csv") with (plain +:+ String "." "csv").
    rewrite split_app, (split_no_sep "." plain Hd). done.
Qed.

End FileNames.


Section Rerun.

Variable api : string → string → string → result DataFrame.
Variable sort : DataFrame → DataFrame.
Variable todt : string → result date.
Hypothesis sort_ok : sorts_by_date sort.

Lemma locate_inr_latest code sc dq w p last w1 :
  locate code sc dq w = (Ok (inr (p, last)), w1) →
  FileRepository.get_latest_file (file_map w) code = Ok (Some p).
Proof.
  unfold locate. intros (present & wA & HA & H)%bind_Ok_inv.
  destruct present; simpl in H; [|discriminate].
  apply (preserves_readonly _ (readonly_path_exists _)) in HA as [_ HmA].
  apply bind_Ok_inv in H as (cur & wB & HB & H).
  unfold repo_get_latest_file in HB. injection HB as HB <-.
  apply bind_Ok_inv in H as (located & wC & HC & H).
  destruct located as [o|[last'|]]; [discriminate| |destruct cur; discriminate].
  destruct cur as [p'|]; [|discriminate].
  destruct (String.eqb last' ""); [discriminate|].
  injection H as -> -> ->. by rewrite <- HmA.
Qed.

(** Every file listed with the latest one has a key that is not larger. *)
Lemma latest_bounds_keys fm code cur kc :
  FileRepository.get_latest_file fm code = Ok (Some cur) →
  FileRepository.sort_key cur = Ok kc →
  ∃ files, fm !! code = Some files ∧ cur ∈ files ∧
           Forall (λ f, ∃ k, FileRepository.sort_key f = Ok k ∧ k <= kc) files.
Proof.
  intros Hl Hk. unfold FileRepository.get_latest_file in Hl.
  destruct (fm !! code) as [[|f0 fs]|] eqn:Efm; try discriminate.
  destruct (FileRepository.keyed (f0 :: fs)) as [ks|e] eqn:Ek; [|discriminate].
  destruct (LatestFacts.get_latest_file_first_max fm code (f0 :: fs) ks Efm ltac:(done) Ek)
    as (k & f & l1 & l2 & Hg & Hkf & Hks & H1 & H2).
  unfold FileRepository.get_latest_file in Hg. rewrite Efm, Ek in Hg. simpl in Hg, Hl.
  rewrite Hg in Hl. injection Hl as ->. rewrite Hk in Hkf. injection Hkf as <-.
  exists (f0 :: fs). split; [done|].
  pose proof (LatestFacts.keyed_snd _ _ Ek) as Hsnd.
  pose proof (LatestFacts.keyed_fst _ _ Ek) as Hfst.
  split.
  - rewrite <- Hsnd, Hks, fmap_app, elem_of_app. right. simpl. apply list_elem_of_here.
  - rewrite <- Hsnd. apply Forall_fmap. rewrite Forall_forall in Hfst.
    apply Forall_forall. intros y Hy. simpl. exists (fst y). split; [by apply Hfst|].
    rewrite Hks in Hy. apply elem_of_app in Hy as [Hy|Hy].
    + rewrite Forall_forall in H1. specialize (H1 y Hy). simpl in H1. lia.
    + apply elem_of_cons in Hy as [->|Hy]; [simpl; lia|].
      rewrite Forall_forall in H2. by apply H2.
Qed.

Lemma list_remove_sub p l x : x ∈ FileRepository.list_remove p l → x ∈ l.
Proof.
  induction l as [|y l IH]; simpl; [done|].
  destruct (String.eqb y p).
  - intros H. by apply list_elem_of_further.
  - intros [->|H]%elem_of_cons; [apply list_elem_of_here|].
    apply list_elem_of_further. by apply IH.
Qed.

Lemma normalize_dates_app_intro a b a' b' :
  normalize_dates todt a = Ok a' → normalize_dates todt b = Ok b' →
  normalize_dates todt (a ++ b) = Ok (a' ++ b').
Proof.
  revert a'. induction a as [|r a IH]; intros a'; simpl.
  - by intros [= <-].
  - destruct (todt (Date r)) as [d|]; simpl; [|done].
    destruct (normalize_dates todt a) as [x|] eqn:E; simpl; [|done].
    intros [= <-] Hb. by rewrite (IH x eq_refl Hb).
Qed.

(** The removal of a file that is there, without a failing call. *)
Lemma remove_old_present code cur w :
  faults w = [] → is_Some (files w !! cur) →
  ∃ evs, remove_old code cur w
         = (Ok tt, mkworld (delete cur (files w)) (dirs w)
                           (FileRepository.remove_file (file_map w) code cur) []
                           (trace w ++ evs)).
Proof.
  destruct w as [fs ds fm flts tr]. simpl. intros -> [x Hx]. unfold remove_old. run_io.
  rewrite Hx. proj_io. by eexists.
Qed.

(** An update within the fiscal year, without a failing call: the world
    afterwards. *)
Lemma normal_update_world code dir cur df_old df_new latest fy dated w :
  let newp := Py.join dir (live_filename code fy (Py.replace "-" "" latest)) in
  faults w = [] → normalize_dates todt (df_old ++ df_new) = Ok dated →
  newp ≠ cur → cur ≠ newp +:+ ".tmp" → is_Some (files w !! cur) →
  ∃ evs, normal_update sort todt code dir cur df_old df_new latest fy w
         = (Ok tt, mkworld (delete cur (<[newp := merge sort dated]>
                                          (delete (newp +:+ ".tmp") (files w))))
                           (dirs w)
                           (FileRepository.add_file
                              (FileRepository.remove_file (file_map w) code cur) code newp)
                           [] (trace w ++ evs)).
Proof.
  intros newp Hf Hn Hne Htmp Hcur. unfold normal_update, Pd.concat.
  unfold lift at 1, bind at 1. rewrite Hn. fold newp.
  destruct (atomic_save_run (merge sort dated) newp w Hf) as (evs1 & E1).
  rewrite (bind_run _ _ _ _ _ E1).
  destruct (String.eqb_spec newp cur) as [|_]; [done|]. cbn [negb].
  edestruct (remove_old_present code cur) as (evs2 & E2); [| |rewrite (bind_run _ _ _ _ _ E2)].
  - done.
  - simpl. rewrite lookup_insert_ne by done. by rewrite lookup_delete_ne.
  - unfold repo_add_file, set_file_map. simpl. rewrite <- app_assoc. by eexists.
Qed.

(** X23: an update within the fiscal year, for dates of the year 1000 or
    later, whose fetched rows reach the target date, run without a failing
    call on a current file whose sort key is below the key of the file to
    write: it returns [UPDATED], the old file is gone, the new file holds
    the old rows merged with the fetched ones (one row per date, ascending,
    every date of either, the fetched row on a shared date) and is the
    latest file of the index; run again, dry or not, the update returns
    [ALREADY_LATEST] and changes nothing. *)
Theorem update_then_already_latest (code sc dq cur last : string) (w w1 : world)
    (fetched df_old old' : DataFrame) (name0 fy_part : string) (rest : list string)
    (d_last d_target : date) (kc kn : Z) :
  let target := yyyymmdd None d_target in
  let nfy := get_current_fy d_target in
  let cfy := default nfy (Py.int (Py.replace "fy" "" fy_part)) in
  let newp := Py.join (Py.join dq sc) (live_filename code cfy target) in
  faults w = [] → Py.join dq sc ∈ dirs w →
  locate code sc dq w = (Ok (inr (cur, last)), w1) →
  last = yyyymmdd None d_last → valid d_last = true → 1000 <= year d_last →
  valid d_target = true → date_lt d_last d_target →
  (∀ from_date, api code from_date target = Ok fetched) →
  fetched ≠ [] →
  (∀ r, r ∈ fetched →
        ∃ d, valid d = true ∧ 1000 <= year d ∧
             Date r = yyyymmdd (Some "-"%char) d ∧ todt (Date r) = Ok d) →
  Pd.max_date fetched = yyyymmdd (Some "-"%char) d_target →
  Py.endswith ".csv" cur = true →
  files w !! cur = Some df_old → normalize_dates todt df_old = Ok old' →
  Py.split "_" (Py.basename cur) = name0 :: fy_part :: rest →
  (cfy <? nfy) = false →
  FileRepository.sort_key cur = Ok kc → FileRepository.sort_key newp = Ok kn → kc < kn →
  ∃ w' out,
        update_file_for_code api sort todt code sc dq target false w = (Ok UPDATED, w') ∧
        files w' !! cur = None ∧
        files w' !! newp = Some out ∧ merged old' fetched out ∧
        FileRepository.get_latest_file (file_map w') code = Ok (Some newp) ∧
        ∀ test, ∃ w'',
          update_file_for_code api sort todt code sc dq target test w'
          = (Ok ALREADY_LATEST, w'') ∧ same_store w' w''.
Proof.
  intros target nfy cfy newp Hf Hdir Hloc Hlast Hvl Hyl Hvt Hlt Hapi Hne Hiso Hmax Hcsv Hcur
         Hold Hsplit Hfy Hkc Hkn Hk.
  (* the first run *)
  destruct (readonly_locate code sc dq w) as (r0 & evs0 & k0 & E0 & _ & _).
  rewrite Hloc in E0. injection E0 as <- ->.
  assert (Hlt' : Py.lt last target = true) by (subst last; by apply lt_yyyymmdd).
  destruct (from_date_str_le last target) as (f & Hfrom & _ & Hle);
    [by exists d_last|by exists d_target|done|].
  destruct (last_date_sort_values sort fetched sort_ok Hne) as [Hlast_date _].
  assert (Hperm : ∀ r, r ∈ sort fetched → r ∈ fetched).
  { intros r Hr. destruct (sort_ok fetched) as [P _].
    apply list_elem_of_In. eapply Permutation_in; [exact P|]. by apply list_elem_of_In. }
  assert (Hnorm : normalize_dates todt (df_old ++ sort fetched) = Ok (old' ++ sort fetched)).
  { apply normalize_dates_app_intro; [done|]. apply normalize_dates_iso.
    intros r Hr. destruct (Hiso r (Hperm r Hr)) as (d & Vd & Yd & Ed & Ht).
    exists d. split; [|done]. rewrite strftime_yyyymmdd; [done|].
    pose proof (valid_bounds _ Vd). lia. }
  assert (Hnc : newp ≠ cur) by (intros E; rewrite E in Hkn; rewrite Hkn in Hkc; injection Hkc; lia).
  assert (Hct : cur ≠ newp +:+ ".tmp") by (by apply csv_ne_tmp).
  assert (Hrun : ∃ evs,
    update_file_for_code api sort todt code sc dq target false w
    = (Ok UPDATED,
       mkworld (delete cur (<[newp := merge sort (old' ++ sort fetched)]>
                              (delete (newp +:+ ".tmp") (files w))))
               (dirs w)
               (FileRepository.add_file
                  (FileRepository.remove_file (file_map w) code cur) code newp)
               [] (trace w ++ evs))).
  { unfold update_file_for_code. rewrite (bind_run _ _ _ _ _ Hloc).
    unfold update_from. rewrite (lt_not_ge _ _ Hlt').
    unfold lift at 1, bind at 1. rewrite Hfrom. rewrite (le_not_gt _ _ Hle).
    unfold try_except, fetch_and_merge.
    destruct w as [fs ds fm flts tr]. simpl in Hf, Hcur, Hdir. subst flts.
    unfold advance. cbn [files dirs file_map faults trace]. rewrite drop_nil.
    unfold emit at 1, bind at 1. unfold fetch, emit at 1, bind at 1, bind at 1, lift at 1.
    cbn [files dirs file_map faults trace]. rewrite Hapi. rewrite (empty_false _ Hne).
    unfold read_csv at 1, emit at 1, bind at 1, bind at 1, next_fault at 1, bind at 1.
    cbn [files dirs file_map faults trace]. rewrite Hcur.
    rewrite Hlast_date, Hmax.
    unfold lift at 1, bind at 1. rewrite strptime_yyyymmdd by auto.
    rewrite Hsplit. unfold ret at 1, bind at 1. fold nfy. fold cfy. rewrite Hfy.
    rewrite <- Hmax.
    set (w3 := mkworld fs ds fm [] _).
    destruct (normal_update_world code (Py.join dq sc) cur df_old (sort fetched)
                (Pd.max_date fetched) cfy (old' ++ sort fetched) w3) as (evs & E);
      [done|done| | |by (simpl; rewrite Hcur)| ].
    - rewrite Hmax, replace_yyyymmdd. exact Hnc.
    - rewrite Hmax, replace_yyyymmdd. exact Hct.
    - unfold bind at 1. rewrite E. unfold ret.
      rewrite Hmax, replace_yyyymmdd. fold target. fold newp.
      cbn [files dirs file_map faults trace]. unfold w3. cbn [trace].
      rewrite <- !app_assoc. eexists. reflexivity. }
  destruct Hrun as (evs & Hrun).
  eexists _, (merge sort (old' ++ sort fetched)).
  split; [exact Hrun|]. cbn [files dirs file_map faults trace].
  split; [apply lookup_delete_eq|].
  split; [rewrite lookup_delete_ne by done; by rewrite lookup_insert_eq|].
  split.
  { assert (Hel : ∀ r, r ∈ old' ++ sort fetched ↔ r ∈ old' ++ fetched).
    { intros r. rewrite !elem_of_app. destruct (sort_ok fetched) as [P _]. by rewrite P. }
    assert (Hdl : ∀ d, d ∈ Date <$> sort fetched ↔ d ∈ Date <$> fetched).
    { intros d. destruct (sort_ok fetched) as [P _]. by rewrite P. }
    split; [by apply merge_NoDup|]. split; [by apply merge_sorted|].
    split; [|split].
    - intros d. rewrite merge_dates by done. rewrite !fmap_app, !elem_of_app.
      by rewrite Hdl.
    - intros r Hr%merge_elem; [|done]. by apply Hel, drop_duplicates_last_sub.
    - intros r Hr%merge_elem Hdate; [|done].
      apply Hdl in Hdate. destruct (sort_ok fetched) as [P _]. rewrite <- P.
      by eapply drop_duplicates_last_new_wins. }
  (* the index afterwards *)
  pose proof (locate_inr_latest _ _ _ _ _ _ _ Hloc) as Hlatest.
  destruct (latest_bounds_keys _ _ _ _ Hlatest Hkc) as (listed0 & Hfm & Hin & Hkeys).
  assert (Hidx : FileRepository.add_file
                   (FileRepository.remove_file (file_map w) code cur) code newp !! code
                 = Some (FileRepository.list_remove cur listed0 ++ [newp])).
  { unfold FileRepository.remove_file. rewrite Hfm, bool_decide_true by done.
    unfold FileRepository.add_file. rewrite lookup_insert_eq. simpl.
    rewrite bool_decide_false; [by rewrite lookup_insert_eq|].
    intros Hn%list_remove_sub. rewrite Forall_forall in Hkeys.
    destruct (Hkeys newp Hn) as (k & Hk1 & Hk2). rewrite Hkn in Hk1. injection Hk1 as <-. lia. }
  assert (Hnew_latest :
    FileRepository.get_latest_file
      (FileRepository.add_file (FileRepository.remove_file (file_map w) code cur) code newp)
      code = Ok (Some newp)).
  { eapply latest_of_app_last; [exact Hidx|exact Hkn|].
    apply Forall_forall. intros g Hg%list_remove_sub. rewrite Forall_forall in Hkeys.
    destruct (Hkeys g Hg) as (k & ? & ?). exists k. split; [done|lia]. }
  split; [done|].
  (* the second run *)
  intros test.
  assert (Hplain : ∀ c, Py.is_decimal c = false → has_char c target = false)
    by (intros c Hc; by apply has_char_yyyymmdd_plain).
  destruct (live_path_fields (Py.join dq sc) code cfy target) as [H3 Hfield];
    [by apply Hplain..|]. fold newp in H3, Hfield.
  assert (Hnp : newp ≠ "") by (apply join_nonempty; unfold live_filename;
    intros E%(f_equal String.length); rewrite !length_append in E; simpl in E; lia).
  unfold update_file_for_code, locate, bind at 1, bind at 1, path_exists, emit, bind at 1.
  cbn [files dirs file_map faults trace fst snd].
  replace (match delete cur (<[newp:=merge sort (old' ++ sort fetched)]>
                     (delete (newp +:+ ".tmp") (files w))) !! Py.join dq sc with
           | Some _ => true
           | None => bool_decide (Py.join dq sc ∈ dirs w)
           end) with true
    by (destruct (_ !! Py.join dq sc); [done|]; by rewrite bool_decide_true).
  cbn [negb]. unfold repo_get_latest_file at 1, bind at 1.
  cbn [files dirs file_map faults trace]. rewrite Hnew_latest.
  unfold last_updated_date. destruct newp as [|a np] eqn:Enp; [done|]. rewrite <- Enp in *.
  rewrite H3. unfold try_except, ret at 1, bind at 1. rewrite Hfield.
  replace (String.eqb target "") with false
    by (symmetry; apply String.eqb_neq, yyyymmdd_nonempty).
  unfold ret at 1. unfold update_from.
  replace (Py.ge target target) with true by (symmetry; apply py_le_refl).
  unfold ret. eexists. split; [reflexivity|]. done.
Qed.

End Rerun.

Lemma update_then_already_latest_witness :
  let cur := "dq/3700/72030_2024fy_20250320.csv" in
  let old := [mkrow "2025-03-19" ["1"]; mkrow "2025-03-20" ["2"]] in
  let fetched := [mkrow "2025-03-20" ["2b"]; mkrow "2025-03-24" ["3"]; mkrow "2025-03-25" ["4"]] in
  let w := mkworld {[ cur := old ]} {[ "dq/3700" ]} {[ "72030" := [cur] ]} [] [] in
  let update := update_file_for_code (λ _ _ _, Ok fetched) sort_by_date parse_iso
                  "72030" "3700" "dq" "20250325" in
  ∃ w' out, update false w = (Ok UPDATED, w') ∧
        files w' !! cur = None ∧
        files w' !! "dq/3700/72030_2024fy_20250325.csv" = Some out ∧
        merged old fetched out ∧
        ∀ test, ∃ w'', update test w' = (Ok ALREADY_LATEST, w'') ∧ same_store w' w''.
Proof.
  intros cur old fetched w update.
  destruct (update_then_already_latest (λ _ _ _, Ok fetched) sort_by_date parse_iso
              sort_by_date_sorts "72030" "3700" "dq" cur "20250320" w
              (snd (locate "72030" "3700" "dq" w)) fetched old old
              "72030" "2024fy" ["20250320.csv"] (mkdate 2025 3 20) (mkdate 2025 3 25)
              20250320 20250325)
    as (w' & out & E & Hc & Hn & Hm & _ & Hre).
  - reflexivity.
  - vm_compute. reflexivity.
  - vm_compute. reflexivity.
  - vm_compute. reflexivity.
  - vm_compute. reflexivity.
  - simpl. lia.
  - vm_compute. reflexivity.
  - unfold date_lt. simpl. lia.
  - reflexivity.
  - discriminate.
  - intros r Hr. repeat (apply elem_of_cons in Hr as [->|Hr]).
    + exists (mkdate 2025 3 20). split; [reflexivity|]. split; [simpl; lia|]. by split.
    + exists (mkdate 2025 3 24). split; [reflexivity|]. split; [simpl; lia|]. by split.
    + exists (mkdate 2025 3 25). split; [reflexivity|]. split; [simpl; lia|]. by split.
    + by apply elem_of_nil in Hr.
  - vm_compute. reflexivity.
  - vm_compute. reflexivity.
  - vm_compute. reflexivity.
  - vm_compute. reflexivity.
  - vm_compute. reflexivity.
  - vm_compute. reflexivity.
  - vm_compute. reflexivity.
  - vm_compute. reflexivity.
  - lia.
  - exists w', out. split; [exact E|]. split; [exact Hc|]. split; [exact Hn|].
    split; [exact Hm|exact Hre].
Defined.

(** ** Failing requests and unreadable files *)

Section Failures.

Variable api : string → string → string → result DataFrame.
Variable sort : DataFrame → DataFrame.
Variable todt : string → result date.

(** X25: when every request to the API fails, no run of the update changes
    files, directories or index, and but for a dry run none ends in
    [UPDATED] or [NO_NEW_DATA]: the failure of the request becomes
    [ERROR]. *)
Theorem api_down_changes_nothing (code sc dq target : string) (test : bool)
    (w : world) r w' :
  api_down api →
  update_file_for_code api sort todt code sc dq target test w = (r, w') →
  same_store w w' ∧ (test = false → r ≠ Ok UPDATED ∧ r ≠ Ok NO_NEW_DATA).
Proof.
  intros Hdown E. unfold update_file_for_code in E.
  unfold bind in E. destruct (locate code sc dq w) as [[located|e] w1] eqn:HL.
  2:{ injection E as <- <-.
      destruct (readonly_same_store _ _ _ _ (readonly_locate code sc dq) HL) as (? & _).
      split; [done|]. intros _. split; discriminate. }
  destruct (readonly_same_store _ _ _ _ (readonly_locate code sc dq) HL) as (S1 & _).
  destruct located as [o|[p last]].
  { injection E as <- <-. split; [done|]. intros _.
    apply locate_inl in HL as [[-> _]|[-> _]]; split; discriminate. }
  unfold update_from in E.
  destruct (Py.ge last target); [injection E as <- <-; split; [done|]; intros _; split; discriminate|].
  unfold lift at 1, bind at 1 in E. destruct (from_date_str last) as [f|e].
  2:{ injection E as <- <-. split; [done|]. intros _; split; discriminate. }
  destruct (Py.gt f target);
    [injection E as <- <-; split; [done|]; intros _; split; discriminate|].
  destruct test.
  { unfold try_except, fetch_and_merge, ret in E. injection E as <- <-. done. }
  destruct (Hdown code f target) as [e He].
  revert E. unfold try_except, fetch_and_merge.
  unfold emit at 1, bind at 1. unfold fetch, emit at 1, bind at 1, bind at 1, lift at 1.
  rewrite He. unfold ret. intros [= <- <-]. split.
  - destruct S1 as (? & ? & ?). done.
  - intros _. split; discriminate.
Qed.

(** X26: with the sector directory there, the update returns
    [FILE_NOT_FOUND] and changes nothing when the index lists no file for the
    code, and when the latest file has no date field in its name and its
    table cannot be read or is empty: the failure of the read is passed
    over. *)
Theorem no_last_date_is_file_not_found (code sc dq target : string) (test : bool)
    (w : world) :
  exists_at (Py.join dq sc) w →
  listed (file_map w) code = [] ∨ archive_unreadable code w →
  ∃ w', update_file_for_code api sort todt code sc dq target test w
        = (Ok FILE_NOT_FOUND, w') ∧ same_store w w'.
Proof.
  intros Hex Hcase.
  destruct (update_file_for_code api sort todt code sc dq target test w) as [r w'] eqn:E.
  assert (Hs : same_store w w' → r = Ok FILE_NOT_FOUND →
               ∃ w'0, (r, w') = (Ok FILE_NOT_FOUND, w'0) ∧ same_store w w'0).
  { intros ? ->. eauto. }
  revert E. unfold update_file_for_code, locate, bind at 1, bind at 1.
  destruct (path_exists (Py.join dq sc) w) as [[present|e] wA] eqn:EA.
  2:{ unfold path_exists, bind, emit in EA. simpl in EA. discriminate. }
  assert (present = true ∧ files wA = files w ∧ dirs wA = dirs w ∧ file_map wA = file_map w
          ∧ faults wA = faults w) as (-> & HfA & HdA & HmA & HflA).
  { unfold path_exists, bind, emit in EA. simpl in EA. injection EA as <- <-. simpl.
    repeat split. destruct Hex as [[x ->]|Hd]; [done|].
    destruct (files w !! _); [done|]. by apply bool_decide_eq_true_2. }
  cbn [negb]. unfold repo_get_latest_file at 1, bind at 1. rewrite HmA.
  destruct Hcase as [Hnone|(p & Hp & Hne & H3 & Hread)].
  - unfold FileRepository.get_latest_file. unfold listed in Hnone.
    destruct (file_map w !! code) as [[|f0 fs]|]; simpl in Hnone; try discriminate;
      (unfold last_updated_date, ret at 1, bind at 1, ret at 1; unfold ret;
       intros [= <- <-]; apply Hs; done).
  - rewrite Hp. unfold last_updated_date. destruct p as [|a p0] eqn:Ep; [done|].
    rewrite <- Ep in *. rewrite H3.
    unfold bind at 1.
    match goal with |- context [try_except ?m ?h wA] =>
      destruct (try_except m h wA) as [r1 wB] eqn:EB end.
    assert (r1 = Ok (inr None) ∧ same_store wA wB) as [-> HsB].
    { destruct (readonly_read_csv p wA) as (r2 & evs & k & E2 & _ & _).
      unfold try_except at 1 in EB.
      unfold try_except at 1, bind at 1 in EB. rewrite E2 in EB.
      destruct r2 as [df|e].
      - assert (df = []) as ->.
        { destruct wA as [fs ds fm flts tr]. simpl in *.
          revert E2. run_io. destruct flts as [|[|e0 t0] fl]; proj_io.
          - destruct (fs !! p) eqn:Efs; [|discriminate]. intros [= <- _].
            destruct Hread as [Hr|[Hr|(? & ? & ? & Hr)]]; congruence.
          - destruct (fs !! p) eqn:Efs; [|discriminate]. intros [= <- _].
            destruct Hread as [Hr|[Hr|(? & ? & ? & Hr)]]; congruence.
          - discriminate. }
        simpl in EB. unfold ret in EB. injection EB as <- <-. done.
      - unfold ret in EB. injection EB as <- <-. done. }
    unfold ret. intros [= <- <-]. apply Hs; [|done].
    destruct HsB as (? & ? & ?). unfold same_store. by rewrite HfA, HdA, HmA in *.
Qed.

End Failures.

Lemma api_down_changes_nothing_witness :
  let cur := "dq/3700/72030_2024fy_20250320.csv" in
  let w := mkworld {[ cur := [mkrow "2025-03-20" ["2"]] ]} {[ "dq/3700" ]}
                   {[ "72030" := [cur] ]} [] [] in
  let run := update_file_for_code (λ _ _ _, Raise RuntimeError) sort_by_date parse_iso
               "72030" "3700" "dq" "20250325" false w in
  fst run = Ok ERROR ∧ same_store w (snd run).
Proof.
  intros cur w run. split; [vm_compute; reflexivity|].
  destruct run as [r w'] eqn:E.
  apply (api_down_changes_nothing (λ _ _ _, Raise RuntimeError) sort_by_date parse_iso
           "72030" "3700" "dq" "20250325" false w r w'); [|exact E].
  intros ? ? ?. by exists RuntimeError.
Defined.

Lemma no_last_date_is_file_not_found_witness :
  let arch := "dq/3700/72030_2024fy.csv" in
  let w := mkworld {[ arch := [] ]} {[ "dq/3700" ]} {[ "72030" := [arch] ]} [] [] in
  ∃ w', update_file_for_code (λ _ _ _, Ok []) sort_by_date parse_iso
          "72030" "3700" "dq" "20250325" false w = (Ok FILE_NOT_FOUND, w') ∧
        same_store w w'.
Proof.
  intros arch w. apply no_last_date_is_file_not_found.
  - right. vm_compute. reflexivity.
  - right. exists arch. split; [vm_compute; reflexivity|]. split; [discriminate|].
    split; [vm_compute; reflexivity|]. right. left. vm_compute. reflexivity.
Defined.

(** ** The exceptions that escape *)

Section Escapes.

Variable api : string → string → string → result DataFrame.
Variable sort : DataFrame → DataFrame.
Variable todt : string → result date.

Lemma keyed_raises files e : FileRepository.keyed files = Raise e → e = ValueError.
Proof.
  induction files as [|f fs IH]; simpl; [done|].
  unfold FileRepository.sort_key at 1.
  destruct (_ && _).
  - destruct (Py.int _); simpl; [|by intros [= <-]].
    destruct (FileRepository.keyed fs); simpl; [done|]. intros [= <-]. by apply IH.
  - simpl. destruct (FileRepository.keyed fs); simpl; [done|]. intros [= <-]. by apply IH.
Qed.

Lemma get_latest_file_raises fm code e :
  FileRepository.get_latest_file fm code = Raise e → e = ValueError.
Proof.
  unfold FileRepository.get_latest_file.
  destruct (fm !! code) as [[|f0 fs]|]; try done.
  destruct (FileRepository.keyed (f0 :: fs)) eqn:E; simpl; [done|].
  intros [= <-]. by eapply keyed_raises.
Qed.

Lemma strptime_raises sep s e : strptime sep s = Raise e → e = ValueError.
Proof.
  unfold strptime, datetime.
  destruct (year_field s) as [[y r]|]; [|by intros [= <-]].
  destruct (literal sep r); [|by intros [= <-]].
  destruct (first_match sep _) as [[[m d] [|? ?]]|]; try (by intros [= <-]).
  destruct (valid _); [done|by intros [= <-]].
Qed.

Lemma from_date_str_raises last e :
  from_date_str last = Raise e → e = ValueError ∨ e = OverflowError.
Proof.
  unfold from_date_str. destruct (strptime None last) as [d|e0] eqn:E; simpl.
  - unfold add_one_day. repeat (destruct (_ <? _); [done|]). simpl. intros [= <-]. by right.
  - intros [= <-]. left. by eapply strptime_raises.
Qed.

Lemma locate_raises code sc dq w e :
  (∃ w', locate code sc dq w = (Raise e, w')) ↔
  exists_at (Py.join dq sc) w ∧ FileRepository.get_latest_file (file_map w) code = Raise e.
Proof.
  unfold locate, bind at 1, path_exists, emit, bind at 1. cbn [fst snd files dirs].
  assert (Hp : (match files w !! Py.join dq sc with
                | Some _ => true
                | None => bool_decide (Py.join dq sc ∈ dirs w)
                end) = true ↔ exists_at (Py.join dq sc) w).
  { unfold exists_at. destruct (files w !! Py.join dq sc).
    - split; [left; eauto|done].
    - rewrite bool_decide_eq_true. split; [by right|]. by intros [[? ?]|?]. }
  destruct (match files w !! Py.join dq sc with
            | Some _ => true
            | None => bool_decide (Py.join dq sc ∈ dirs w)
            end).
  2:{ cbn [negb]. unfold ret. split; [by intros [? [=]]|]. intros [H _]. apply Hp in H. done. }
  cbn [negb]. unfold repo_get_latest_file at 1, bind at 1. cbn [file_map].
  destruct (FileRepository.get_latest_file (file_map w) code) as [cur|e0].
  - split; [|by intros [_ [=]]]. intros [w' H]. exfalso.
    unfold bind at 1 in H.
    match type of H with context [last_updated_date cur ?w0] =>
      destruct (last_updated_date cur w0) as [r1 w1] eqn:E1 end.
    apply last_updated_date_inr in E1 as [x ->].
    destruct x as [last|]; [destruct cur as [p|]|].
    + destruct (String.eqb last ""); discriminate.
    + discriminate.
    + destruct cur; discriminate.
  - split.
    + intros [w' [= <- _]]. split; [by apply Hp|done].
    + intros [_ [= <-]]. eauto.
Qed.

(** With a code and a sector code that are strings, an exception leaves
    the update in two ways, both with the sector directory there:
    [get_latest_file] raises on the index, or the date computation of lines
    278 to 280 raises on a last-updated date that is before the target. *)
Lemma escapes_with_strings (code sc dq target : string) (test : bool) (w : world)
    (e : exn) :
  ((∃ w', update_file_for_code api sort todt code sc dq target test w = (Raise e, w')) ↔
   exists_at (Py.join dq sc) w ∧
   (FileRepository.get_latest_file (file_map w) code = Raise e ∨
    ∃ p last w1, locate code sc dq w = (Ok (inr (p, last)), w1) ∧
                 Py.ge last target = false ∧ from_date_str last = Raise e)) ∧
  ((∃ w', update_file_for_code api sort todt code sc dq target test w = (Raise e, w')) →
   e = ValueError ∨ e = OverflowError).
Proof.
  assert (Hiff :
    (∃ w', update_file_for_code api sort todt code sc dq target test w = (Raise e, w')) ↔
    exists_at (Py.join dq sc) w ∧
    (FileRepository.get_latest_file (file_map w) code = Raise e ∨
     ∃ p last w1, locate code sc dq w = (Ok (inr (p, last)), w1) ∧
                  Py.ge last target = false ∧ from_date_str last = Raise e)).
  { unfold update_file_for_code, bind at 1.
    destruct (locate code sc dq w) as [[located|e0] w1] eqn:HL.
    - destruct located as [o|[p last]].
      + split; [by intros [? [=]]|]. intros [Hex [Hg|(p & last & w2 & [=] & _)]].
        assert (Hr : ∃ w', locate code sc dq w = (Raise e, w')) by (apply locate_raises; done).
        destruct Hr as [w' Hr]. congruence.
      + unfold update_from.
        assert (Hex : exists_at (Py.join dq sc) w) by (by eapply locate_inr_exists).
        assert (Hnr : FileRepository.get_latest_file (file_map w) code ≠ Raise e).
        { intros Hg.
          assert (Hr : ∃ w', locate code sc dq w = (Raise e, w')) by (apply locate_raises; done).
          destruct Hr as [w' Hr]. congruence. }
        destruct (Py.ge last target) eqn:Hge.
        * split; [by intros [? [=]]|].
          intros [_ [?|(p' & last' & w2 & [= <- <- <-] & ? & _)]]; [done|congruence].
        * unfold lift at 1, bind at 1. destruct (from_date_str last) as [f|e1] eqn:Hf.
          -- split.
             ++ intros [w' H]. exfalso. destruct (Py.gt f target); [discriminate|].
                unfold try_except in H.
                destruct (fetch_and_merge _ _ _ _ _ _ _ _ _ _) as [[?|?] ?]; discriminate.
             ++ intros [_ [?|(p' & last' & w2 & [= <- <- <-] & _ & ?)]]; [done|congruence].
          -- split.
             ++ intros [w' [= <- _]]. split; [done|]. right. by exists p, last, w1.
             ++ intros [_ [?|(p' & last' & w2 & [= <- <- <-] & _ & ?)]]; [done|].
                assert (e1 = e) as -> by congruence. eauto.
    - assert (Hr : ∃ w', locate code sc dq w = (Raise e0, w')) by eauto.
      apply locate_raises in Hr as [Hex Hg]. split.
      + intros [w' [= <- _]]. auto.
      + intros [_ [Hg'|(p & last & w2 & [=] & _)]].
        assert (e0 = e) as -> by congruence. eauto. }
  split; [exact Hiff|].
  intros [_ [Hg|(p & last & w2 & _ & _ & Hf)]]%Hiff.
  - left. by eapply get_latest_file_raises.
  - by eapply from_date_str_raises.
Qed.

(** X27: an exception leaves [update_file_for_code] in exactly three ways.
    The sector code is a cell without value and [os.path.join] raises
    [TypeError] at line 232; or, code and sector code being strings and the
    sector directory there, [get_latest_file] raises on the index, or the
    date computation of lines 278 to 280 raises on a last-updated date that
    is before the target, with a [ValueError] or an [OverflowError].
    Everything else becomes an outcome. *)
Theorem escaping_exceptions (code sector_code : cell) (dq target : string) (test : bool)
    (w : world) (e : exn) :
  ((∃ w', update_file_for_code api sort todt code sector_code dq target test w
          = (Raise e, w')) ↔
   (sector_code = NaN ∧ e = TypeError) ∨
   ∃ c sc : string,
     code = Str c ∧ sector_code = Str sc ∧ exists_at (Py.join dq sc) w ∧
     (FileRepository.get_latest_file (file_map w) c = Raise e ∨
      ∃ p last w1, locate c sc dq w = (Ok (inr (p, last)), w1) ∧
                   Py.ge last target = false ∧ from_date_str last = Raise e)) ∧
  ((∃ w', update_file_for_code api sort todt code sector_code dq target test w
          = (Raise e, w')) →
   (sector_code = NaN ∧ e = TypeError) ∨
   (sector_code ≠ NaN ∧ (e = ValueError ∨ e = OverflowError))).
Proof.
  destruct sector_code as [sc|].
  2:{ split.
      - split; [|intros [[_ ->]|(c & sc & _ & [=] & _)]; by eexists].
        intros [w' H]. left. unfold update_file_for_code, raise in H. by injection H as <-.
      - intros [w' H]. left. unfold update_file_for_code, raise in H. by injection H as <-. }
  destruct code as [c|].
  - destruct (escapes_with_strings c sc dq target test w e) as [Hiff Hkind]. split.
    + rewrite Hiff. split.
      * intros [Hex H]. right. by exists c, sc.
      * intros [[[=] _]|(c' & sc' & [= <-] & [= <-] & Hex & H)]. done.
    + intros H. right. split; [done|]. by apply Hkind.
  - assert (Hno : ¬ ∃ w', update_file_for_code api sort todt NaN sc dq target test w
                          = (Raise e, w')).
    { intros [w' H]. unfold update_file_for_code, bind in H.
      destruct (path_exists (Py.join dq sc) w) as [[present|e0] w1] eqn:E1.
      - destruct present; simpl in H; discriminate.
      - unfold path_exists, bind, emit in E1. simpl in E1. discriminate. }
    split; [|by intros ?]. split; [by intros ?|].
    intros [[[=] _]|(c' & sc' & [=] & _)].
Qed.

End Escapes.

(** A row without sector code: the update raises [TypeError] before it
    looks at the disk; a row without code is skipped as [FILE_NOT_FOUND]. *)
Example update_without_sector_code :
  let w := mkworld ∅ {[ "dq/3700" ]} ∅ [] [] in
  let update := update_file_for_code (λ _ _ _, Ok []) sort_by_date parse_iso in
  update "72030" NaN "dq" "20250325" false w = (Raise TypeError, w) ∧
  fst (update NaN "3700" "dq" "20250325" false w) = Ok FILE_NOT_FOUND.
Proof. split; vm_compute; reflexivity. Qed.

(** ** What an update leaves alone *)

Section Frame.

Variable api : string → string → string → result DataFrame.
Variable sort : DataFrame → DataFrame.
Variable todt : string → result date.
Variables dir code cur : string.

#[local] Instance kept_outside_refl : Reflexive (kept_outside dir code cur).
Proof. by intros w. Qed.

#[local] Instance kept_outside_trans : Transitive (kept_outside dir code cur).
Proof.
  intros w1 w2 w3 (H1 & H2 & H3) (H4 & H5 & H6). split; [|split].
  - intros c Hc. by rewrite H4, H1.
  - congruence.
  - intros q Hq Ho. by rewrite H6, H3.
Qed.

Lemma kept_same_store w w' : same_store w w' → kept_outside dir code cur w w'.
Proof. intros (Hf & Hd & Hm). split; [|split]; [by rewrite Hm|done|by rewrite Hf]. Qed.

Lemma kept_readonly {A} (m : M A) : readonly m → preserves (kept_outside dir code cur) m.
Proof.
  intros Hm w r w' E. apply kept_same_store.
  by destruct (readonly_same_store _ _ _ _ Hm E) as (? & _).
Qed.

Lemma kept_atomic_save df name :
  preserves (kept_outside dir code cur)
    (atomic_save df (Py.join dir (code +:+ "_" +:+ name))).
Proof.
  intros w r w' E. pose proof (atomic_save_index _ _ _ _ _ E) as [Hm Hd].
  apply atomic_save_frame in E as (Hfr & _).
  split; [by rewrite Hm|]. split; [done|].
  intros q _ Ho. apply Hfr; intros ->; apply Ho; exists name; auto.
Qed.

Lemma remove_old_index w r w' :
  remove_old code cur w = (r, w') →
  file_map w' = file_map w ∨
  file_map w' = FileRepository.remove_file (file_map w) code cur.
Proof.
  destruct w as [fs ds fm flts tr]. unfold remove_old. run_io.
  destruct flts as [|[|e0 torn] flts]; proj_io.
  - destruct (fs !! cur); proj_io; intros ?; simplify_eq; proj_io; auto.
  - destruct (fs !! cur); proj_io; intros ?; simplify_eq; proj_io; auto.
  - intros ?; simplify_eq; proj_io; auto.
Qed.

Lemma remove_file_other fm p c :
  c ≠ code → FileRepository.remove_file fm code p !! c = fm !! c.
Proof.
  intros Hc. unfold FileRepository.remove_file. destruct (fm !! code); [|done].
  destruct (bool_decide _); [by rewrite lookup_insert_ne|done].
Qed.

Lemma add_file_other fm p c :
  c ≠ code → FileRepository.add_file fm code p !! c = fm !! c.
Proof.
  intros Hc. unfold FileRepository.add_file. destruct (bool_decide _); by rewrite lookup_insert_ne.
Qed.

Lemma kept_remove_old : preserves (kept_outside dir code cur) (remove_old code cur).
Proof.
  intros w r w' E. pose proof (remove_old_index _ _ _ E) as Hm.
  pose proof (remove_old_files _ _ _ _ _ E) as (_ & Hd & Hf).
  split; [|split; [done|]].
  - intros c Hc. destruct Hm as [-> | ->]; [done|by apply remove_file_other].
  - intros q Hq _. destruct Hf as [-> | ->]; [done|by rewrite lookup_delete_ne].
Qed.

Lemma kept_repo_add_file p : preserves (kept_outside dir code cur) (repo_add_file code p).
Proof.
  intros w r w' [= _ <-]. split; [|done]. intros c Hc. simpl. by apply add_file_other.
Qed.

Lemma kept_rollover df_old df_new latest cfy nfy :
  preserves (kept_outside dir code cur)
    (rollover sort todt code dir cur df_old df_new latest cfy nfy).
Proof.
  unfold rollover, archive_filename, live_filename.
  apply preserves_bind; [apply _|apply preserves_lift; apply _|]. intros start.
  apply preserves_bind; [apply _|apply kept_atomic_save|]. intros _.
  apply preserves_bind; [apply _| |].
  { destruct (negb _); [apply kept_remove_old|apply preserves_ret; apply _]. }
  intros _. apply preserves_bind; [apply _|apply kept_repo_add_file|]. intros _.
  destruct (negb _); [|apply preserves_ret; apply _].
  apply preserves_bind; [apply _|apply preserves_lift; apply _|]. intros df_next.
  apply preserves_bind; [apply _|apply kept_atomic_save|]. intros _.
  apply kept_repo_add_file.
Qed.

Lemma kept_normal_update df_old df_new latest cfy :
  preserves (kept_outside dir code cur)
    (normal_update sort todt code dir cur df_old df_new latest cfy).
Proof.
  unfold normal_update, live_filename.
  apply preserves_bind; [apply _|apply preserves_lift; apply _|]. intros dated.
  apply preserves_bind; [apply _|apply kept_atomic_save|]. intros _.
  apply preserves_bind; [apply _| |intros _; apply kept_repo_add_file].
  destruct (negb _); [apply kept_remove_old|apply preserves_ret; apply _].
Qed.

Lemma kept_fetch_and_merge from_date target test :
  preserves (kept_outside dir code cur)
    (fetch_and_merge api sort todt code dir cur from_date target test).
Proof.
  unfold fetch_and_merge. destruct test; [apply preserves_ret; apply _|].
  apply preserves_bind; [apply _| |].
  { intros w r w' [= _ <-]. done. }
  intros _. apply preserves_bind; [apply _| |].
  { unfold fetch. apply preserves_bind; [apply _| |intros _; apply preserves_lift; apply _].
    intros w r w' [= _ <-]. done. }
  intros fetched. destruct (Pd.empty fetched); [apply preserves_ret; apply _|].
  apply preserves_bind; [apply _|apply kept_readonly, readonly_read_csv|]. intros df_old.
  apply preserves_bind; [apply _|apply preserves_lift; apply _|]. intros latest.
  apply preserves_bind; [apply _| |].
  { destruct (Py.split _ _) as [|? [|? ?]];
      first [apply preserves_raise; apply _|apply preserves_ret; apply _]. }
  intros fy_part.
  apply preserves_bind; [apply _| |intros; apply preserves_ret; apply _].
  destruct (_ <? _); [apply kept_rollover|apply kept_normal_update].
Qed.

Lemma kept_update_from sc dq target test last :
  dir = Py.join dq sc →
  preserves (kept_outside dir code cur)
    (update_from api sort todt code sc dq target test cur last).
Proof.
  intros Hdir. unfold update_from. rewrite <- Hdir.
  destruct (Py.ge last target); [apply preserves_ret; apply _|].
  apply preserves_bind; [apply _|apply preserves_lift; apply _|]. intros f.
  destruct (Py.gt f target); [apply preserves_ret; apply _|].
  apply preserves_try_except; [apply _|apply kept_fetch_and_merge|].
  intros e. apply preserves_ret. apply _.
Qed.

End Frame.

(** X28: whatever happens in a run of the update of one instrument, the
    index entries of the other codes and the directories are as before, and
    a file is as before unless it is the latest file of the instrument or
    has one of the instrument's own paths: a name in the sector directory
    that starts with the code and an underscore, or the temporary file of
    such a path. *)
Theorem update_keeps_to_its_own_paths api sort todt (code sc dq target : string)
    (test : bool) (w : world) r w' :
  update_file_for_code api sort todt code sc dq target test w = (r, w') →
  (∀ c, c ≠ code → file_map w' !! c = file_map w !! c) ∧ dirs w' = dirs w ∧
  ∀ q, FileRepository.get_latest_file (file_map w) code ≠ Ok (Some q) →
       ¬ own_path (Py.join dq sc) code q →
       files w' !! q = files w !! q.
Proof.
  intros E. unfold update_file_for_code in E.
  unfold bind in E. destruct (locate code sc dq w) as [[located|e] w1] eqn:HL.
  2:{ injection E as <- <-.
      destruct (readonly_same_store _ _ _ _ (readonly_locate code sc dq) HL)
        as ((Hf & Hd & Hm) & _).
      rewrite Hf, Hd, Hm. done. }
  destruct (readonly_same_store _ _ _ _ (readonly_locate code sc dq) HL)
    as ((Hf & Hd & Hm) & _).
  destruct located as [o|[p last]].
  { injection E as <- <-. rewrite Hf, Hd, Hm. done. }
  apply locate_inr_latest in HL.
  assert (K : kept_outside (Py.join dq sc) code p w1 w').
  { eapply kept_update_from; [reflexivity|exact E]. }
  destruct K as (K1 & K2 & K3). split; [|split].
  - intros c Hc. by rewrite K1, Hm.
  - congruence.
  - intros q Hq Ho. rewrite K3, Hf; [done| |done]. intros ->. done.
Qed.

Lemma update_keeps_to_its_own_paths_witness :
  let cur := "dq/3700/72030_2024fy_20250320.csv" in
  let other := "dq/3700/72040_2024fy_20250320.csv" in
  let old := [mkrow "2025-03-19" ["1"]; mkrow "2025-03-20" ["2"]] in
  let fetched := [mkrow "2025-03-24" ["3"]; mkrow "2025-03-25" ["4"]] in
  let w := mkworld {[ cur := old; other := old ]} {[ "dq/3700" ]}
                   {[ "72030" := [cur]; "72040" := [other] ]} [] [] in
  let run := update_file_for_code (λ _ _ _, Ok fetched) sort_by_date parse_iso
               "72030" "3700" "dq" "20250325" false w in
  fst run = Ok UPDATED ∧
  file_map (snd run) !! "72040" = Some [other] ∧ files (snd run) !! other = Some old.
Proof.
  intros cur other old fetched w run. split; [vm_compute; reflexivity|].
  destruct run as [r w'] eqn:E.
  destruct (update_keeps_to_its_own_paths _ _ _ _ _ _ _ _ _ _ _ E) as (Hm & _ & Hf).
  simpl. split.
  - rewrite Hm by discriminate. vm_compute. reflexivity.
  - rewrite Hf.
    + vm_compute. reflexivity.
    + vm_compute. discriminate.
    + intros [name [H|H]]; vm_compute in H; discriminate.
Defined.

(** ** The loop stops where an update raises *)

Section LoopAborts.

Variable api : string → string → string → result DataFrame.
Variable sort : DataFrame → DataFrame.
Variable todt : string → result date.

Lemma update_raises_kind (code sector_code : cell) dq target test w e w' :
  update_file_for_code api sort todt code sector_code dq target test w = (Raise e, w') →
  (sector_code = NaN ∧ e = TypeError) ∨
  (sector_code ≠ NaN ∧ (e = ValueError ∨ e = OverflowError)).
Proof.
  destruct sector_code as [sc|].
  2:{ unfold update_file_for_code, raise. intros [= <- _]. by left. }
  intros H. right. split; [done|]. destruct code as [c|].
  - destruct (escapes_with_strings api sort todt c sc dq target test w e) as [_ Hkind].
    apply Hkind. eauto.
  - exfalso. unfold update_file_for_code, bind in H.
    destruct (path_exists (Py.join dq sc) w) as [[present|e0] w1] eqn:E1.
    + destruct present; simpl in H; discriminate.
    + unfold path_exists, bind, emit in E1. simpl in E1. discriminate.
Qed.

(** X29: the loop of [main] has no handler around the update of a row.  When the
    loop ends in an exception, that exception was raised by [update_file_for_code]
    on a row of a target market of the table, and the loop stopped in the world
    that update left; the exception is a [TypeError] when the row has no sector
    code, and a [ValueError] or an [OverflowError] otherwise. *)
Theorem main_loop_stops_where_an_update_raises (dq target : string) (test : bool) (i : Z)
    (rows : list listed_row) (c : counters) (w w' : world) (e : exn) :
  main_loop api sort todt dq target test i rows c w = (Raise e, w') →
  ∃ row w0, row ∈ rows ∧ in_target_markets (MarketCodeName row) = true ∧
            update_file_for_code api sort todt (Code row) (Sector33Code row) dq target test w0
            = (Raise e, w') ∧
            ((Sector33Code row = NaN ∧ e = TypeError) ∨
             (Sector33Code row ≠ NaN ∧ (e = ValueError ∨ e = OverflowError))).
Proof.
  revert i c w. induction rows as [|row rows IH]; intros i c w; simpl; [discriminate|].
  destruct (in_target_markets (MarketCodeName row)) eqn:Em; simpl.
  - destruct (test && (10 <=? i)); [discriminate|].
    intros [H|(o & w1 & _ & H)]%bind_Raise_inv.
    + exists row, w. split; [apply list_elem_of_here|]. split; [done|].
      split; [done|]. by eapply update_raises_kind.
    + destruct (IH _ _ _ H) as (row' & w0 & Hin & Hm & Hu).
      exists row', w0. split; [by apply list_elem_of_further|done].
  - intros H. destruct (IH _ _ _ H) as (row' & w0 & Hin & Hm & Hu).
    exists row', w0. split; [by apply list_elem_of_further|done].
Qed.

End LoopAborts.

Lemma main_loop_stops_where_an_update_raises_witness :
  let rows := [mklisted "13010" "0050" (Some "プライム"); mklisted "72030" NaN (Some "プライム");
               mklisted "72040" "3700" (Some "プライム")] in
  let w := mkworld ∅ {[ "dq/3700" ]} ∅ [] [] in
  let run := main_loop (λ _ _ _, Ok []) sort_by_date parse_iso "dq" "20250325" false 0 rows
               (mkcounters 0 0 0) w in
  fst run = Raise TypeError ∧
  ∃ row w0, row ∈ rows ∧ Sector33Code row = NaN ∧
            update_file_for_code (λ _ _ _, Ok []) sort_by_date parse_iso
              (Code row) (Sector33Code row) "dq" "20250325" false w0
            = (Raise TypeError, snd run).
Proof.
  intros rows w run. split; [vm_compute; reflexivity|].
  destruct run as [r w'] eqn:E.
  assert (Er : r = Raise TypeError).
  { apply (f_equal fst) in E. vm_compute in E. by subst r. }
  subst r.
  destruct (main_loop_stops_where_an_update_raises _ _ _ _ _ _ _ _ _ _ _ _ E)
    as (row & w0 & Hin & _ & Hu & [[Hs _]|[_ [?|?]]]); try discriminate.
  exists row, w0. split; [exact Hin|]. split; [exact Hs|exact Hu].
Defined.

(** The same loop on a table whose second row has a file named for February
    30: the update of that row raises [ValueError], and so does the loop. *)
Example main_loop_stops_on_impossible_date :
  let bad := "dq/3700/72030_2024fy_20250230.csv" in
  let rows := [mklisted "13010" "0050" (Some "プライム"); mklisted "72030" "3700" (Some "プライム");
               mklisted "72040" "3700" (Some "プライム")] in
  let w := mkworld ∅ {[ "dq/3700" ]} {[ "72030" := [bad] ]} [] [] in
  fst (main_loop (λ _ _ _, Ok []) sort_by_date parse_iso "dq" "20250325" false 0 rows
         (mkcounters 0 0 0) w) = Raise ValueError.
Proof. vm_compute. reflexivity. Qed.

Lemma topix_prefix_run_any sort todt root target test w :
  faults w = [] ∨ exists_at (get_indices_dir root) w →
  ∃ w2, faults w2 = faults w ∧ files w2 = files w ∧ file_map w2 = file_map w ∧
        ∀ api, update_topix_body api sort todt root target test w
               = (let* existing := topix_existing (get_topix_file_path root) in
                  topix_fetch_and_save api sort todt (get_topix_file_path root)
                    (fst existing) (snd existing) target test) w2.
Proof.
  intros H. destruct w as [fs ds fm flts tr].
  unfold update_topix_body, bind at 1, path_exists, emit, bind at 1. cbn [fst snd files dirs].
  destruct (match fs !! get_indices_dir root with
            | Some _ => true
            | None => bool_decide (get_indices_dir root ∈ ds)
            end) eqn:Ep; cbn [negb].
  - unfold ret at 1, bind at 1. eexists. split; [|split; [|split]]; [| | |reflexivity]; done.
  - destruct H as [Hf|[[x Hx]|Hd]]; simpl in *.
    + subst flts. unfold makedirs, bind at 2, next_fault, bind at 1. simpl.
      eexists. split; [|split; [|split]]; [| | |reflexivity]; done.
    + by rewrite Hx in Ep.
    + destruct (fs !! get_indices_dir root); [done|]. by rewrite bool_decide_true in Ep.
Qed.

(** X30: a TOPIX file that already reaches the target date is left alone.  Without
    failing calls, when the stored table is not empty and its largest date (dashes
    removed) is not below the target, [update_topix_data] returns without a request
    (the run is the same under any API) and every file is as it was. *)
Theorem topix_up_to_date_is_idle
    (api api' : option string → string → result DataFrame) sort todt
    (root target : string) (test : bool) (old : DataFrame) (w : world) :
  let topix := get_topix_file_path root in
  let last := if has_char "-" (Pd.max_date old) then Py.replace "-" "" (Pd.max_date old)
              else Pd.max_date old in
  faults w = [] → files w !! topix = Some old → old ≠ [] →
  last ≠ "" → Py.ge last target = true →
  ∃ w', update_topix_data api sort todt root target test w = (Ok tt, w') ∧
        update_topix_data api' sort todt root target test w = (Ok tt, w') ∧
        same_files w w'.
Proof.
  intros topix last Hf Hold Hne Hl Hge. subst topix.
  destruct (topix_prefix_run_any sort todt root target test w (or_introl Hf))
    as (w2 & Hf2 & Hfs2 & Hm2 & Hpre).
  rewrite Hf in Hf2.
  destruct (topix_existing_old (get_topix_file_path root) old w2 Hf2) as (w3 & E3 & Hf3 & Hfs3);
    [by rewrite Hfs2|done|].
  assert (Hm3 : file_map w3 = file_map w2).
  { by destruct (readonly_same_store _ _ _ _ (readonly_topix_existing _) E3)
      as ((_ & _ & ?) & _). }
  assert (Hrun : ∀ a, update_topix_data a sort todt root target test w = (Ok tt, w3)).
  { intros a. unfold update_topix_data, try_except. rewrite Hpre.
    rewrite (bind_run _ _ _ _ _ E3). cbn [fst snd].
    unfold topix_fetch_and_save. fold last.
    destruct last as [|ch last0] eqn:El; [done|]. rewrite <- El in *.
    replace (negb (last =? "")%string) with true by (by rewrite El).
    cbn [andb]. rewrite Hge. done. }
  exists w3. split; [apply Hrun|]. split; [apply Hrun|].
  split; congruence.
Qed.

Lemma topix_up_to_date_is_idle_witness :
  let topix := "/proj/jqdb/indices/topix_daily.csv" in
  let old := [mkrow "2025-03-24" ["1"]; mkrow "2025-03-25" ["2"]] in
  let w := mkworld {[ topix := old ]} ∅ ∅ [] [] in
  ∃ w', update_topix_data (λ _ _, Raise RuntimeError) sort_by_date parse_iso
          "/proj" "20250325" false w = (Ok tt, w') ∧
        update_topix_data (λ _ _, Ok old) sort_by_date parse_iso
          "/proj" "20250325" false w = (Ok tt, w') ∧
        same_files w w'.
Proof.
  intros topix old w.
  apply (topix_up_to_date_is_idle (λ _ _, Raise RuntimeError) (λ _ _, Ok old)
           sort_by_date parse_iso "/proj" "20250325" false old w).
  - reflexivity.
  - vm_compute. reflexivity.
  - discriminate.
  - vm_compute. discriminate.
  - vm_compute. reflexivity.
Defined.
